(** * DataArt: the redaction heuristics, the feed adapters and the data route

    A shallow embedding of the JavaScript sources
    - [gdg_parser.js]            (class [GDGParser], JSON article feed),
    - the RSS variant of [GDGParser] (DOM based, paraphrasing redaction),
    - the sketch's stand-alone [createRedactedVersion],
    - the Express route [/api/gdelt] and the serverless [handler],
    together with the part of the ECMAScript library they rely on:
    strings as sequences of UTF-16 code units, the backtracking regular
    expression matcher, [split], [replace], [join], [trim], and JSON values
    with dynamic property access. *)

From Stdlib Require Import QArith String Ascii DecimalString NArith Bool Arith Lia List.
Import ListNotations.
Local Open Scope nat_scope.
Local Open Scope list_scope.

Set Implicit Arguments.
Set Warnings "-register-all".

(* ================================================================== *)
(** ** ECMAScript strings and regular expressions *)
(* ================================================================== *)

Module Js.

(** A string is a finite sequence of 16-bit code units. *)
Definition jsstring := list N.

(** Source literals are ASCII; [lit] gives their code units. *)
Fixpoint lit (s : string) : jsstring :=
  match s with
  | EmptyString => []
  | String a s' => N_of_ascii a :: lit s'
  end.

Definition is_nil {A} (l : list A) : bool :=
  match l with [] => true | _ => false end.

Fixpoint str_eqb (a b : jsstring) : bool :=
  match a, b with
  | [], [] => true
  | x :: a', y :: b' => N.eqb x y && str_eqb a' b'
  | _, _ => false
  end.

(** *** Character classes *)

Definition is_digit (c : N) : bool := ((48 <=? c) && (c <=? 57))%N.
Definition is_upper (c : N) : bool := ((65 <=? c) && (c <=? 90))%N.
Definition is_lower (c : N) : bool := ((97 <=? c) && (c <=? 122))%N.

(** [\w] without the [u] flag: [A-Za-z0-9_]. *)
Definition is_word (c : N) : bool :=
  is_digit c || is_upper c || is_lower c || (c =? 95)%N.

(** [\s], which is also the set [trim] strips: WhiteSpace and
    LineTerminator code points. *)
Definition is_space (c : N) : bool :=
  existsb (N.eqb c)
    [9; 10; 11; 12; 13; 32; 160; 5760; 8232; 8233; 8239; 8287; 12288; 65279]%N
  || ((8192 <=? c) && (c <=? 8202))%N.

(** Canonicalize of the [i] flag (no [u] flag), restricted to what the
    patterns of this program can observe: every literal character of every
    pattern is ASCII, and Canonicalize never maps a code unit above 127 to
    one below 128, so only the ASCII letters fold. *)
Definition canon (c : N) : N := if is_lower c then (c - 32)%N else c.

Definition chr_eqb (ic : bool) (pat c : N) : bool :=
  if ic then (canon pat =? canon c)%N else (pat =? c)%N.

(** *** Patterns *)

Inductive regex : Type :=
| Eps                     (* the empty pattern *)
| Chr (c : N)             (* a literal character *)
| Digit                   (* \d *)
| Space                   (* \s *)
| WordB                   (* \b *)
| Bol                     (* ^ (no multiline flag) *)
| Seq (a b : regex)
| Alt (a b : regex)
| Star (a : regex).       (* greedy a* *)

Definition Plus (a : regex) : regex := Seq a (Star a).     (* a+ *)
Definition Opt (a : regex) : regex := Alt a Eps.           (* a? *)

Fixpoint chars (s : jsstring) : regex :=
  match s with
  | [] => Eps
  | [c] => Chr c
  | c :: s' => Seq (Chr c) (chars s')
  end.

Definition ch (a : ascii) : regex := Chr (N_of_ascii a).
Arguments ch a%_char.

(** A literal word of the pattern source. *)
Definition word (s : string) : regex := chars (lit s).

(** [(?:w1|w2|...)] *)
Fixpoint oneof (ws : list string) : regex :=
  match ws with
  | [] => Eps
  | [w] => word w
  | w :: ws' => Alt (word w) (oneof ws')
  end.

(** [\b(?:w1|w2|...)\b] *)
Definition bounded (r : regex) : regex := Seq WordB (Seq r WordB).

(** *** The backtracking matcher

    A position in the subject string is the code unit before it (if any)
    and the rest of the string.  [run] lists the positions at which a match
    starting here can end, in the order in which the backtracking matcher of
    the language definition tries them; its head is the match [exec] reports. *)

Definition pos : Type := option N * jsstring.

Definition word_before (p : option N) : bool :=
  match p with Some c => is_word c | None => false end.
Definition word_after (s : jsstring) : bool :=
  match s with c :: _ => is_word c | [] => false end.

Definition one (f : N -> bool) (s : jsstring) : list pos :=
  match s with
  | c :: s' => if f c then [(Some c, s')] else []
  | [] => []
  end.

(** The loop of a greedy star: an iteration that consumes nothing is
    rejected, so [fuel] bounded by the length of the rest is never used up. *)
Fixpoint star_loop (step : option N -> jsstring -> list pos)
         (fuel : nat) (p : option N) (s : jsstring) : list pos :=
  match fuel with
  | O => [(p, s)]
  | S fuel' =>
      flat_map (fun q : pos =>
                  if length (snd q) <? length s
                  then star_loop step fuel' (fst q) (snd q) else [])
               (step p s)
      ++ [(p, s)]
  end.

Fixpoint run (ic : bool) (r : regex) (p : option N) (s : jsstring) : list pos :=
  match r with
  | Eps => [(p, s)]
  | Chr c => one (chr_eqb ic c) s
  | Digit => one is_digit s
  | Space => one is_space s
  | WordB => if xorb (word_before p) (word_after s) then [(p, s)] else []
  | Bol => match p with None => [(p, s)] | Some _ => [] end
  | Seq a b => flat_map (fun q : pos => run ic b (fst q) (snd q)) (run ic a p s)
  | Alt a b => run ic a p s ++ run ic b p s
  | Star a => star_loop (run ic a) (S (length s)) p s
  end.

(** RegExpBuiltinExec without the sticky flag: try each start index in turn.
    The result is the text skipped before the match and the position at
    which the match ends. *)
Fixpoint exec (ic : bool) (r : regex) (p : option N) (s : jsstring)
  : option (jsstring * pos) :=
  match run ic r p s with
  | m :: _ => Some ([], m)
  | [] =>
      match s with
      | [] => None
      | c :: s' =>
          match exec ic r (Some c) s' with
          | Some (skipped, m) => Some (c :: skipped, m)
          | None => None
          end
      end
  end.

(** [pattern.test(s)] for a pattern without the [g] and [y] flags. *)
Definition test (ic : bool) (r : regex) (s : jsstring) : bool :=
  match exec ic r None s with Some _ => true | None => false end.

(** [s.replace(pattern, repl)] for a pattern without the [g] flag and a
    replacement text without [$]. *)
Definition replace (ic : bool) (r : regex) (repl s : jsstring) : jsstring :=
  match exec ic r None s with
  | Some (skipped, m) => skipped ++ repl ++ snd m
  | None => s
  end.

(** [s.replace(pattern, repl)] with the [g] flag: the loop over [exec] from
    [lastIndex], which steps over one code unit after an empty match. *)
Fixpoint replace_loop (fuel : nat) (ic : bool) (r : regex) (repl : jsstring)
         (p : option N) (s : jsstring) : jsstring :=
  match fuel with
  | O => s
  | S fuel' =>
      match exec ic r p s with
      | None => s
      | Some (skipped, m) =>
          if length (snd m) + length skipped =? length s
          then (* empty match *)
            skipped ++ repl ++
            match snd m with
            | [] => []
            | c :: s' => c :: replace_loop fuel' ic r repl (Some c) s'
            end
          else skipped ++ repl ++ replace_loop fuel' ic r repl (fst m) (snd m)
      end
  end.

Definition replace_all (ic : bool) (r : regex) (repl s : jsstring) : jsstring :=
  replace_loop (S (length s)) ic r repl None s.

(** [s.split(pattern)] without a limit: the sticky match is tried at each
    index [q]; [tok] holds, reversed, the code units from the end [p] of the
    last separator up to [q]. *)
Fixpoint split_loop (fuel : nat) (ic : bool) (r : regex)
         (tok : jsstring) (p : option N) (s : jsstring) : list jsstring :=
  match fuel with
  | O => [rev tok ++ s]
  | S fuel' =>
      match s with
      | [] => [rev tok]
      | c :: s' =>
          match run ic r p s with
          | [] => split_loop fuel' ic r (c :: tok) (Some c) s'
          | m :: _ =>
              if (length (snd m) =? length s) && is_nil tok
              then split_loop fuel' ic r (c :: tok) (Some c) s'
              else rev tok :: split_loop fuel' ic r [] (fst m) (snd m)
          end
      end
  end.

Definition split (ic : bool) (r : regex) (s : jsstring) : list jsstring :=
  match s with
  | [] => match run ic r None [] with [] => [[]] | _ :: _ => [] end
  | _ :: _ => split_loop (S (2 * length s)) ic r [] None s
  end.

(** [words.join(sep)] on an array of strings. *)
Fixpoint join (sep : jsstring) (l : list jsstring) : jsstring :=
  match l with
  | [] => []
  | [x] => x
  | x :: l' => x ++ sep ++ join sep l'
  end.

Fixpoint trim_start (s : jsstring) : jsstring :=
  match s with
  | c :: s' => if is_space c then trim_start s' else s
  | [] => []
  end.

(** [s.trim()] *)
Definition trim (s : jsstring) : jsstring :=
  rev (trim_start (rev (trim_start s))).

End Js.

(* ================================================================== *)
(** ** Dynamically typed values and exceptions *)
(* ================================================================== *)

Module Dyn.
Import Js.

(** A Number: the finite doubles are rationals; [JSON.parse] can also
    produce the infinities. *)
Inductive jsnum : Type :=
| NaN
| PosInf
| NegInf
| Fin (q : Q).

(** The values a feed can contain (what [JSON.parse] builds), and
    [undefined].  An object is the list of its own properties, the first
    binding of a key being the one a lookup sees. *)
Inductive value : Type :=
| VUndefined
| VNull
| VBool (b : bool)
| VNum (x : jsnum)
| VStr (s : jsstring)
| VArr (elems : list value)
| VObj (props : list (string * value)).

Inductive exn : Type :=
| TypeError                      (* raised by the language itself *)
| Error (message : jsstring).    (* new Error(message) *)

Inductive result (A : Type) : Type :=
| Ok (a : A)
| Throw (e : exn).
Arguments Ok {A} a.
Arguments Throw {A} e.

Definition bind {A B} (r : result A) (k : A -> result B) : result B :=
  match r with
  | Ok a => k a
  | Throw e => Throw e
  end.

Declare Scope js_scope.
Delimit Scope js_scope with js.
Notation "x <- c ;; k" := (bind c (fun x => k))
  (at level 61, c at next level, right associativity) : js_scope.

(** ToBoolean *)
Definition truthy (v : value) : bool :=
  match v with
  | VUndefined | VNull => false
  | VBool b => b
  | VNum NaN => false
  | VNum (Fin q) => negb (Qeq_bool q 0)
  | VNum _ => true
  | VStr s => negb (is_nil s)
  | VArr _ | VObj _ => true
  end.

Fixpoint lookup (k : string) (props : list (string * value)) : value :=
  match props with
  | [] => VUndefined
  | (k', v) :: props' => if String.eqb k k' then v else lookup k props'
  end.

(** [v.k] for a data property [k] (none of the keys the program reads is
    [length], an index or a method name): a TypeError on [undefined] and
    [null], the own property on an object, [undefined] elsewhere. *)
Definition getp (v : value) (k : string) : result value :=
  match v with
  | VUndefined | VNull => Throw TypeError
  | VObj props => Ok (lookup k props)
  | _ => Ok VUndefined
  end.

(** [entry.k = v] on an object: an existing property keeps its place. *)
Fixpoint setp (k : string) (v : value) (props : list (string * value))
  : list (string * value) :=
  match props with
  | [] => [(k, v)]
  | (k', v') :: props' =>
      if String.eqb k k' then (k, v) :: props' else (k', v') :: setp k v props'
  end.

Definition isArray (v : value) : bool :=
  match v with VArr _ => true | _ => false end.

Section Comparison.

(** [v > k] for an operand that is a string, an array or an object goes
    through ToPrimitive and the parse of a numeric literal (and throws when
    an object shadows [valueOf] and [toString] with data); that conversion
    is left to the platform. *)
Variable coerce_gt : value -> nat -> result bool.

(** [v > k] for a literal natural number [k]. *)
Definition gt (v : value) (k : nat) : result bool :=
  match v with
  | VUndefined => Ok false
  | VNull => Ok false
  | VBool b => Ok (k <? (if b then 1 else 0))
  | VNum NaN | VNum NegInf => Ok false
  | VNum PosInf => Ok true
  | VNum (Fin q) => Ok (negb (Qle_bool q (inject_Z (Z.of_nat k))))
  | _ => coerce_gt v k
  end.

(** [v.length > k] for a value [v] that is not [undefined] or [null]. *)
Definition length_gt (v : value) (k : nat) : result bool :=
  match v with
  | VStr s => Ok (k <? length s)
  | VArr l => Ok (k <? length l)
  | VObj props => gt (lookup "length" props) k
  | _ => Ok false
  end.

End Comparison.

End Dyn.

(* ================================================================== *)
(** ** What both versions of class [GDGParser] share

    The constructor and [addEntry] are the same text in [gdg_parser.js] and
    in the RSS version of the class. *)
(* ================================================================== *)

Module Common.
Import Js Dyn.
Local Open Scope js_scope.
Local Open Scope string_scope.
Local Open Scope list_scope.
Local Open Scope nat_scope.

(** The fields of [this]. *)
Record parser : Type := {
  processedEntries : list value;
  maxEntries : nat;
  entryCount : nat
}.

(** [new GDGParser()] *)
Definition new : parser :=
  {| processedEntries := []; maxEntries := 100; entryCount := 0 |}.

(** A method body: it runs on [this]; the fields keep what was written to
    them before an exception was thrown. *)
Definition M (A : Type) : Type := parser -> result A * parser.

Definition ret {A} (a : A) : M A := fun this => (Ok a, this).
Definition lift {A} (r : result A) : M A := fun this => (r, this).
Definition bindM {A B} (c : M A) (k : A -> M B) : M B :=
  fun this =>
    match c this with
    | (Ok a, this') => k a this'
    | (Throw e, this') => (Throw e, this')
    end.

Notation "x <~ c ;; k" := (bindM c (fun x => k))
  (at level 61, c at next level, right associativity) : js_scope.

(** [try { c } catch (error) { return h }] *)
Definition try_catch {A} (c : M A) (h : A) : M A :=
  fun this =>
    match c this with
    | (Ok a, this') => (Ok a, this')
    | (Throw _, this') => (Ok h, this')
    end.

(** [this.processedEntries.push(entry)] *)
Definition push (entry : value) (this : parser) : parser :=
  {| processedEntries := processedEntries this ++ [entry];
     maxEntries := maxEntries this;
     entryCount := entryCount this |}.

(** [x && x.trim().length > 0]: only a string has a [trim] method. *)
Definition nonblank (x : value) : result bool :=
  if truthy x
  then match x with
       | VStr s => Ok (0 <? length (trim s))
       | _ => Throw TypeError
       end
  else Ok false.

(** The callback of the filter in [addEntry]. *)
Definition keep (c : value) : result bool :=
  from <- getp c "from" ;;
  b <- nonblank from ;;
  if b then (to <- getp c "to" ;; nonblank to) else Ok false.

(** [changes.filter(keep)] *)
Fixpoint filter_changes (changes : list value) : result (list value) :=
  match changes with
  | [] => Ok []
  | c :: rest =>
      b <- keep c ;;
      rest' <- filter_changes rest ;;
      Ok (if b then c :: rest' else rest')
  end.

Section Platform.

(** The numeric conversion behind [>], see [Dyn.gt]. *)
Variable coerce_gt : value -> nat -> result bool.

(** What the two guards and the filter of [addEntry] compute: nothing to
    add, or the changes that are kept. *)
Definition kept_changes (entry : value) : result (option (list value)) :=
  changes <- getp entry "changes" ;;
  if truthy changes then
    b <- length_gt coerce_gt changes 0 ;;
    if b then
      match changes with
      | VArr l => kept <- filter_changes l ;; Ok (Some kept)
      | _ => Throw TypeError            (* no [filter] method *)
      end
    else Ok None
  else Ok None.

Definition addEntry (entry : value) : M unit :=
  fun this =>
    if length (processedEntries this) <? maxEntries this then
      match kept_changes entry with
      | Throw e => (Throw e, this)
      | Ok None => (Ok tt, this)
      | Ok (Some kept) =>
          (* entry.changes = kept *)
          let entry' := match entry with
                        | VObj props => VObj (setp "changes" (VArr kept) props)
                        | _ => entry
                        end in
          if 0 <? length kept then (Ok tt, push entry' this) else (Ok tt, this)
      end
    else (Ok tt, this).

End Platform.

End Common.

(* ================================================================== *)
(** ** [gdg_parser.js]: class [GDGParser] over a JSON article feed *)
(* ================================================================== *)

Module GDGParser.
Import Js Dyn Common.
Local Open Scope js_scope.
Local Open Scope string_scope.
Local Open Scope list_scope.
Local Open Scope nat_scope.

(** Words that should trigger redaction: each pattern with its [i] flag
    (the last one, for numbers, has none). *)
Definition sensitivePatterns : list (bool * regex) :=
  [ (true, bounded (oneof ["classified"; "confidential"; "secret"]));
    (true, bounded (oneof ["casualties"; "deaths"; "injured"; "wounded"]));
    (true, bounded (oneof ["corruption"; "fraud"; "misconduct"; "violation"]));
    (true, bounded (oneof ["investigation"; "probe"; "inquiry"]));
    (true, bounded (oneof ["failure"; "mistake"; "error"; "incident"]));
    (true, bounded (oneof ["protest"; "unrest"; "riot"; "demonstration"]));
    (true, bounded (oneof ["intelligence"; "surveillance"; "operation"]));
    (true, bounded (oneof ["weapon"; "military"; "defense"; "police"; "security"]));
    (true, bounded (oneof ["government"; "official"; "authority"]));
    (true, bounded (oneof ["city"; "town"; "village"; "district"; "region"]));
    (false, bounded (Seq (Plus Digit)
                      (Seq (Star (Seq (ch ",") (Seq Digit (Seq Digit Digit))))
                           (Opt (Seq (ch ".") (Plus Digit))))))
  ].

(** [sensitivePatterns.some(pattern => pattern.test(word))] *)
Definition sensitive (word : jsstring) : bool :=
  existsb (fun pattern => test (fst pattern) (snd pattern) word) sensitivePatterns.

Definition createRedactedVersion (text : jsstring) : jsstring :=
  if is_nil text then lit ""
  else
    let words := split false (Plus Space) text in
    let words :=
      map (fun word => if sensitive word then lit "[REDACTED]" else word) words in
    join (lit " ") words.

(** The call [this.createRedactedVersion(text)] on an argument of any type:
    only a string has a [split] method. *)
Definition createRedactedVersion_call (text : value) : result value :=
  if negb (truthy text) then Ok (VStr (lit ""))
  else match text with
       | VStr s => Ok (VStr (createRedactedVersion s))
       | _ => Throw TypeError
       end.

Definition getSampleData : value :=
  VObj [("entries", VArr [
    VObj [("id", VStr (lit "GDG-2018-08-27-001"));
          ("source", VStr (lit "White House Press Release"));
          ("changes", VArr [
            VObj [("from", VStr (lit "The administration acknowledges serious concerns about climate change impacts."));
                  ("to", VStr (lit "The administration is monitoring environmental conditions."))]])];
    VObj [("id", VStr (lit "GDG-2018-08-27-002"));
          ("source", VStr (lit "Department of Defense Memo"));
          ("changes", VArr [
            VObj [("from", VStr (lit "Military operations resulted in 24 civilian casualties in the region."));
                  ("to", VStr (lit "Military operations in the region are under review."))]])]])].

Section Platform.

(** [new URL(x).hostname], [None] when the constructor throws. *)
Variable hostname : value -> option jsstring.
(** The numeric conversion behind [>], see [Dyn.gt]. *)
Variable coerce_gt : value -> nat -> result bool.

Definition formatUrl (url : value) : value :=
  match hostname url with
  | Some h => VStr (replace false (Seq Bol (word "www.")) (lit "") h)
  | None => url
  end.

Definition extractSource (article : value) : result value :=
  source <- getp article "source" ;;
  if truthy source then Ok source else
  url <- getp article "url" ;;
  if truthy url then Ok (formatUrl url) else
  domain <- getp article "domain" ;;
  if truthy domain then Ok domain else
  Ok (VStr (lit "News Article")).

(** [x && x.length > 10] *)
Definition long_enough (x : value) : result bool :=
  if truthy x then length_gt coerce_gt x 10 else Ok false.

Definition extractTextContent (article : value) : result value :=
  title <- getp article "title" ;;
  b <- long_enough title ;;
  if b then Ok title else
  description <- getp article "description" ;;
  b <- long_enough description ;;
  if b then Ok description else
  content <- getp article "content" ;;
  b <- long_enough content ;;
  if b then Ok content else
  Ok VNull.

(** [{ from: originalText, to: redactedText, type: 'text' }] *)
Definition change (originalText redactedText : value) : value :=
  VObj [("from", originalText); ("to", redactedText); ("type", VStr (lit "text"))].

(** One iteration of the loop of [parseGDGData]. *)
Definition processArticle (article : value) : M unit :=
  source <~ lift (extractSource article) ;;
  originalText <~ lift (extractTextContent article) ;;
  if truthy originalText then
    redactedText <~ lift (createRedactedVersion_call originalText) ;;
    let changes := [] ++ [change originalText redactedText] in
    let formattedEntry := VObj [("source", source); ("changes", VArr changes)] in
    if 0 <? length changes then addEntry coerce_gt formattedEntry else ret tt
  else ret tt.

(** [for (i = 0; i < articles.length && processedEntries.length < maxEntries; i++)] *)
Fixpoint processArticles (articles : list value) : M unit :=
  fun this =>
    match articles with
    | [] => (Ok tt, this)
    | article :: rest =>
        if length (processedEntries this) <? maxEntries this then
          match processArticle article this with
          | (Ok _, this') => processArticles rest this'
          | (Throw e, this') => (Throw e, this')
          end
        else (Ok tt, this)
    end.

Definition entries_of (this : parser) : value :=
  VObj [("entries", VArr (processedEntries this))].

(** The [try] block of [parseGDGData]. *)
Definition parseGDGData_try (data : value) : M value :=
  if negb (truthy data) then ret getSampleData else
  articles <~ lift (getp data "articles") ;;
  if negb (truthy articles) || negb (isArray articles) then ret getSampleData
  else
    match articles with
    | VArr l =>
        _ <~ processArticles l ;;
        fun this => (Ok (entries_of this), this)
    | _ => ret getSampleData
    end.

Definition parseGDGData (data : value) : M value :=
  try_catch (parseGDGData_try data) getSampleData.

End Platform.

End GDGParser.

(* ================================================================== *)
(** ** The sketch's stand-alone [createRedactedVersion] *)
(* ================================================================== *)

Module Sketch.
Import Js.
Local Open Scope string_scope.
Local Open Scope list_scope.
Local Open Scope nat_scope.

(** The same eleven patterns, as the sketch writes them out again. *)
Definition sensitivePatterns : list (bool * regex) :=
  [ (true, bounded (oneof ["classified"; "confidential"; "secret"]));
    (true, bounded (oneof ["casualties"; "deaths"; "injured"; "wounded"]));
    (true, bounded (oneof ["corruption"; "fraud"; "misconduct"; "violation"]));
    (true, bounded (oneof ["investigation"; "probe"; "inquiry"]));
    (true, bounded (oneof ["failure"; "mistake"; "error"; "incident"]));
    (true, bounded (oneof ["protest"; "unrest"; "riot"; "demonstration"]));
    (true, bounded (oneof ["intelligence"; "surveillance"; "operation"]));
    (true, bounded (oneof ["weapon"; "military"; "defense"; "police"; "security"]));
    (true, bounded (oneof ["government"; "official"; "authority"]));
    (true, bounded (oneof ["city"; "town"; "village"; "district"; "region"]));
    (false, bounded (Seq (Plus Digit)
                      (Seq (Star (Seq (ch ",") (Seq Digit (Seq Digit Digit))))
                           (Opt (Seq (ch ".") (Plus Digit))))))
  ].

Definition sensitive (word : jsstring) : bool :=
  existsb (fun pattern => test (fst pattern) (snd pattern) word) sensitivePatterns.

Definition createRedactedVersion (text : jsstring) : jsstring :=
  if is_nil text then lit "Information redacted"
  else
    let words := split false (Plus Space) text in
    let words :=
      map (fun word => if sensitive word then lit "[REDACTED]" else word) words in
    join (lit " ") words.

End Sketch.

(* ================================================================== *)
(** ** The RSS version of class [GDGParser] *)
(* ================================================================== *)

Module GDGParserXml.
Import Js Dyn Common.
Local Open Scope js_scope.
Local Open Scope string_scope.
Local Open Scope list_scope.
Local Open Scope nat_scope.

(** What the loop reads from an [<item>] element: the [textContent] of its
    first [title], [description] and [link] descendant, where there is one. *)
Record item : Type := {
  title : option jsstring;
  description : option jsstring;
  link : option jsstring
}.

(** [x?.textContent || d] *)
Definition or_default (x : option jsstring) (d : jsstring) : jsstring :=
  match x with
  | Some s => if is_nil s then d else s
  | None => d
  end.

Definition cleanText (text : jsstring) : jsstring :=
  if is_nil text then lit ""
  else
    let cleaned := replace_all false (Chr 10) (lit " ") text in
    let cleaned := trim (replace_all false (Plus Space) (lit " ") cleaned) in
    if length cleaned <? 10 then cleaned ++ lit " [content redacted]" else cleaned.

Definition locations : list string :=
  ["Afghanistan"; "Iraq"; "Syria"; "Yemen"; "Libya"; "Ukraine"; "Russia"; "China"].

Definition wordReplacements : list (string * string) :=
  [ ("crisis", "situation");
    ("disaster", "event");
    ("catastrophic", "significant");
    ("failed", "did not meet expectations");
    ("corruption", "irregularities");
    ("violated", "may not have followed");
    ("illegal", "questionable");
    ("dangerous", "concerning") ].

(** [/\b\d+(\.\d+)?%\b/] *)
Definition percentage : regex :=
  Seq WordB (Seq (Plus Digit)
            (Seq (Opt (Seq (ch ".") (Plus Digit))) (Seq (ch "%") WordB))).

Definition createRedactedVersion (text : jsstring) : jsstring :=
  let redacted := replace_all false percentage (lit "a percentage") text in
  let redacted := replace_all false (bounded (Plus Digit)) (lit "several") redacted in
  let redacted :=
    fold_left (fun redacted location =>
                 replace_all true (bounded (word location)) (lit "the region") redacted)
              locations redacted in
  let redacted :=
    fold_left (fun redacted entry =>
                 replace_all true (bounded (word (fst entry))) (lit (snd entry)) redacted)
              wordReplacements redacted in
  redacted.

Definition generateOriginalText (link : jsstring) : jsstring :=
  lit "Original text for " ++ link.

Definition sample (id source from to : string) : value :=
  VObj [("id", VStr (lit id));
        ("source", VStr (lit source));
        ("changes", VArr [VObj [("from", VStr (lit from)); ("to", VStr (lit to))]])].

Definition getSampleData : value :=
  VObj [("entries", VArr [
    sample "GDG-2018-08-27-001" "White House Press Release"
      "The administration acknowledges serious concerns about climate change impacts."
      "The administration is monitoring environmental conditions.";
    sample "GDG-2018-08-27-002" "Department of Defense Memo"
      "Military operations resulted in 24 civilian casualties in the region."
      "Military operations in the region are under review.";
    sample "GDG-2018-08-27-003" "CDC Health Advisory"
      "The outbreak has infected over 1,000 people across 12 states."
      "Health officials are monitoring cases of the illness.";
    sample "GDG-2018-08-27-004" "EPA Environmental Assessment"
      "Chemical levels in the water exceed federal safety standards by 300%."
      "Water quality testing continues in affected areas.";
    sample "GDG-2018-08-27-005" "Department of Justice Statement"
      "The investigation found evidence of systematic corruption at multiple levels."
      "The investigation is ongoing and no conclusions have been reached.";
    sample "GDG-2018-08-27-006" "Federal Reserve Economic Outlook"
      "Economic indicators suggest a significant recession is likely within 6 months."
      "Economic conditions are being closely monitored.";
    sample "GDG-2018-08-27-007" "Department of Education Report"
      "Test scores show a 15% decline in student performance nationwide."
      "Educational assessment methods are being evaluated.";
    sample "GDG-2018-08-27-008" "FDA Drug Safety Communication"
      "The medication has been linked to 37 deaths and over 200 severe adverse reactions."
      "The medication's safety profile is under continued evaluation.";
    sample "GDG-2018-08-27-009" "Department of Homeland Security Alert"
      "Critical infrastructure vulnerabilities have been exploited by foreign actors."
      "Infrastructure security protocols are being updated.";
    sample "GDG-2018-08-27-010" "Veterans Affairs Internal Memo"
      "Wait times for critical care have increased to an average of 47 days."
      "Patient care scheduling procedures are being optimized." ])].

Section Platform.

(** [new URL(x).hostname], [None] when the constructor throws. *)
Variable hostname : value -> option jsstring.
(** The numeric conversion behind [>], see [Dyn.gt]. *)
Variable coerce_gt : value -> nat -> result bool.
(** [new DOMParser().parseFromString(rawData, "text/xml")
      .getElementsByTagName('item')], an exception where the platform
    raises one (it has no [DOMParser], say). *)
Variable parseItems : value -> result (list item).

Definition extractDomainFromUrl (url : jsstring) : jsstring :=
  match hostname (VStr url) with
  | Some h => replace false (Seq Bol (word "www.")) (lit "") h
  | None => lit ""
  end.

(** [/\s*\-\s*|\s*:\s*/] *)
Definition separators : regex :=
  Alt (Seq (Star Space) (Seq (ch "-") (Star Space)))
      (Seq (Star Space) (Seq (ch ":") (Star Space))).

Definition from_to (from to : jsstring) : value :=
  VObj [("from", VStr from); ("to", VStr to)].

(** One iteration of the loop of [parseGDGData]. *)
Definition processItem (it : item) : M unit :=
  let title := or_default (title it) (lit "Government Document") in
  let description := or_default (description it) (lit "") in
  let link := or_default (link it) (lit "") in
  let source :=
    let d := extractDomainFromUrl link in if is_nil d then title else d in
  let changes := [] in
  let changes :=
    if negb (is_nil description) then
      let parts := split false separators description in
      if 2 <=? length parts
      then changes ++ [from_to (cleanText (hd [] parts))
                               (cleanText (join (lit " ") (tl parts)))]
      else changes
    else changes in
  let changes :=
    if (length changes =? 0) && negb (is_nil link) then
      let originalText := generateOriginalText link in
      let redactedText := createRedactedVersion originalText in
      changes ++ [from_to originalText redactedText]
    else changes in
  let entry := VObj [("source", VStr source); ("changes", VArr changes)] in
  if 0 <? length changes then addEntry coerce_gt entry else ret tt.

(** [for (i = 0; i < items.length && processedEntries.length < maxEntries; i++)] *)
Fixpoint processItems (items : list item) : M unit :=
  fun this =>
    match items with
    | [] => (Ok tt, this)
    | it :: rest =>
        if length (processedEntries this) <? maxEntries this then
          match processItem it this with
          | (Ok _, this') => processItems rest this'
          | (Throw e, this') => (Throw e, this')
          end
        else (Ok tt, this)
    end.

Definition entries_of (this : parser) : value :=
  VObj [("entries", VArr (processedEntries this))].

(** The [try] block of [parseGDGData]. *)
Definition parseGDGData_try (rawData : value) : M value :=
  items <~ lift (parseItems rawData) ;;
  _ <~ processItems items ;;
  fun this =>
    if length (processedEntries this) <? 10
    then (Ok getSampleData, this)
    else (Ok (entries_of this), this).

Definition parseGDGData (rawData : value) : M value :=
  try_catch (parseGDGData_try rawData) getSampleData.

End Platform.

End GDGParserXml.

(* ================================================================== *)
(** ** The data route: the Express server and the serverless function *)
(* ================================================================== *)

Module Route.
Import Js Dyn.
Local Open Scope string_scope.
Local Open Scope list_scope.
Local Open Scope nat_scope.

(** An awaited platform call: it yields a value or throws an [Error] with a
    message. *)
Inductive attempt (A : Type) : Type :=
| Done (a : A)
| Failed (message : jsstring).
Arguments Done {A} a.
Arguments Failed {A} message.

Definition andThen {A B} (c : attempt A) (k : A -> attempt B) : attempt B :=
  match c with
  | Done a => k a
  | Failed m => Failed m
  end.

(** [try { c } catch (error) { throw new Error(m) }] *)
Definition rethrow {A} (c : attempt A) (m : jsstring) : attempt A :=
  match c with
  | Done a => Done a
  | Failed _ => Failed m
  end.

(** The decimal digits of a status code in a template literal. *)
Definition decimal (n : nat) : jsstring :=
  lit (NilZero.string_of_uint (Nat.to_uint n)).

End Route.

Module Server.
Import Js Dyn Route.
Local Open Scope string_scope.
Local Open Scope list_scope.
Local Open Scope nat_scope.

(** What [res] was told to send. *)
Record response : Type := {
  status : nat;
  body : value           (* the argument of [res.json] *)
}.

Section Platform.

(** [JSON.parse] *)
Variable JSON_parse : jsstring -> attempt value.

(** [app.get('/api/gdelt', ...)], given how reading
    [data/sample-data.json] went. *)
Definition get_api_gdelt (readFile : attempt jsstring) : attempt response :=
  match andThen readFile (fun data =>
        andThen (JSON_parse data) (fun parsedData =>
        Done parsedData)) with
  | Done parsedData => Done {| status := 200; body := parsedData |}
  | Failed message =>
      Done {| status := 500;
              body := VObj [("error", VStr (lit "Failed to load data"));
                            ("details", VStr message)] |}
  end.

End Platform.

End Server.

Module Netlify.
Import Js Dyn Route.
Local Open Scope string_scope.
Local Open Scope list_scope.
Local Open Scope nat_scope.

(** The [Response] of [fetch], with how reading its body goes. *)
Record fetched : Type := {
  ok : bool;
  status : nat;
  statusText : jsstring;
  arrayBuffer : attempt (list N)
}.

(** What the function returns to the platform. *)
Record reply : Type := {
  statusCode : nat;
  headers : list (string * string);
  body : jsstring
}.

Section Platform.

(** [pako.inflate(compressed, { to: 'string' })] *)
Variable inflate : list N -> attempt jsstring.
(** [JSON.parse] and [JSON.stringify] *)
Variable JSON_parse : jsstring -> attempt value.
Variable JSON_stringify : value -> jsstring.

(** The [try] block of [exports.handler], given how the [fetch] went. *)
Definition handler_try (response : attempt fetched) : attempt reply :=
  andThen response (fun response =>
  andThen (if negb (ok response)
           then Failed (lit "Failed to fetch GDELT data: " ++ decimal (status response)
                        ++ lit " " ++ statusText response)
           else Done tt) (fun _ =>
  andThen (arrayBuffer response) (fun compressed =>
  andThen (rethrow (inflate compressed) (lit "Failed to decompress GDELT data"))
          (fun decompressed =>
  andThen (rethrow (JSON_parse decompressed) (lit "Failed to parse GDELT data"))
          (fun data =>
  Done {| statusCode := 200;
          headers := [("Content-Type", "application/json");
                      ("Access-Control-Allow-Origin", "*");
                      ("Access-Control-Allow-Headers", "Content-Type");
                      ("Access-Control-Allow-Methods", "GET")];
          body := JSON_stringify data |}))))).

Definition handler (response : attempt fetched) : attempt reply :=
  match handler_try response with
  | Done r => Done r
  | Failed message =>
      Done {| statusCode := 500;
              headers := [("Content-Type", "application/json");
                          ("Access-Control-Allow-Origin", "*")];
              body := JSON_stringify (VObj [("error", VStr message)]) |}
  end.

End Platform.

End Netlify.

(* ================================================================== *)
(** ** The properties the programs are checked against *)
(* ================================================================== *)

Module Spec.
Import Js Dyn Common.
Local Open Scope string_scope.
Local Open Scope list_scope.
Local Open Scope nat_scope.

(** *** Splitting on whitespace runs

    [tokens inws s] cuts [s] at its maximal runs of whitespace; [inws] tells
    that the code unit before [s] was whitespace.  A run at the start or at
    the end of the text leaves an empty token there. *)
Fixpoint tokens (inws : bool) (s : jsstring) : list jsstring :=
  match s with
  | [] => [[]]
  | c :: s' =>
      if is_space c
      then if inws then tokens true s' else [] :: tokens true s'
      else match tokens false s' with
           | w :: ws => (c :: w) :: ws
           | [] => [[c]]
           end
  end.

Definition fields (s : jsstring) : list jsstring := tokens false s.

(** The text made of a first token and then separators and tokens in turn. *)
Fixpoint glue (t0 : jsstring) (rest : list (jsstring * jsstring)) : jsstring :=
  match rest with
  | [] => t0
  | (sep, t) :: rest' => t0 ++ sep ++ glue t rest'
  end.

(** The whitespace a text starts with. *)
Fixpoint take_blank (s : jsstring) : jsstring :=
  match s with
  | c :: s' => if is_space c then c :: take_blank s' else []
  | [] => []
  end.

(** A separator: a non-empty run of whitespace. *)
Definition blank_run (w : jsstring) : Prop :=
  w <> [] /\ forallb is_space w = true.

(** A token is replaced by the placeholder exactly when one of the
    sensitive patterns matches it. *)
Definition redactToken (w : jsstring) : jsstring :=
  if existsb (fun pattern => test (fst pattern) (snd pattern) w)
             GDGParser.sensitivePatterns
  then lit "[REDACTED]" else w.

Definition placeholderRedaction (s : jsstring) : jsstring :=
  join (lit " ") (map redactToken (fields s)).

(** The end of the whitespace run at a position. *)
Fixpoint skip (p : option N) (s : jsstring) : pos :=
  match s with
  | c :: s' => if is_space c then skip (Some c) s' else (p, s)
  | [] => (p, [])
  end.

(** Put a prefix in front of the first token. *)
Definition cons_hd (pre : jsstring) (l : list jsstring) : list jsstring :=
  match l with
  | w :: ws => (pre ++ w) :: ws
  | [] => [pre]
  end.

Definition nospace (w : jsstring) : Prop :=
  forallb (fun c => negb (is_space c)) w = true.

(** The tokens after the first: none holds whitespace, and only the last
    may be empty. *)
Fixpoint inner_ok (l : list jsstring) : Prop :=
  match l with
  | [] => True
  | w :: l' =>
      nospace w /\ match l' with [] => True | _ :: _ => w <> [] /\ inner_ok l' end
  end.

Definition normal (l : list jsstring) : Prop :=
  match l with
  | [] => False
  | w :: l' => nospace w /\ inner_ok l'
  end.

(** *** Removing a leading [www.] *)
Fixpoint drop_prefix (pre h : jsstring) : option jsstring :=
  match pre, h with
  | [], _ => Some h
  | a :: pre', b :: h' => if (a =? b)%N then drop_prefix pre' h' else None
  | _ :: _, [] => None
  end.

Definition strip_www (h : jsstring) : jsstring :=
  match drop_prefix (lit "www.") h with
  | Some rest => rest
  | None => h
  end.

(** *** The source of an article: the fallback chain *)
Definition sourceChain (hostname : value -> option jsstring)
           (props : list (string * value)) : value :=
  let source := lookup "source" props in
  let url := lookup "url" props in
  let domain := lookup "domain" props in
  if truthy source then source
  else if truthy url then
         match hostname url with
         | Some h => VStr (strip_www h)
         | None => url
         end
  else if truthy domain then domain
  else VStr (lit "News Article").

(** *** Entries *)

(** The [entries] array of a returned object. *)
Definition entries (v : value) : list value :=
  match v with
  | VObj props => match lookup "entries" props with VArr l => l | _ => [] end
  | _ => []
  end.

Definition change_ok (c : value) : bool :=
  match c with
  | VObj props =>
      match lookup "from" props, lookup "to" props with
      | VStr from, VStr to => negb (is_nil (trim from)) && negb (is_nil (trim to))
      | _, _ => false
      end
  | _ => false
  end.

(** An entry as [addEntry] stores it. *)
Definition stored_ok (entry : value) : Prop :=
  exists props changes,
    entry = VObj props /\ lookup "changes" props = VArr changes /\
    changes <> [] /\ forallb change_ok changes = true.

(** The parser's own bound. *)
Definition within_bound (this : parser) : Prop :=
  maxEntries this = 100 /\ length (processedEntries this) <= 100.

Definition is_string (v : value) : bool :=
  match v with VStr _ => true | _ => false end.

(** A change [{ from: string, to: string }]. *)
Definition change_shape (c : value) : bool :=
  match c with
  | VObj props => is_string (lookup "from" props) && is_string (lookup "to" props)
  | _ => false
  end.

(** The normalized shape [{ source: string, changes: [{from, to}] }]. *)
Definition entry_shape (entry : value) : bool :=
  match entry with
  | VObj props =>
      is_string (lookup "source" props) &&
      match lookup "changes" props with
      | VArr changes => forallb change_shape changes
      | _ => false
      end
  | _ => false
  end.

(** The articles of a feed document: [None] for a document that is falsy
    ([null], [undefined], ...) or has no [articles] array. *)
Definition articles_of (data : value) : option (list value) :=
  if truthy data then
    match data with
    | VObj props => match lookup "articles" props with VArr l => Some l | _ => None end
    | _ => None
    end
  else None.

(** An entry made from an article: its source and one change, from the
    article's text to the redacted text. *)
Definition derived (hostname : value -> option jsstring)
           (coerce_gt : value -> nat -> result bool)
           (article entry : value) : Prop :=
  exists source text,
    GDGParser.extractSource hostname article = Ok source /\
    GDGParser.extractTextContent coerce_gt article = Ok (VStr text) /\
    entry = VObj [("source", source);
                  ("changes", VArr [GDGParser.change (VStr text)
                                      (VStr (GDGParser.createRedactedVersion text))])].

(** *** Percentages

    [percent_then_word s]: somewhere in [s] a [%] is directly followed by a
    letter, a digit or an underscore. *)
Fixpoint percent_then_word (s : jsstring) : bool :=
  match s with
  | [] => false
  | c :: rest =>
      ((c =? 37)%N && word_after rest) || percent_then_word rest
  end.

End Spec.

(* ================================================================== *)
(** ** What the RSS loop makes of an item, and two small feeds *)
(* ================================================================== *)

Module FeedSpec.
Import Js Dyn Common.
Local Open Scope string_scope.
Local Open Scope list_scope.
Local Open Scope nat_scope.

Section Platform.
Variable hostname : value -> option jsstring.

(** The source of an item: the host of its link, and its title where the
    link gives none. *)
Definition item_source (it : GDGParserXml.item) : jsstring :=
  let d := GDGParserXml.extractDomainFromUrl hostname
             (GDGParserXml.or_default (GDGParserXml.link it) (lit "")) in
  if is_nil d
  then GDGParserXml.or_default (GDGParserXml.title it) (lit "Government Document")
  else d.

(** The entry derived from an item: its source and one change, between the
    two sides of its description where a separator splits it, and else from
    a text made of its link to the redaction of that text.  An item without
    such a description and without a link gives none. *)
Definition item_entry (it : GDGParserXml.item) : option value :=
  let description := GDGParserXml.or_default (GDGParserXml.description it) (lit "") in
  let link := GDGParserXml.or_default (GDGParserXml.link it) (lit "") in
  let parts := split false GDGParserXml.separators description in
  let entry c := VObj [("source", VStr (item_source it)); ("changes", VArr [c])] in
  if negb (is_nil description) && (2 <=? length parts) then
    Some (entry (GDGParserXml.from_to
                   (GDGParserXml.cleanText (hd [] parts))
                   (GDGParserXml.cleanText (join (lit " ") (tl parts)))))
  else if negb (is_nil link) then
    Some (entry (GDGParserXml.from_to
                   (GDGParserXml.generateOriginalText link)
                   (GDGParserXml.createRedactedVersion
                      (GDGParserXml.generateOriginalText link))))
  else None.

(** [entry] is derived from one of [items]. *)
Definition derived_from (items : list GDGParserXml.item) (entry : value) : Prop :=
  exists it, In it items /\ item_entry it = Some entry.

End Platform.

End FeedSpec.

Module Example.
Import Js Dyn Common.
Local Open Scope string_scope.
Local Open Scope list_scope.
Local Open Scope nat_scope.

(** A feed of one item, with a link. *)
Definition budget_xml : jsstring :=
  lit "<rss><channel><item><title>Budget report</title><description>Spending rose - officials say</description><link>https://www.example.org/budget</link></item></channel></rss>".

Definition budget_items : list GDGParserXml.item :=
  [ {| GDGParserXml.title := Some (lit "Budget report");
       GDGParserXml.description := Some (lit "Spending rose - officials say");
       GDGParserXml.link := Some (lit "https://www.example.org/budget") |} ].

(** A feed of six items without links. *)
Definition report (n : string) : GDGParserXml.item :=
  {| GDGParserXml.title := Some (lit "Report " ++ lit n);
     GDGParserXml.description := Some (lit "Findings of part " ++ lit n
                                       ++ lit " - withheld by the office");
     GDGParserXml.link := None |}.

Definition report_xml (n : string) : jsstring :=
  lit "<item><title>Report " ++ lit n ++ lit "</title><description>Findings of part "
  ++ lit n ++ lit " - withheld by the office</description></item>".

Definition numbers : list string := ["1"; "2"; "3"; "4"; "5"; "6"].

Definition reports_xml : jsstring :=
  lit "<rss><channel>" ++ concat (map report_xml numbers) ++ lit "</channel></rss>".

Definition reports_items : list GDGParserXml.item := map report numbers.

(** What the platform answers where the two feeds ask it: the items of each
    document, with the text of their [title], [description] and [link]
    elements; the host of the one link, and an exception from [new URL] for
    the empty address of an item without a link. *)
Definition parseItems (rawData : value) : result (list GDGParserXml.item) :=
  match rawData with
  | VStr s =>
      if str_eqb s budget_xml then Ok budget_items
      else if str_eqb s reports_xml then Ok reports_items
      else Ok []
  | _ => Ok []
  end.

Definition hostname (url : value) : option jsstring :=
  match url with
  | VStr s =>
      if str_eqb s (lit "https://www.example.org/budget")
      then Some (lit "www.example.org")
      else None
  | _ => None
  end.

(** No comparison of the two feeds needs a numeric conversion. *)
Definition coerce_gt (v : value) (k : nat) : result bool := Throw TypeError.

End Example.

(* ================================================================== *)
(** ** More of the program: letter case and numbers, [cleanText], the other
       methods of the RSS [GDGParser], the address of the download script *)
(* ================================================================== *)

Module CaseDefs.
Import Js.
Local Open Scope list_scope.
Local Open Scope nat_scope.

(** Canonicalize over a position of the matcher. *)
Definition canon_pos (q : pos) : pos :=
  (option_map canon (fst q), map canon (snd q)).

Definition is_letter (c : N) : bool := is_upper c || is_lower c.

(** A pattern none of whose literal characters is a letter. *)
Fixpoint letter_free (r : regex) : bool :=
  match r with
  | Chr c => negb (is_letter c)
  | Seq a b | Alt a b => letter_free a && letter_free b
  | Star a => letter_free a
  | _ => true
  end.

(** A pattern with the [i] flag, or without letters to tell apart. *)
Definition case_blind (pattern : bool * regex) : bool :=
  fst pattern || letter_free (snd pattern).

(** The last of the sensitive patterns: [\b(?:\d+(?:,\d{3})*(?:\.\d+)?)\b]. *)
Definition numberPattern : regex :=
  bounded (Seq (Plus Digit)
             (Seq (Star (Seq (ch ",") (Seq Digit (Seq Digit Digit))))
                  (Opt (Seq (ch ".") (Plus Digit))))).

End CaseDefs.

Unset Implicit Arguments.

Module CleanDefs.
Import Js.
Local Open Scope list_scope.
Local Open Scope nat_scope.

(** The first code unit of a class, with what is before and after it. *)
Fixpoint cut (f : N -> bool) (s : jsstring) : option (jsstring * N * jsstring) :=
  match s with
  | [] => None
  | c :: s' =>
      if f c then Some ([], c, s')
      else match cut f s' with
           | Some (pre, x, rest) => Some (c :: pre, x, rest)
           | None => None
           end
  end.

(** Line feeds turned into spaces. *)
Definition unbreak (s : jsstring) : jsstring :=
  map (fun c => if (10 =? c)%N then 32%N else c) s.

(** Every run of whitespace turned into one space; [inws] tells that the
    code unit before was whitespace already. *)
Fixpoint collapse (inws : bool) (s : jsstring) : jsstring :=
  match s with
  | [] => []
  | c :: s' =>
      if is_space c
      then if inws then collapse true s' else 32%N :: collapse true s'
      else c :: collapse false s'
  end.

(** A tidy text: its only whitespace is U+0020, never twice in a row;
    [prev] tells that the code unit before was whitespace. *)
Fixpoint tidyb (prev : bool) (s : jsstring) : bool :=
  match s with
  | [] => true
  | c :: s' =>
      if is_space c then (c =? 32)%N && negb prev && tidyb true s'
      else tidyb false s'
  end.

(** Whether a text ends in whitespace ([prev] for the empty text). *)
Definition last_ws (prev : bool) (s : jsstring) : bool :=
  fold_left (fun _ c => is_space c) s prev.

Definition first_ws (s : jsstring) : bool :=
  match s with c :: _ => is_space c | [] => false end.

(** The text [cleanText] has before it looks at the length. *)
Definition cleaned (text : jsstring) : jsstring :=
  trim (collapse false (unbreak text)).

(** A text that holds something other than whitespace. *)
Definition has_ink (s : jsstring) : Prop :=
  exists c, In c s /\ is_space c = false.

End CleanDefs.

Module GDGParserXmlMore.
Import Js Dyn Common.
Local Open Scope js_scope.
Local Open Scope string_scope.
Local Open Scope list_scope.
Local Open Scope nat_scope.

Section Platform.

(** [new URL(x).hostname], [None] when the constructor throws. *)
Variable hostname : value -> option jsstring.
(** The numeric conversion behind [>], see [Dyn.gt]. *)
Variable coerce_gt : value -> nat -> result bool.

Definition formatUrl (url : value) : value :=
  match hostname url with
  | Some h => VStr (replace false (Seq Bol (word "www.")) (lit "") h)
  | None => url
  end.

Definition extractSource (entry : value) : result value :=
  source <- getp entry "source" ;;
  if truthy source then Ok source else
  page_url <- getp entry "page_url" ;;
  if truthy page_url then Ok (formatUrl page_url) else
  url <- getp entry "url" ;;
  if truthy url then Ok (formatUrl url) else
  organization <- getp entry "organization" ;;
  if truthy organization then Ok organization else
  department <- getp entry "department" ;;
  if truthy department then Ok department else
  Ok (VStr (lit "Government Document")).

Definition textFields : list string :=
  ["content"; "text"; "body"; "description"; "summary"; "title"].

(** The loop of [extractTextContent] over the fields that are left. *)
Fixpoint tryFields (entry : value) (fields : list string) : M unit :=
  match fields with
  | [] => ret tt
  | field :: rest =>
      v <~ lift (getp entry field) ;;
      match v with
      | VStr originalText =>
          (* entry[field] && typeof entry[field] === 'string' && entry[field].length > 20 *)
          if negb (is_nil originalText) && (20 <? length originalText) then
            let redactedText := GDGParserXml.createRedactedVersion originalText in
            if negb (str_eqb originalText redactedText) then
              source <~ lift (extractSource entry) ;;
              addEntry coerce_gt
                (VObj [("source", source);
                       ("changes", VArr [GDGParserXml.from_to originalText redactedText])])
              (* return: only one field per entry *)
            else tryFields entry rest
          else tryFields entry rest
      | _ => tryFields entry rest
      end
  end.

Definition extractTextContent (entry : value) : M unit :=
  tryFields entry textFields.

End Platform.

End GDGParserXmlMore.

Module Download.
Import Js Route.
Local Open Scope string_scope.
Local Open Scope list_scope.
Local Open Scope nat_scope.

(** What the script reads from [new Date()]: the UTC year, month (from 0),
    day of the month, hours and minutes. *)
Record utc : Type := {
  getUTCFullYear : nat;
  getUTCMonth : nat;
  getUTCDate : nat;
  getUTCHours : nat;
  getUTCMinutes : nat
}.

(** [s.padStart(n, '0')] *)
Definition padStart (n : nat) (s : jsstring) : jsstring :=
  repeat 48%N (n - length s) ++ s.

(** [String(k)] for a natural number *)
Definition String_ (k : nat) : jsstring := decimal k.

Definition timestamp (now : utc) : jsstring :=
  let year := String_ (getUTCFullYear now) in
  let month := padStart 2 (String_ (getUTCMonth now + 1)) in
  let day := padStart 2 (String_ (getUTCDate now)) in
  let hour := padStart 2 (String_ (getUTCHours now)) in
  let minute := padStart 2 (String_ (getUTCMinutes now / 15 * 15)) in
  let second := lit "00" in
  year ++ month ++ day ++ hour ++ minute ++ second.

Definition gdeltUrl (now : utc) : jsstring :=
  lit "https://data.gdeltproject.org/gdeltv3/gdg/" ++ timestamp now
  ++ lit ".gdg.v3.json.gz".

(** A month, a day, an hour and a minute as [Date] gives them. *)
Definition in_range (now : utc) : Prop :=
  getUTCMonth now < 12 /\ 1 <= getUTCDate now <= 31 /\
  getUTCHours now < 24 /\ getUTCMinutes now < 60.

(** A number below 100 written with two digits. *)
Definition two_digits (k : nat) : jsstring :=
  [N.of_nat (48 + k / 10); N.of_nat (48 + k mod 10)].

End Download.

Module MoreDefs.
Import Js Dyn Common.
Local Open Scope string_scope.
Local Open Scope list_scope.
Local Open Scope nat_scope.


(** A value that is not an array or an object. *)
Definition plain (v : value) : bool :=
  match v with
  | VArr _ | VObj _ => false
  | _ => true
  end.

(** An article object whose three text fields are plain values (strings,
    numbers, booleans, [null]) or missing. *)
Definition plain_article (a : value) : bool :=
  match a with
  | VObj props =>
      plain (lookup "title" props) && plain (lookup "description" props)
      && plain (lookup "content" props)
  | _ => false
  end.


End MoreDefs.

Module GuardDefs.
Import Js CaseDefs.
Local Open Scope list_scope.
Local Open Scope nat_scope.

(** An ASCII letter or digit. *)
Definition alnum (c : N) : bool := is_digit c || is_letter c.

(** A text without ASCII letters and digits. *)
Definition inert (text : jsstring) : bool :=
  forallb (fun c => negb (alnum c)) text.

(** A pattern whose every match begins with an ASCII letter or digit. *)
Fixpoint starts_alnum (r : regex) : bool :=
  match r with
  | Chr c => alnum c
  | Digit => true
  | Seq a b =>
      match a with
      | WordB | Bol => starts_alnum b
      | _ => starts_alnum a
      end
  | Alt a b => starts_alnum a && starts_alnum b
  | _ => false
  end.

End GuardDefs.

Set Implicit Arguments.

(* ================================================================== *)
(** * Facts about the library functions *)
(* ================================================================== *)

Module JsFacts.
Import Js Spec.
Local Open Scope list_scope.
Local Open Scope nat_scope.

Lemma snd_skip p s : snd (skip p s) = trim_start s.
Proof.
  revert p. induction s as [|c s IH]; intros p; simpl; [reflexivity|].
  destruct (is_space c); [apply IH | reflexivity].
Qed.

Lemma length_trim_start s : length (trim_start s) <= length s.
Proof.
  induction s as [|c s IH]; simpl; [lia|].
  destruct (is_space c); simpl; lia.
Qed.

(** A greedy [\s*] first reports the end of the whole whitespace run. *)
Lemma star_space_head step s :
  (forall p s, step p s = one is_space s) ->
  forall fuel p, length s < fuel ->
    exists tl, star_loop step fuel p s = skip p s :: tl.
Proof.
  intros Hstep.
  induction s as [|c s IH]; intros fuel p Hf.
  - destruct fuel; [lia|]. simpl. rewrite Hstep. simpl. eauto.
  - destruct fuel as [|fuel]; [simpl in Hf; lia|].
    cbn [star_loop skip]. rewrite Hstep. cbn [one].
    destruct (is_space c) eqn:Hc.
    + destruct (IH fuel (Some c)) as [tl Htl]; [simpl in Hf; lia|].
      cbn [flat_map fst snd].
      replace (length s <? length (c :: s)) with true
        by (symmetry; apply Nat.ltb_lt; simpl; lia).
      rewrite Htl. simpl. eauto.
    + simpl. eauto.
Qed.

Lemma run_spaces_nil ic p : run ic (Plus Space) p [] = [].
Proof. reflexivity. Qed.

Lemma run_spaces_other ic p c s :
  is_space c = false -> run ic (Plus Space) p (c :: s) = [].
Proof. intros H. cbn. rewrite H. reflexivity. Qed.

Lemma run_spaces_head ic p c s :
  is_space c = true ->
  exists tl, run ic (Plus Space) p (c :: s) = skip (Some c) s :: tl.
Proof.
  intros H. unfold Plus. cbn [run one]. rewrite H. cbn [flat_map fst snd].
  destruct (star_space_head (run ic Space) s (fun _ _ => eq_refl)
              (fuel := S (length s)) (Some c)) as [tl Htl]; [lia|].
  cbn [run]. cbn [run] in Htl. rewrite Htl. rewrite app_nil_r. eauto.
Qed.

Lemma tokens_nonempty inws s : tokens inws s <> [].
Proof.
  revert inws. induction s as [|c s IH]; intros inws; simpl; [discriminate|].
  destruct (is_space c).
  - destruct inws; [apply IH | discriminate].
  - destruct (tokens false s); discriminate.
Qed.

Lemma tokens_true s : tokens true s = tokens false (trim_start s).
Proof.
  induction s as [|c s IH]; simpl; [reflexivity|].
  destruct (is_space c) eqn:Hc; [exact IH|].
  simpl. rewrite Hc. reflexivity.
Qed.

Lemma cons_hd_nil l : l <> [] -> cons_hd [] l = l.
Proof. destruct l; [congruence | reflexivity]. Qed.

(** The loop of [split] on [/\s+/] cuts at the whitespace runs. *)
Lemma split_loop_spaces ic :
  forall fuel s tok p, length s < fuel ->
    split_loop fuel ic (Plus Space) tok p s = cons_hd (rev tok) (tokens false s).
Proof.
  induction fuel as [|fuel IH]; intros s tok p Hf; [lia|].
  destruct s as [|c s].
  - simpl. rewrite app_nil_r. reflexivity.
  - cbn [split_loop]. destruct (is_space c) eqn:Hc.
    + destruct (@run_spaces_head ic p c s Hc) as [tl Htl]. rewrite Htl.
      pose proof (length_trim_start s) as Hl.
      rewrite snd_skip.
      replace (length (trim_start s) =? length (c :: s)) with false
        by (symmetry; apply Nat.eqb_neq; simpl; lia).
      cbn [andb]. rewrite IH by (simpl in Hf; lia).
      cbn [rev]. rewrite cons_hd_nil by apply tokens_nonempty.
      cbn [tokens]. rewrite Hc. cbn [cons_hd]. rewrite app_nil_r.
      rewrite tokens_true. reflexivity.
    + rewrite (@run_spaces_other ic p c s Hc).
      rewrite IH by (simpl in Hf; lia).
      cbn [tokens]. rewrite Hc.
      destruct (tokens false s) as [|w ws] eqn:Ht.
      * exfalso. exact (@tokens_nonempty _ _ Ht).
      * cbn [cons_hd rev]. rewrite <- app_assoc. reflexivity.
Qed.

(** [s.split(/\s+/)] is the list of the whitespace-separated tokens. *)
Lemma split_spaces s : split false (Plus Space) s = fields s.
Proof.
  destruct s as [|c s]; [reflexivity|].
  unfold split, fields. rewrite split_loop_spaces by (simpl; lia).
  apply cons_hd_nil, tokens_nonempty.
Qed.

(** The matcher on a few texts, as the language evaluates them. *)
Example split_spaces_example :
  split false (Plus Space) (lit "  over 1,000   people ")
  = [lit ""; lit "over"; lit "1,000"; lit "people"; lit ""].
Proof. vm_compute. reflexivity. Qed.

Example replace_all_empty_matches :
  replace_all false (Star Digit) (lit "-") (lit "a12b") = lit "-a--b-".
Proof. vm_compute. reflexivity. Qed.

Example split_empty_matches :
  split false (Star Space) (lit "ab  c") = [lit "a"; lit "b"; lit "c"].
Proof. vm_compute. reflexivity. Qed.

Example word_boundary_example :
  test true (bounded (word "region")) (lit "Region.") = true /\
  test true (bounded (word "operation")) (lit "operations") = false /\
  test false (bounded (Plus Digit)) (lit "x12") = false /\
  test false (bounded (Plus Digit)) (lit "300%.") = true.
Proof. repeat split; vm_compute; reflexivity. Qed.

End JsFacts.

(* ================================================================== *)
(** * The placeholder redaction *)
(* ================================================================== *)

Module RedactionFacts.
Import Js Spec JsFacts.
Local Open Scope list_scope.
Local Open Scope nat_scope.

Lemma nospace_cons c w : nospace (c :: w) <-> is_space c = false /\ nospace w.
Proof.
  unfold nospace. simpl. rewrite andb_true_iff, negb_true_iff. tauto.
Qed.

Lemma join_cons_char sep c w l :
  join sep ((c :: w) :: l) = c :: join sep (w :: l).
Proof. destruct l; reflexivity. Qed.

Lemma tokens_single w : nospace w -> tokens false w = [w].
Proof.
  induction w as [|c w IH]; intros H; [reflexivity|].
  apply nospace_cons in H. destruct H as [Hc Hw].
  simpl. rewrite Hc, (IH Hw). reflexivity.
Qed.

Lemma tokens_true_word c s :
  is_space c = false -> tokens true (c :: s) = tokens false (c :: s).
Proof. intros H. simpl. rewrite H. reflexivity. Qed.

Lemma tokens_false_word c s :
  is_space c = false ->
  tokens false (c :: s) =
  match tokens false s with w :: ws => (c :: w) :: ws | [] => [[c]] end.
Proof. intros H. simpl. rewrite H. reflexivity. Qed.

Lemma tokens_false_space c s :
  is_space c = true -> tokens false (c :: s) = [] :: tokens true s.
Proof. intros H. simpl. rewrite H. reflexivity. Qed.

(** Splitting what [join] glued with single spaces gives the tokens back. *)
Lemma tokens_join_inner l :
  l <> [] -> inner_ok l ->
  tokens true (join (lit " ") l) = l /\
  (forall w, nospace w -> tokens false (join (lit " ") (w :: l)) = w :: l).
Proof.
  induction l as [|x l IH]; intros Hne Hok; [congruence|].
  assert (Htrue : tokens true (join (lit " ") (x :: l)) = x :: l).
  { destruct Hok as [Hx Hrest]. destruct l as [|y l].
    - cbn [join]. destruct x as [|c x]; [reflexivity|].
      pose proof (proj1 (nospace_cons c x) Hx) as [Hc _].
      rewrite tokens_true_word by exact Hc. apply tokens_single, Hx.
    - destruct Hrest as [Hnil Hok']. destruct x as [|c x]; [congruence|].
      pose proof (proj1 (nospace_cons c x) Hx) as [Hc _].
      rewrite join_cons_char, tokens_true_word by exact Hc.
      rewrite <- join_cons_char.
      apply (proj2 (IH ltac:(discriminate) Hok')), Hx. }
  split; [exact Htrue|].
  induction w as [|c w IHw]; intros Hw.
  - change (join (lit " ") ([] :: x :: l)) with (32%N :: join (lit " ") (x :: l)).
    rewrite tokens_false_space by reflexivity.
    rewrite Htrue. reflexivity.
  - apply nospace_cons in Hw. destruct Hw as [Hc Hw].
    rewrite join_cons_char, tokens_false_word by exact Hc.
    generalize (IHw Hw). unfold jsstring. intros ->. reflexivity.
Qed.

Lemma tokens_join l : normal l -> fields (join (lit " ") l) = l.
Proof.
  destruct l as [|w l]; [intros []|]. intros [Hw Hok]. unfold fields.
  destruct l as [|x l].
  - apply tokens_single, Hw.
  - apply (proj2 (tokens_join_inner (l := x :: l) ltac:(discriminate) Hok)), Hw.
Qed.

(** The tokens of a text hold no whitespace, and only the first and the
    last can be empty. *)
Lemma tokens_normal s : normal (tokens false s) /\ inner_ok (tokens true s).
Proof.
  induction s as [|c s [IHf IHt]].
  - simpl. repeat split; reflexivity.
  - cbn [tokens]. destruct (is_space c) eqn:Hc.
    + split; [|exact IHt]. simpl. split; [reflexivity | exact IHt].
    + destruct (tokens false s) as [|w ws] eqn:Ht; [destruct IHf|].
      destruct IHf as [Hw Hws].
      assert (Hcw : nospace (c :: w)) by (apply nospace_cons; auto).
      split; [split; assumption|].
      cbn [inner_ok]. split; [exact Hcw|].
      destruct ws; [exact I|]. split; [discriminate | exact Hws].
Qed.

Lemma fields_normal s : normal (fields s).
Proof. apply tokens_normal. Qed.

Lemma take_blank_trim_start s : s = take_blank s ++ trim_start s.
Proof.
  induction s as [|c s IH]; [reflexivity|]. simpl.
  destruct (is_space c); [simpl; f_equal; exact IH | reflexivity].
Qed.

Lemma take_blank_spaces s : forallb is_space (take_blank s) = true.
Proof.
  induction s as [|c s IH]; [reflexivity|]. simpl.
  destruct (is_space c) eqn:E; [simpl; rewrite E; exact IH | reflexivity].
Qed.

(** Every text is its tokens with a run of whitespace between each two. *)
Lemma fields_glue s :
  exists t0 rest,
    fields s = t0 :: map snd rest /\
    Forall (fun st => blank_run (fst st)) rest /\
    s = glue t0 rest.
Proof.
  unfold fields.
  remember (length s) as n eqn:Hn. revert s Hn.
  induction n as [n IH] using lt_wf_ind. intros s Hn.
  destruct s as [|c s].
  - exists [], []. repeat split. constructor.
  - destruct (is_space c) eqn:Hc.
    + rewrite tokens_false_space, tokens_true by exact Hc.
      pose proof (length_trim_start s) as Hl.
      destruct (IH (length (trim_start s)) ltac:(subst n; simpl; lia)
                   (trim_start s) eq_refl) as (t0 & rest & Ht & Hb & Hg).
      exists [], ((c :: take_blank s, t0) :: rest).
      cbn [map snd glue app]. rewrite Ht. split; [reflexivity|]. split.
      * constructor; [|exact Hb]. cbn [fst]. split; [discriminate|].
        cbn [forallb]. rewrite Hc. apply take_blank_spaces.
      * rewrite <- Hg. simpl. f_equal. apply take_blank_trim_start.
    + rewrite tokens_false_word by exact Hc.
      destruct (IH (length s) ltac:(subst n; simpl; lia) s eq_refl)
        as (t0 & rest & Ht & Hb & Hg).
      rewrite Ht. exists (c :: t0), rest. split; [reflexivity|].
      split; [exact Hb|]. rewrite Hg at 1. destruct rest as [|[sep t] rest]; reflexivity.
Qed.

Lemma redactToken_nospace w : nospace w -> nospace (redactToken w).
Proof.
  intros H. unfold redactToken.
  destruct (existsb _ _); [reflexivity | exact H].
Qed.

Lemma redactToken_nonempty w : w <> [] -> redactToken w <> [].
Proof.
  intros H. unfold redactToken.
  destruct (existsb _ _); [discriminate | exact H].
Qed.

(** The placeholder matches none of the patterns. *)
Lemma placeholder_not_sensitive : redactToken (lit "[REDACTED]") = lit "[REDACTED]".
Proof. vm_compute. reflexivity. Qed.

Lemma redactToken_idem w : redactToken (redactToken w) = redactToken w.
Proof.
  unfold redactToken at 2 3.
  destruct (existsb _ GDGParser.sensitivePatterns) eqn:E.
  - apply placeholder_not_sensitive.
  - unfold redactToken. rewrite E. reflexivity.
Qed.

Lemma map_redact_inner l : inner_ok l -> inner_ok (map redactToken l).
Proof.
  induction l as [|w l IH]; [trivial|]. intros [Hw Hrest].
  cbn [map inner_ok]. split; [apply redactToken_nospace, Hw|].
  destruct l as [|x l]; [exact I|]. destruct Hrest as [Hne Hok].
  cbn [map]. split; [apply redactToken_nonempty, Hne | apply IH, Hok].
Qed.

Lemma map_redact_normal l : normal l -> normal (map redactToken l).
Proof.
  destruct l as [|w l]; [trivial|]. intros [Hw Hok]. split.
  - apply redactToken_nospace, Hw.
  - apply map_redact_inner, Hok.
Qed.

(** [GDGParser.createRedactedVersion] computes the placeholder redaction:
    its guard for the empty text returns what the general path would. *)
Lemma parser_redaction text :
  GDGParser.createRedactedVersion text = placeholderRedaction text.
Proof.
  unfold GDGParser.createRedactedVersion, placeholderRedaction.
  destruct text as [|c text]; [reflexivity|].
  cbn [is_nil]. rewrite split_spaces. reflexivity.
Qed.

(** The sketch's function does so on every text but the empty one. *)
Lemma sketch_redaction text :
  Sketch.createRedactedVersion text =
  if is_nil text then lit "Information redacted" else placeholderRedaction text.
Proof.
  unfold Sketch.createRedactedVersion, placeholderRedaction.
  destruct text as [|c text]; [reflexivity|].
  cbn [is_nil]. rewrite split_spaces. reflexivity.
Qed.

Lemma placeholderRedaction_idem s :
  placeholderRedaction (placeholderRedaction s) = placeholderRedaction s.
Proof.
  unfold placeholderRedaction.
  rewrite tokens_join by apply map_redact_normal, fields_normal.
  rewrite map_map. f_equal. apply map_ext. intros w. apply redactToken_idem.
Qed.

Lemma join_nonempty sep x l : x <> [] -> join sep (x :: l) <> [].
Proof.
  intros H. destruct x as [|c x]; [congruence|].
  rewrite join_cons_char. discriminate.
Qed.

Lemma placeholderRedaction_nonempty s : s <> [] -> placeholderRedaction s <> [].
Proof.
  destruct s as [|c s]; [congruence|]. intros _.
  unfold placeholderRedaction, fields. cbn [tokens].
  destruct (is_space c) eqn:Hc.
  - destruct (tokens true s) as [|x xs] eqn:Ht.
    + exfalso. exact (@tokens_nonempty _ _ Ht).
    + cbn [map]. 
      change (join (lit " ") (redactToken [] :: redactToken x :: map redactToken xs))
        with (redactToken [] ++ lit " " ++ join (lit " ") (redactToken x :: map redactToken xs)).
      destruct (redactToken []); discriminate.
  - destruct (tokens false s) as [|w ws] eqn:Ht.
    + exfalso. exact (@tokens_nonempty _ _ Ht).
    + cbn [map]. apply join_nonempty, redactToken_nonempty. discriminate.
Qed.

Example redactToken_examples :
  map redactToken [lit "casualties"; lit "Government's"; lit "1,000"; lit "300%.";
                   lit "operations"; lit "x12"; lit "[REDACTED]"; lit ""]
  = [lit "[REDACTED]"; lit "[REDACTED]"; lit "[REDACTED]"; lit "[REDACTED]";
     lit "operations"; lit "x12"; lit "[REDACTED]"; lit ""].
Proof. vm_compute. reflexivity. Qed.

Example parser_redaction_example :
  GDGParser.createRedactedVersion
    (lit "Military operations resulted in 24 civilian casualties in the region.")
  = lit "[REDACTED] operations resulted in [REDACTED] civilian [REDACTED] in the [REDACTED]".
Proof. vm_compute. reflexivity. Qed.

(** C1 (as amended).  [GDGParser.createRedactedVersion] maps every text to
    its whitespace-separated tokens, each replaced by [[REDACTED]] exactly
    when one of the eleven sensitive patterns matches it, joined by single
    spaces.  The sketch's [createRedactedVersion], over the same eleven
    patterns, does the same on every text but the empty one, for which it
    returns [Information redacted].  The tokens are what lies between the
    runs of whitespace of the text: none holds whitespace, only the first and
    the last can be empty, and the text is the tokens with a non-empty run of
    whitespace between each two. *)
Theorem C1_placeholder_redaction :
  (forall text, GDGParser.createRedactedVersion text = placeholderRedaction text) /\
  (forall text, Sketch.createRedactedVersion text =
                if is_nil text then lit "Information redacted"
                else placeholderRedaction text) /\
  length GDGParser.sensitivePatterns = 11 /\
  Sketch.sensitivePatterns = GDGParser.sensitivePatterns /\
  (forall text,
     normal (fields text) /\
     exists t0 rest,
       fields text = t0 :: map snd rest /\
       Forall (fun st => blank_run (fst st)) rest /\
       text = glue t0 rest).
Proof.
  split; [exact parser_redaction|].
  split; [exact sketch_redaction|].
  split; [reflexivity|]. split; [reflexivity|].
  intros text. split; [apply fields_normal | apply fields_glue].
Qed.

(** C1 as stated fails for the sketch's function on the empty text: the
    tokens of the empty text, rejoined, are the empty text. *)
Lemma C1_sketch_empty_text :
  placeholderRedaction (lit "") = lit "" /\
  Sketch.createRedactedVersion (lit "") <> placeholderRedaction (lit "").
Proof. split; [reflexivity | vm_compute; discriminate]. Qed.

(** C10.  Both placeholder redactions are idempotent. *)
Theorem C10_redaction_idempotent :
  (forall t, GDGParser.createRedactedVersion (GDGParser.createRedactedVersion t)
             = GDGParser.createRedactedVersion t) /\
  (forall t, Sketch.createRedactedVersion (Sketch.createRedactedVersion t)
             = Sketch.createRedactedVersion t).
Proof.
  split; intros t.
  - rewrite !parser_redaction. apply placeholderRedaction_idem.
  - rewrite (sketch_redaction t). destruct t as [|c t].
    + vm_compute. reflexivity.
    + cbn [is_nil]. rewrite sketch_redaction.
      destruct (placeholderRedaction (c :: t)) eqn:E.
      * exfalso. revert E. apply placeholderRedaction_nonempty. discriminate.
      * cbn [is_nil]. rewrite <- E. apply placeholderRedaction_idem.
Qed.

End RedactionFacts.

(* ================================================================== *)
(** * The source of an article *)
(* ================================================================== *)

Module SourceFacts.
Import Js Dyn Spec.
Local Open Scope string_scope.
Local Open Scope list_scope.
Local Open Scope nat_scope.

(** A pattern anchored with [^] matches at the start of the text only. *)
Lemma exec_bol_later r s : forall c, exec false (Seq Bol r) (Some c) s = None.
Proof.
  induction s as [|x s IH]; intros c; simpl; [reflexivity|].
  rewrite IH. reflexivity.
Qed.

Lemma exec_bol_start r h :
  exec false (Seq Bol r) None h =
  match run false r None h with
  | m :: _ => Some ([], m)
  | [] => None
  end.
Proof.
  destruct h as [|x h]; simpl; rewrite app_nil_r.
  - destruct (run false r None []); reflexivity.
  - destruct (run false r None (x :: h)); [|reflexivity].
    rewrite exec_bol_later. reflexivity.
Qed.

(** A literal word matches exactly where it is a prefix of the text. *)
Lemma run_chars pre :
  forall p h,
    map snd (run false (chars pre) p h) =
    match drop_prefix pre h with
    | Some rest => [rest]
    | None => []
    end.
Proof.
  induction pre as [|a pre IH]; intros p h; [reflexivity|].
  destruct pre as [|b pre].
  - destruct h as [|x h]; [reflexivity|].
    cbn -[N.eqb]. destruct (N.eqb a x); reflexivity.
  - change (chars (a :: b :: pre)) with (Seq (Chr a) (chars (b :: pre))).
    destruct h as [|x h]; [reflexivity|].
    cbn -[N.eqb chars drop_prefix]. cbn [drop_prefix].
    destruct (N.eqb a x); [|reflexivity].
    cbn -[N.eqb chars drop_prefix]. rewrite app_nil_r. apply IH.
Qed.

Lemma run_www p h :
  map snd (run false (word "www.") p h) =
  match drop_prefix (lit "www.") h with
  | Some rest => [rest]
  | None => []
  end.
Proof. apply run_chars. Qed.

(** [h.replace(/^www\./, '')] removes a leading [www.] and nothing else. *)
Lemma replace_www h :
  replace false (Seq Bol (word "www.")) (lit "") h = strip_www h.
Proof.
  unfold replace, strip_www. rewrite exec_bol_start.
  pose proof (run_www None h) as H.
  destruct (run false (word "www.") None h) as [|m ms];
    destruct (drop_prefix (lit "www.") h); cbn in H; try discriminate.
  - reflexivity.
  - injection H as H _. cbn. congruence.
Qed.

Section Platform.
Variable hostname : value -> option jsstring.

Lemma formatUrl_spec url :
  GDGParser.formatUrl hostname url =
  match hostname url with
  | Some h => VStr (strip_www h)
  | None => url
  end.
Proof.
  unfold GDGParser.formatUrl. destruct (hostname url); [|reflexivity].
  rewrite replace_www. reflexivity.
Qed.

(** C6.  For every article object, [extractSource] returns, in this order
    of preference: the article's [source] when truthy; for a truthy [url],
    its hostname without a leading [www.], or the url itself when it does
    not parse; the article's [domain] when truthy; [News Article]. *)
Theorem C6_extractSource_chain (props : list (string * value)) :
  GDGParser.extractSource hostname (VObj props) = Ok (sourceChain hostname props).
Proof.
  unfold GDGParser.extractSource, sourceChain. cbn [getp bind].
  destruct (truthy (lookup "source" props)); [reflexivity|].
  destruct (truthy (lookup "url" props)); [rewrite formatUrl_spec; reflexivity|].
  destruct (truthy (lookup "domain" props)); reflexivity.
Qed.

End Platform.

Example strip_www_example :
  strip_www (lit "www.example.com") = lit "example.com" /\
  strip_www (lit "news.www.org") = lit "news.www.org".
Proof. split; reflexivity. Qed.

End SourceFacts.

(* ================================================================== *)
(** * [addEntry]: what is stored, and how much *)
(* ================================================================== *)

Module EntryFacts.
Import Js Dyn Common Spec.
Local Open Scope string_scope.
Local Open Scope list_scope.
Local Open Scope nat_scope.

Lemma positive_length {A} (l : list A) : (0 <? length l) = negb (is_nil l).
Proof. destruct l; reflexivity. Qed.

(** The text test of the filter, on any value it does not throw on. *)
Lemma nonblank_spec x b :
  nonblank x = Ok b ->
  b = match x with VStr s => negb (is_nil (trim s)) | _ => false end.
Proof.
  unfold nonblank. destruct x as [| |b'|n|s|l|props]; cbn [truthy].
  - intros [= <-]; reflexivity.
  - intros [= <-]; reflexivity.
  - destruct b'; [discriminate | intros [= <-]; reflexivity].
  - destruct n as [| | |q]; try discriminate; try (intros [= <-]; reflexivity).
    destruct (Qeq_bool q 0); [intros [= <-]; reflexivity | discriminate].
  - destruct s as [|c s]; cbn [is_nil negb].
    + intros [= <-]. reflexivity.
    + intros [= <-]. apply positive_length.
  - discriminate.
  - discriminate.
Qed.

Lemma keep_spec c b : keep c = Ok b -> change_ok c = b.
Proof.
  unfold keep, change_ok.
  destruct c as [| |b'|n|s|l|props]; cbn [getp bind nonblank truthy];
    try discriminate; try (intros [= <-]; reflexivity).
  destruct (nonblank (lookup "from" props)) as [bf|] eqn:Ef; [|discriminate].
  apply nonblank_spec in Ef. cbn [bind].
  destruct bf.
  - destruct (nonblank (lookup "to" props)) as [bt|] eqn:Et; [|discriminate].
    apply nonblank_spec in Et. intros [= <-].
    destruct (lookup "from" props); try discriminate.
    destruct (lookup "to" props); try (subst bt; rewrite ?andb_false_r; reflexivity).
    rewrite <- Ef, <- Et. reflexivity.
  - intros [= <-].
    destruct (lookup "from" props); try reflexivity.
    rewrite <- Ef. destruct (lookup "to" props); reflexivity.
Qed.

(** The filter keeps exactly the changes with two non-blank texts. *)
Lemma filter_changes_spec l :
  forall kept, filter_changes l = Ok kept -> kept = filter change_ok l.
Proof.
  induction l as [|c l IH]; intros kept; cbn [filter_changes filter].
  - intros [= <-]. reflexivity.
  - destruct (keep c) as [b|] eqn:Ek; [|discriminate]. cbn [bind].
    destruct (filter_changes l) as [rest|]; [|discriminate]. cbn [bind].
    intros [= <-]. rewrite (keep_spec _ Ek), (IH rest eq_refl). reflexivity.
Qed.

Lemma forallb_filter {A} (f : A -> bool) l : forallb f (filter f l) = true.
Proof.
  induction l as [|a l IH]; [reflexivity|]. simpl.
  destruct (f a) eqn:E; [simpl; rewrite E|]; exact IH.
Qed.

Lemma lookup_setp k v props : lookup k (setp k v props) = v.
Proof.
  induction props as [|[k' v'] props IH]; simpl.
  - rewrite String.eqb_refl. reflexivity.
  - destruct (String.eqb k k') eqn:E; simpl.
    + rewrite String.eqb_refl. reflexivity.
    + rewrite E. exact IH.
Qed.

Lemma lookup_setp_other k k' v props :
  String.eqb k k' = false -> lookup k (setp k' v props) = lookup k props.
Proof.
  intros Hk. induction props as [|[k0 v0] props IH]; simpl.
  - rewrite Hk. reflexivity.
  - destruct (String.eqb k' k0) eqn:E; simpl.
    + apply String.eqb_eq in E. subst k0. rewrite Hk. reflexivity.
    + destruct (String.eqb k k0); [reflexivity | exact IH].
Qed.

(** A change the filter keeps has a string [from] and a string [to]. *)
Lemma change_ok_shape c : change_ok c = true -> change_shape c = true.
Proof.
  unfold change_ok, change_shape. destruct c; try discriminate.
  destruct (lookup "from" props); try discriminate.
  destruct (lookup "to" props); try discriminate. reflexivity.
Qed.

Lemma kept_changes_shape l : forallb change_shape (filter change_ok l) = true.
Proof.
  induction l as [|c l IH]; [reflexivity|]. simpl.
  destruct (change_ok c) eqn:E; [|exact IH].
  simpl. rewrite (change_ok_shape _ E). exact IH.
Qed.

(** The shape of an entry as [addEntry] stores it hangs on its source. *)
Lemma stored_entry_shape props l :
  entry_shape (VObj (setp "changes" (VArr (filter change_ok l)) props))
  = is_string (lookup "source" props).
Proof.
  unfold entry_shape. rewrite lookup_setp, lookup_setp_other by reflexivity.
  rewrite kept_changes_shape. apply andb_true_r.
Qed.

Section Platform.
Variable coerce_gt : value -> nat -> result bool.

Lemma kept_changes_spec entry kept :
  kept_changes coerce_gt entry = Ok (Some kept) ->
  exists props l,
    entry = VObj props /\ lookup "changes" props = VArr l /\
    kept = filter change_ok l.
Proof.
  unfold kept_changes.
  destruct entry as [| |b|n|s|l|props]; cbn [getp bind truthy]; try discriminate.
  destruct (truthy (lookup "changes" props)); [|discriminate].
  destruct (length_gt coerce_gt (lookup "changes" props) 0) as [[|]|];
    cbn [bind]; try discriminate.
  destruct (lookup "changes" props) as [| |b|n|s|l|ps] eqn:El; try discriminate.
  destruct (filter_changes l) as [k|] eqn:Ef; [|discriminate]. cbn [bind].
  intros [= <-]. exists props, l.
  split; [reflexivity|]. split; [exact El|]. apply filter_changes_spec, Ef.
Qed.

(** [addEntry] leaves the entries alone or appends the entry with its
    changes filtered, and that only below the bound. *)
Lemma addEntry_cases entry this :
  let this' := snd (addEntry coerce_gt entry this) in
  this' = this \/
  exists props l,
    entry = VObj props /\ lookup "changes" props = VArr l /\
    filter change_ok l <> [] /\
    length (processedEntries this) < maxEntries this /\
    fst (addEntry coerce_gt entry this) = Ok tt /\
    this' = push (VObj (setp "changes" (VArr (filter change_ok l)) props)) this.
Proof.
  unfold addEntry. cbv zeta.
  destruct (Nat.ltb_spec (length (processedEntries this)) (maxEntries this)) as [Hlt|Hge];
    [|left; reflexivity].
  destruct (kept_changes coerce_gt entry) as [[kept|]|] eqn:Ek;
    [|left; reflexivity|left; reflexivity].
  destruct (kept_changes_spec _ Ek) as (props & l & -> & Hl & ->).
  rewrite positive_length.
  destruct (filter change_ok l) as [|c kept] eqn:Ef; [left; reflexivity|].
  right. exists props, l. rewrite Ef. cbn [is_nil negb fst snd].
  repeat split; try assumption. discriminate.
Qed.

Lemma stored_ok_filtered props l :
  filter change_ok l <> [] ->
  stored_ok (VObj (setp "changes" (VArr (filter change_ok l)) props)).
Proof.
  intros Hne. exists (setp "changes" (VArr (filter change_ok l)) props), (filter change_ok l).
  repeat split; [apply lookup_setp | exact Hne | apply forallb_filter].
Qed.

Lemma addEntry_keeps_stored entry this :
  Forall stored_ok (processedEntries this) ->
  Forall stored_ok (processedEntries (snd (addEntry coerce_gt entry this))).
Proof.
  intros Hinv.
  destruct (addEntry_cases entry this) as [E | (props & l & _ & _ & Hne & _ & _ & E)];
    rewrite E; [exact Hinv|].
  cbn [push processedEntries]. apply Forall_app. split; [exact Hinv|].
  constructor; [apply stored_ok_filtered, Hne | constructor].
Qed.

(** Whatever entries a new parser is given, in whatever order, all it
    stores is well formed. *)
Lemma stored_after_calls given :
  Forall stored_ok
    (processedEntries
       (fold_left (fun this entry => snd (addEntry coerce_gt entry this)) given new)).
Proof.
  assert (H : forall this, Forall stored_ok (processedEntries this) ->
            Forall stored_ok
              (processedEntries
                 (fold_left (fun this entry => snd (addEntry coerce_gt entry this))
                            given this))).
  { induction given as [|e given IH]; intros this Hinv; [exact Hinv|].
    cbn [fold_left]. apply IH, addEntry_keeps_stored, Hinv. }
  apply H. constructor.
Qed.

(** C4.  [addEntry] keeps the invariant that every stored entry has at
    least one change and that every change it holds has a [from] and a [to]
    that are strings with a non-empty trimmed text: the entries are left as
    they were, or the entry is appended with exactly its valid changes, and
    an entry whose changes are all filtered out is not added. *)
Theorem C4_stored_changes_nonblank (entry : value) (this : parser) :
  Forall stored_ok (processedEntries this) ->
  let this' := snd (addEntry coerce_gt entry this) in
  Forall stored_ok (processedEntries this') /\
  (processedEntries this' = processedEntries this \/
   exists props l,
     entry = VObj props /\ lookup "changes" props = VArr l /\
     filter change_ok l <> [] /\
     processedEntries this' =
     processedEntries this ++ [VObj (setp "changes" (VArr (filter change_ok l)) props)]) /\
  (forall props l,
     entry = VObj props -> lookup "changes" props = VArr l ->
     filter change_ok l = [] ->
     processedEntries this' = processedEntries this).
Proof.
  intros Hinv. cbv zeta.
  destruct (addEntry_cases entry this) as [E | (props & l & He & Hl & Hne & _ & _ & E)];
    rewrite E.
  - split; [exact Hinv|]. split; [left; reflexivity | reflexivity].
  - cbn [push processedEntries]. split; [|split].
    + apply Forall_app. split; [exact Hinv|].
      constructor; [apply stored_ok_filtered, Hne | constructor].
    + right. exists props, l. repeat split; assumption.
    + intros props' l' He' Hl' Hnil. exfalso. apply Hne.
      rewrite He in He'. injection He' as <-. rewrite Hl in Hl'.
      injection Hl' as <-. exact Hnil.
Qed.

(** [addEntry] never takes the entries past the bound. *)
Lemma addEntry_within_bound entry this :
  within_bound this -> within_bound (snd (addEntry coerce_gt entry this)).
Proof.
  intros [Hmax Hlen].
  destruct (addEntry_cases entry this) as [E | (props & l & _ & _ & _ & Hlt & _ & E)];
    rewrite E; [split; assumption|].
  unfold within_bound. cbn [push processedEntries maxEntries].
  rewrite length_app. simpl. split; [exact Hmax | lia].
Qed.

(** At the bound [addEntry] does nothing, whatever the entry. *)
Lemma addEntry_full entry this :
  maxEntries this <= length (processedEntries this) ->
  addEntry coerce_gt entry this = (Ok tt, this).
Proof.
  intros H. unfold addEntry.
  destruct (Nat.ltb_spec (length (processedEntries this)) (maxEntries this));
    [lia | reflexivity].
Qed.

End Platform.

(** The invariant of C4 at work: of three changes one has a blank [from]
    and one lacks its [to]; the third alone is stored. *)
Lemma C4_stored_changes_witness :
  let coerce_gt := fun (_ : value) (_ : nat) => Ok false in
  let good := VObj [("from", VStr (lit "24 casualties")); ("to", VStr (lit "under review"))] in
  let entry :=
    VObj [("source", VStr (lit "Memo"));
          ("changes", VArr [VObj [("from", VStr (lit "  ")); ("to", VStr (lit "x"))];
                            good;
                            VObj [("from", VStr (lit "y"))]])] in
  Forall stored_ok (processedEntries new) /\
  processedEntries (snd (addEntry coerce_gt entry new)) =
    [VObj [("source", VStr (lit "Memo")); ("changes", VArr [good])]] /\
  Forall stored_ok (processedEntries (snd (addEntry coerce_gt entry new))).
Proof.
  cbv zeta. split; [constructor|]. split; [vm_compute; reflexivity|].
  apply (C4_stored_changes_nonblank (fun _ _ => Ok false)). constructor.
Defined.

End EntryFacts.

(* ================================================================== *)
(** * [parseGDGData]: fallbacks, bounds and the shape of the entries *)
(* ================================================================== *)

Module ParseFacts.
Import Js Dyn Common Spec EntryFacts.
Local Open Scope string_scope.
Local Open Scope list_scope.
Local Open Scope nat_scope.

(** A [try] with a handler that returns never throws. *)
Lemma try_catch_returns {A} (c : M A) (h : A) this :
  exists v, fst (try_catch c h this) = Ok v /\
            snd (try_catch c h this) = snd (c this) /\
            match fst (c this) with
            | Ok a => v = a
            | Throw _ => v = h
            end.
Proof.
  unfold try_catch. destruct (c this) as [[a|e] this']; simpl; eauto.
Qed.

Lemma createRedactedVersion_call_string text r :
  truthy text = true ->
  GDGParser.createRedactedVersion_call text = Ok r ->
  exists s, text = VStr s /\ r = VStr (GDGParser.createRedactedVersion s).
Proof.
  unfold GDGParser.createRedactedVersion_call. intros ->. cbn [negb].
  destruct text; try discriminate. intros [= <-]. eauto.
Qed.

Section Platform.
Variable hostname : value -> option jsstring.
Variable coerce_gt : value -> nat -> result bool.
Variable parseItems : value -> result (list GDGParserXml.item).

(** *** The JSON feed *)

(** An iteration leaves the entries alone or appends one entry derived from
    its article, and that only below the bound. *)
Lemma processArticle_cases article this :
  let this' := snd (GDGParser.processArticle hostname coerce_gt article this) in
  this' = this \/
  exists e, derived hostname coerce_gt article e /\
            length (processedEntries this) < maxEntries this /\
            this' = push e this.
Proof.
  unfold GDGParser.processArticle, bindM, lift, ret. cbv zeta.
  destruct (GDGParser.extractSource hostname article) as [source|] eqn:Es;
    [|left; reflexivity].
  destruct (GDGParser.extractTextContent coerce_gt article) as [text|] eqn:Et;
    [|left; reflexivity].
  destruct (truthy text) eqn:Htruthy; [|left; reflexivity].
  destruct (GDGParser.createRedactedVersion_call text) as [redacted|] eqn:Er;
    [|left; reflexivity].
  destruct (createRedactedVersion_call_string _ Htruthy Er) as (s & -> & ->).
  cbn [app length Nat.ltb Nat.leb].
  match goal with |- context [addEntry coerce_gt ?e this] =>
    destruct (addEntry_cases coerce_gt e this)
      as [E | (props & l & He & Hl & Hne & Hlt & _ & E)] end;
    [left; exact E|].
  right. injection He as <-. cbn in Hl. injection Hl as <-.
  eexists. split; [|split; [exact Hlt|]].
  - exists source, s. split; [exact Es|]. split; [exact Et | reflexivity].
  - rewrite E. f_equal. f_equal. cbn [setp String.eqb Ascii.eqb Bool.eqb].
    cbn [filter] in Hne |- *.
    destruct (change_ok _); [reflexivity | congruence].
Qed.

(** A derived entry has the normalized shape as soon as its source is a
    string: its one change has a string [from] and a string [to]. *)
Lemma derived_entry_shape article e :
  derived hostname coerce_gt article e ->
  exists source,
    GDGParser.extractSource hostname article = Ok source /\
    entry_shape e = is_string source.
Proof.
  intros (source & text & Hs & _ & ->). exists source. split; [exact Hs|].
  cbn. destruct (is_string source); reflexivity.
Qed.

Lemma processArticles_cases articles :
  forall this,
    let this' := snd (GDGParser.processArticles hostname coerce_gt articles this) in
    maxEntries this' = maxEntries this /\
    exists added,
      processedEntries this' = processedEntries this ++ added /\
      length (processedEntries this) + length added
        <= Nat.max (length (processedEntries this)) (maxEntries this) /\
      Forall (fun e => exists a, In a articles /\ derived hostname coerce_gt a e) added.
Proof.
  induction articles as [|a articles IH]; intros this; cbv zeta.
  - simpl. split; [reflexivity|]. exists []. rewrite app_nil_r. cbn [length].
    repeat split; [lia | constructor].
  - cbn [GDGParser.processArticles].
    destruct (Nat.ltb_spec (length (processedEntries this)) (maxEntries this)) as [Hlt|Hge].
    2:{ simpl. split; [reflexivity|]. exists []. rewrite app_nil_r. cbn [length].
        repeat split; [lia | constructor]. }
    pose proof (processArticle_cases a this) as Hc. cbv zeta in Hc.
    destruct (GDGParser.processArticle hostname coerce_gt a this) as [[u|e] this1] eqn:Ep;
      cbn [snd] in Hc.
    + specialize (IH this1). cbv zeta in IH.
      destruct IH as (Hmax & added & Hadd & Hlen & Hder).
      assert (Hder' : Forall (fun e => exists a0, In a0 (a :: articles)
                                        /\ derived hostname coerce_gt a0 e) added).
      { eapply Forall_impl; [|exact Hder]. intros e (a0 & Hin & Hd).
        exists a0. split; [right; exact Hin | exact Hd]. }
      destruct Hc as [-> | (e & Hd & _ & ->)].
      * split; [exact Hmax|]. exists added. repeat split; assumption.
      * cbn [push processedEntries maxEntries] in Hmax, Hadd, Hlen.
        split; [exact Hmax|]. exists (e :: added). rewrite Hadd, <- app_assoc.
        rewrite length_app in Hlen. cbn [length] in Hlen |- *.
        repeat split; [lia|].
        constructor; [|exact Hder'].
        exists a. split; [left; reflexivity | exact Hd].
    + cbn [snd]. destruct Hc as [-> | (e' & Hd & _ & ->)].
      * split; [reflexivity|]. exists []. rewrite app_nil_r. cbn [length].
        repeat split; [lia | constructor].
      * cbn [push processedEntries maxEntries]. split; [reflexivity|].
        exists [e']. cbn [length]. repeat split; [lia|].
        constructor; [|constructor]. exists a. split; [left; reflexivity | exact Hd].
Qed.

(** Once the bound is reached the loop reads no further article. *)
Lemma processArticles_full articles this :
  maxEntries this <= length (processedEntries this) ->
  GDGParser.processArticles hostname coerce_gt articles this = (Ok tt, this).
Proof.
  intros H. destruct articles as [|a articles]; [reflexivity|].
  cbn [GDGParser.processArticles].
  destruct (Nat.ltb_spec (length (processedEntries this)) (maxEntries this));
    [lia | reflexivity].
Qed.

(** The result of [parseGDGData] on a JSON feed. *)
Lemma parseGDGData_json data this :
  let tried := GDGParser.parseGDGData_try hostname coerce_gt data this in
  exists v,
    GDGParser.parseGDGData hostname coerce_gt data this = (Ok v, snd tried) /\
    match fst tried with
    | Throw _ => v = GDGParser.getSampleData
    | Ok _ =>
        match articles_of data with
        | None => v = GDGParser.getSampleData
        | Some _ => v = GDGParser.entries_of (snd tried)
        end
    end /\
    match articles_of data with
    | None => snd tried = this
    | Some l => snd tried = snd (GDGParser.processArticles hostname coerce_gt l this)
    end.
Proof.
  cbv zeta. unfold GDGParser.parseGDGData, try_catch, GDGParser.parseGDGData_try,
    articles_of, bindM, lift, ret.
  destruct (truthy data) eqn:Ht; cbn [negb]; [|eexists; repeat split].
  destruct data as [| |b|n|s|l|props]; cbn [truthy] in Ht; try discriminate;
    cbn [getp truthy negb orb isArray]; try (eexists; repeat split; fail).
  destruct (truthy (lookup "articles" props)) eqn:Ha; cbn [negb orb].
  2:{ destruct (lookup "articles" props); try discriminate; eexists; repeat split. }
  destruct (lookup "articles" props) as [| |b|n|s|l|ps]; cbn [isArray negb];
    try (eexists; repeat split; fail).
  destruct (GDGParser.processArticles hostname coerce_gt l this) as [[u|e] this'];
    cbn [fst snd].
  - exists (GDGParser.entries_of this'). repeat split.
  - exists GDGParser.getSampleData. repeat split.
Qed.

(** *** The RSS feed *)

Lemma processItem_cases it this :
  let this' := snd (GDGParserXml.processItem hostname coerce_gt it this) in
  this' = this \/
  exists e, length (processedEntries this) < maxEntries this /\
            entry_shape e = true /\ this' = push e this.
Proof.
  unfold GDGParserXml.processItem. cbv zeta.
  match goal with |- context [if ?b then addEntry coerce_gt ?e else _] =>
    destruct b; [|left; reflexivity];
    destruct (addEntry_cases coerce_gt e this)
      as [E | (props & l & He & _ & _ & Hlt & _ & E)] end.
  - left. exact E.
  - right. eexists. split; [exact Hlt|]. split; [|exact E].
    rewrite stored_entry_shape. injection He as <-. reflexivity.
Qed.

Lemma processItems_cases items :
  forall this,
    let this' := snd (GDGParserXml.processItems hostname coerce_gt items this) in
    maxEntries this' = maxEntries this /\
    exists added,
      processedEntries this' = processedEntries this ++ added /\
      length (processedEntries this) + length added
        <= Nat.max (length (processedEntries this)) (maxEntries this).
Proof.
  induction items as [|a items IH]; intros this; cbv zeta.
  - simpl. split; [reflexivity|]. exists []. rewrite app_nil_r. cbn [length].
    split; [reflexivity | lia].
  - cbn [GDGParserXml.processItems].
    destruct (Nat.ltb_spec (length (processedEntries this)) (maxEntries this)) as [Hlt|Hge].
    2:{ simpl. split; [reflexivity|]. exists []. rewrite app_nil_r. cbn [length].
        split; [reflexivity | lia]. }
    pose proof (processItem_cases a this) as Hc. cbv zeta in Hc.
    destruct (GDGParserXml.processItem hostname coerce_gt a this) as [[u|e] this1] eqn:Ep;
      cbn [snd] in Hc.
    + specialize (IH this1). cbv zeta in IH.
      destruct IH as (Hmax & added & Hadd & Hlen).
      destruct Hc as [-> | (e & _ & _ & ->)].
      * split; [exact Hmax|]. exists added. split; assumption.
      * cbn [push processedEntries maxEntries] in Hmax, Hadd, Hlen.
        split; [exact Hmax|]. exists (e :: added). rewrite Hadd, <- app_assoc.
        rewrite length_app in Hlen. cbn [length] in Hlen |- *.
        split; [reflexivity | lia].
    + cbn [snd]. destruct Hc as [-> | (e' & _ & _ & ->)].
      * split; [reflexivity|]. exists []. rewrite app_nil_r. cbn [length].
        split; [reflexivity | lia].
      * cbn [push processedEntries maxEntries]. split; [reflexivity|].
        exists [e']. cbn [length]. split; [reflexivity | lia].
Qed.

Lemma processItems_full items this :
  maxEntries this <= length (processedEntries this) ->
  GDGParserXml.processItems hostname coerce_gt items this = (Ok tt, this).
Proof.
  intros H. destruct items as [|a items]; [reflexivity|].
  cbn [GDGParserXml.processItems].
  destruct (Nat.ltb_spec (length (processedEntries this)) (maxEntries this));
    [lia | reflexivity].
Qed.

(** The loop over the items stores entries of the normalized shape only. *)
Lemma processItems_shape items :
  forall this,
    Forall (fun e => entry_shape e = true) (processedEntries this) ->
    Forall (fun e => entry_shape e = true)
           (processedEntries (snd (GDGParserXml.processItems hostname coerce_gt items this))).
Proof.
  induction items as [|a items IH]; intros this Hinv; [exact Hinv|].
  cbn [GDGParserXml.processItems].
  destruct (length (processedEntries this) <? maxEntries this); [|exact Hinv].
  pose proof (processItem_cases a this) as Hc. cbv zeta in Hc.
  assert (Hinv1 : Forall (fun e => entry_shape e = true)
                         (processedEntries
                            (snd (GDGParserXml.processItem hostname coerce_gt a this)))).
  { destruct Hc as [-> | (e & _ & He & ->)]; [exact Hinv|].
    cbn [push processedEntries]. apply Forall_app. split; [exact Hinv|].
    constructor; [exact He | constructor]. }
  destruct (GDGParserXml.processItem hostname coerce_gt a this) as [[u|e] this1];
    cbn [snd] in Hinv1 |- *; [apply IH, Hinv1 | exact Hinv1].
Qed.

(** The result of [parseGDGData] on an RSS feed. *)
Lemma parseGDGData_xml rawData this :
  let tried := GDGParserXml.parseGDGData_try hostname coerce_gt parseItems rawData this in
  exists v,
    GDGParserXml.parseGDGData hostname coerce_gt parseItems rawData this
      = (Ok v, snd tried) /\
    match fst tried with
    | Throw _ => v = GDGParserXml.getSampleData
    | Ok _ =>
        if length (processedEntries (snd tried)) <? 10
        then v = GDGParserXml.getSampleData
        else v = GDGParserXml.entries_of (snd tried)
    end /\
    match parseItems rawData with
    | Throw _ => snd tried = this
    | Ok items => snd tried = snd (GDGParserXml.processItems hostname coerce_gt items this)
    end.
Proof.
  cbv zeta. unfold GDGParserXml.parseGDGData, try_catch,
    GDGParserXml.parseGDGData_try, bindM, lift.
  destruct (parseItems rawData) as [items|e]; [|eexists; repeat split].
  destruct (GDGParserXml.processItems hostname coerce_gt items this) as [[u|e] this'];
    [|eexists; repeat split].
  destruct (length (processedEntries this') <? 10) eqn:E;
    cbn [fst snd]; rewrite ?E; eexists; repeat split.
Qed.

End Platform.

End ParseFacts.

Module ItemFacts.
Import Js Dyn Common Spec FeedSpec EntryFacts ParseFacts.
Local Open Scope string_scope.
Local Open Scope list_scope.
Local Open Scope nat_scope.

Section Platform.
Variable hostname : value -> option jsstring.
Variable coerce_gt : value -> nat -> result bool.
Variable parseItems : value -> result (list GDGParserXml.item).

(** [addEntry] on an entry with one change between two strings: it does not
    throw, and stores the entry as it is or leaves the parser alone. *)
Lemma addEntry_one_change source from to this :
  let e := VObj [("source", source);
                 ("changes", VArr [GDGParserXml.from_to from to])] in
  addEntry coerce_gt e this = (Ok tt, this) \/
  (length (processedEntries this) < maxEntries this /\
   addEntry coerce_gt e this = (Ok tt, push e this)).
Proof.
  cbv zeta. unfold addEntry.
  destruct (Nat.ltb_spec (length (processedEntries this)) (maxEntries this)) as [Hlt|Hge];
    [|left; reflexivity].
  assert (Hnb : forall s, exists b, nonblank (VStr s) = Ok b).
  { intros s. unfold nonblank. cbn [truthy].
    destruct (negb (is_nil s)); eexists; reflexivity. }
  destruct (Hnb from) as [b1 E1]. destruct (Hnb to) as [b2 E2].
  unfold kept_changes, GDGParserXml.from_to.
  cbn [getp lookup String.eqb Ascii.eqb Bool.eqb bind truthy
       length_gt length Nat.ltb Nat.leb filter_changes keep].
  rewrite E1. cbn [bind].
  destruct b1; [rewrite E2; destruct b2|];
    cbn [bind length Nat.ltb Nat.leb setp String.eqb Ascii.eqb Bool.eqb];
    try (left; reflexivity).
  right. split; [exact Hlt | reflexivity].
Qed.

(** One item: no exception, and the parser is left alone or given the entry
    derived from the item. *)
Lemma processItem_derived it this :
  GDGParserXml.processItem hostname coerce_gt it this = (Ok tt, this) \/
  exists e,
    item_entry hostname it = Some e /\
    length (processedEntries this) < maxEntries this /\
    GDGParserXml.processItem hostname coerce_gt it this = (Ok tt, push e this).
Proof.
  unfold GDGParserXml.processItem, item_entry, item_source. cbv zeta.
  set (source := if is_nil _ then _ else _).
  set (description := GDGParserXml.or_default (GDGParserXml.description it) (lit "")).
  set (link := GDGParserXml.or_default (GDGParserXml.link it) (lit "")).
  set (parts := split false GDGParserXml.separators description).
  set (c1 := GDGParserXml.from_to (GDGParserXml.cleanText (hd [] parts)) _).
  set (c2 := GDGParserXml.from_to (GDGParserXml.generateOriginalText link) _).
  assert (Hadd : forall from to,
             let c := GDGParserXml.from_to from to in
             addEntry coerce_gt (VObj [("source", VStr source); ("changes", VArr [c])]) this
             = (Ok tt, this) \/
             exists e,
               Some (VObj [("source", VStr source); ("changes", VArr [c])]) = Some e /\
               length (processedEntries this) < maxEntries this /\
               addEntry coerce_gt (VObj [("source", VStr source); ("changes", VArr [c])]) this
               = (Ok tt, push e this)).
  { intros from to. cbv zeta.
    destruct (addEntry_one_change (VStr source) from to this) as [E | [Hlt E]];
      [left; exact E|].
    right. eexists. split; [reflexivity|]. split; [exact Hlt | exact E]. }
  destruct (negb (is_nil description)); cbn [andb].
  - destruct (2 <=? length parts); cbn [app length Nat.eqb andb Nat.ltb Nat.leb].
    + apply Hadd.
    + destruct (negb (is_nil link)); cbn [app length Nat.ltb Nat.leb].
      * apply Hadd.
      * left. reflexivity.
  - cbn [length Nat.eqb andb]. destruct (negb (is_nil link)); cbn [app length Nat.ltb Nat.leb].
    + apply Hadd.
    + left. reflexivity.
Qed.

(** The loop: no exception, and what it appends is derived from the items. *)
Lemma processItems_derived items :
  forall this, exists added,
    GDGParserXml.processItems hostname coerce_gt items this
    = (Ok tt, {| processedEntries := processedEntries this ++ added;
                 maxEntries := maxEntries this;
                 entryCount := entryCount this |}) /\
    Forall (derived_from hostname items) added.
Proof.
  induction items as [|it items IH]; intros this.
  - exists []. rewrite app_nil_r. destruct this. split; [reflexivity | constructor].
  - cbn [GDGParserXml.processItems].
    destruct (length (processedEntries this) <? maxEntries this).
    2:{ exists []. rewrite app_nil_r. destruct this. split; [reflexivity | constructor]. }
    assert (Hweak : forall l, Forall (derived_from hostname items) l ->
                              Forall (derived_from hostname (it :: items)) l).
    { intros l. apply Forall_impl. intros e (it' & Hin & He).
      exists it'. split; [right; exact Hin | exact He]. }
    destruct (processItem_derived it this) as [E | (e & He & _ & E)]; rewrite E.
    + destruct (IH this) as (added & Hrun & Hall).
      exists added. split; [exact Hrun | apply Hweak, Hall].
    + destruct (IH (push e this)) as (added & Hrun & Hall).
      exists (e :: added). rewrite Hrun. cbn [push processedEntries maxEntries entryCount].
      rewrite <- app_assoc. split; [reflexivity|].
      constructor; [|apply Hweak, Hall].
      exists it. split; [left; reflexivity | exact He].
Qed.

(** The whole of [parseGDGData] on an RSS feed. *)
Lemma parseGDGData_rss rawData this :
  match parseItems rawData with
  | Throw _ =>
      GDGParserXml.parseGDGData hostname coerce_gt parseItems rawData this
      = (Ok GDGParserXml.getSampleData, this)
  | Ok items =>
      exists added,
        let this' := {| processedEntries := processedEntries this ++ added;
                        maxEntries := maxEntries this;
                        entryCount := entryCount this |} in
        Forall (derived_from hostname items) added /\
        GDGParserXml.parseGDGData hostname coerce_gt parseItems rawData this
        = (Ok (if length (processedEntries this ++ added) <? 10
               then GDGParserXml.getSampleData
               else GDGParserXml.entries_of this'), this')
  end.
Proof.
  unfold GDGParserXml.parseGDGData, try_catch, GDGParserXml.parseGDGData_try, bindM, lift.
  destruct (parseItems rawData) as [items|e]; [|reflexivity].
  destruct (processItems_derived items this) as (added & Hrun & Hall).
  exists added. cbv zeta. split; [exact Hall|]. rewrite Hrun.
  cbn [processedEntries].
  destruct (length (processedEntries this ++ added) <? 10); reflexivity.
Qed.

End Platform.

End ItemFacts.

(* ================================================================== *)
(** * The feed adapters: what [parseGDGData] returns *)
(* ================================================================== *)

Module FeedTheorems.
Import Js Dyn Common Spec FeedSpec EntryFacts ParseFacts ItemFacts.
Local Open Scope string_scope.
Local Open Scope list_scope.
Local Open Scope nat_scope.

Lemma entries_of_json this : entries (GDGParser.entries_of this) = processedEntries this.
Proof. reflexivity. Qed.

Lemma entries_of_xml this : entries (GDGParserXml.entries_of this) = processedEntries this.
Proof. reflexivity. Qed.

Lemma within_bound_max this this' added :
  within_bound this ->
  maxEntries this' = maxEntries this ->
  processedEntries this' = processedEntries this ++ added ->
  length (processedEntries this) + length added
    <= Nat.max (length (processedEntries this)) (maxEntries this) ->
  within_bound this'.
Proof.
  intros [Hmax Hlen] Hm Hp Hl. split; [congruence|].
  rewrite Hp, length_app. lia.
Qed.

Section Platform.
Variable hostname : value -> option jsstring.
Variable coerce_gt : value -> nat -> result bool.
Variable parseItems : value -> result (list GDGParserXml.item).

(** C3 (as amended).  Neither [parseGDGData] ever throws.  On a JSON feed
    it returns the sample data when the document is falsy, has no [articles]
    array, or processing throws; otherwise it returns the parser's entries,
    which are those it held before followed by entries derived from the
    articles.  On an RSS feed it returns the sample data when reading the
    document throws, the one step that can, or when fewer than 10 entries
    are held after the loop; otherwise it returns the parser's entries,
    which are those it held before followed by entries derived from the
    items of the feed. *)
Theorem C3_fallback_or_entries :
  (forall data this, exists v this',
     GDGParser.parseGDGData hostname coerce_gt data this = (Ok v, this') /\
     match fst (GDGParser.parseGDGData_try hostname coerce_gt data this),
           articles_of data with
     | Ok _, Some articles =>
         v = GDGParser.entries_of this' /\
         exists added,
           processedEntries this' = processedEntries this ++ added /\
           Forall (fun e => exists a, In a articles /\ derived hostname coerce_gt a e)
                  added
     | _, _ => v = GDGParser.getSampleData
     end) /\
  (forall rawData this, exists v this',
     GDGParserXml.parseGDGData hostname coerce_gt parseItems rawData this = (Ok v, this') /\
     match parseItems rawData with
     | Throw _ => v = GDGParserXml.getSampleData /\ this' = this
     | Ok items =>
         exists added,
           processedEntries this' = processedEntries this ++ added /\
           Forall (derived_from hostname items) added /\
           if length (processedEntries this') <? 10
           then v = GDGParserXml.getSampleData
           else v = GDGParserXml.entries_of this'
     end).
Proof.
  split.
  - intros data this.
    destruct (parseGDGData_json hostname coerce_gt data this) as (v & Hrun & Hv & Hst).
    exists v, (snd (GDGParser.parseGDGData_try hostname coerce_gt data this)).
    split; [exact Hrun|].
    destruct (fst (GDGParser.parseGDGData_try hostname coerce_gt data this));
      destruct (articles_of data) as [articles|]; try exact Hv.
    split; [exact Hv|]. rewrite Hst.
    destruct (processArticles_cases hostname coerce_gt articles this)
      as (_ & added & Hadd & _ & Hder).
    exists added. split; assumption.
  - intros rawData this.
    pose proof (parseGDGData_rss hostname coerce_gt parseItems rawData this) as H.
    destruct (parseItems rawData) as [items|e].
    + destruct H as (added & Hall & Hrun). cbv zeta in Hrun.
      eexists _, _. split; [exact Hrun|].
      exists added. cbn [processedEntries]. split; [reflexivity|]. split; [exact Hall|].
      destruct (length (processedEntries this ++ added) <? 10); reflexivity.
    + eexists _, _. split; [exact H|]. split; reflexivity.
Qed.

(** C8 (as amended).  The RSS [parseGDGData] returns the whole sample data
    whenever fewer than 10 entries are held after its loop, also when
    nothing threw: the entries the parser held before the call count with
    those extracted from the feed, so on a new parser this is whenever fewer
    than 10 are extracted.  What was extracted is not given up: it stays in
    the parser.  Every result holds at least 10 entries, a result that is
    not the sample data as much as the sample data, which holds 10. *)
Theorem C8_fewer_than_ten_is_sample :
  (forall rawData this, exists v this' added,
     GDGParserXml.parseGDGData hostname coerce_gt parseItems rawData this = (Ok v, this') /\
     processedEntries this' = processedEntries this ++ added /\
     match parseItems rawData with
     | Throw _ => added = [] /\ v = GDGParserXml.getSampleData
     | Ok items =>
         Forall (derived_from hostname items) added /\
         if length (processedEntries this) + length added <? 10
         then v = GDGParserXml.getSampleData
         else v = GDGParserXml.entries_of this' /\
              entries v = processedEntries this ++ added
     end /\
     10 <= length (entries v)) /\
  (forall rawData, exists v this',
     GDGParserXml.parseGDGData hostname coerce_gt parseItems rawData new = (Ok v, this') /\
     (length (processedEntries this') < 10 -> v = GDGParserXml.getSampleData) /\
     (v = GDGParserXml.getSampleData \/
      (v = GDGParserXml.entries_of this' /\ 10 <= length (processedEntries this')))) /\
  length (entries GDGParserXml.getSampleData) = 10.
Proof.
  assert (General : forall rawData this, exists v this' added,
     GDGParserXml.parseGDGData hostname coerce_gt parseItems rawData this = (Ok v, this') /\
     processedEntries this' = processedEntries this ++ added /\
     match parseItems rawData with
     | Throw _ => added = [] /\ v = GDGParserXml.getSampleData
     | Ok items =>
         Forall (derived_from hostname items) added /\
         if length (processedEntries this) + length added <? 10
         then v = GDGParserXml.getSampleData
         else v = GDGParserXml.entries_of this' /\
              entries v = processedEntries this ++ added
     end /\
     10 <= length (entries v)).
  { intros rawData this.
    pose proof (parseGDGData_rss hostname coerce_gt parseItems rawData this) as H.
    destruct (parseItems rawData) as [items|e].
    - destruct H as (added & Hall & Hrun). cbv zeta in Hrun.
      eexists _, _, added. split; [exact Hrun|]. cbn [processedEntries].
      split; [reflexivity|]. rewrite <- length_app.
      destruct (Nat.ltb_spec (length (processedEntries this ++ added)) 10) as [Hlt|Hge].
      + split; [split; [exact Hall | reflexivity]|]. cbn. lia.
      + split; [split; [exact Hall | split; reflexivity]|]. exact Hge.
    - eexists _, _, []. split; [exact H|]. rewrite app_nil_r.
      split; [reflexivity|]. split; [split; reflexivity|]. cbn. lia. }
  split; [exact General | split; [|reflexivity]].
  intros rawData.
  destruct (General rawData new) as (v & this' & added & Hrun & Hadd & Hv & _).
  exists v, this'. split; [exact Hrun|]. rewrite Hadd. cbn [new processedEntries app] in *.
  destruct (parseItems rawData) as [items|e].
  - destruct Hv as [_ Hv]. cbn [length Nat.add] in Hv.
    destruct (Nat.ltb_spec (length added) 10) as [Hlt|Hge].
    + split; [intros _; exact Hv | left; exact Hv].
    + destruct Hv as [Hv _]. split; [intros Hlt; lia | right; split; [exact Hv | exact Hge]].
  - destruct Hv as [_ Hv]. split; [intros _; exact Hv | left; exact Hv].
Qed.

(** Every entry the RSS [parseGDGData] returns has the normalized shape, as
    long as those the parser held before had it. *)
Lemma rss_entries_have_shape rawData this :
  Forall (fun e => entry_shape e = true) (processedEntries this) ->
  exists v,
    fst (GDGParserXml.parseGDGData hostname coerce_gt parseItems rawData this) = Ok v /\
    Forall (fun e => entry_shape e = true) (entries v).
Proof.
  intros Hinv.
  destruct (parseGDGData_xml hostname coerce_gt parseItems rawData this)
    as (v & Hrun & Hv & Hst).
  exists v. rewrite Hrun. split; [reflexivity|].
  assert (Hsample : Forall (fun e => entry_shape e = true)
                           (entries GDGParserXml.getSampleData))
    by (repeat constructor).
  assert (Hkept : Forall (fun e => entry_shape e = true)
                    (processedEntries
                       (snd (GDGParserXml.parseGDGData_try hostname coerce_gt parseItems
                               rawData this)))).
  { destruct (parseItems rawData) as [items|e]; rewrite Hst; [|exact Hinv].
    apply processItems_shape, Hinv. }
  destruct (fst (GDGParserXml.parseGDGData_try hostname coerce_gt parseItems rawData this));
    [destruct (length (processedEntries _) <? 10)|]; subst v;
    try exact Hsample. rewrite entries_of_xml. exact Hkept.
Qed.

(** Every entry the JSON [parseGDGData] makes has a change of the normalized
    shape; the entry has the shape exactly when [extractSource] gave a
    string for its article. *)
Lemma json_entries_shape_up_to_source data articles :
  articles_of data = Some articles ->
  exists added,
    processedEntries (snd (GDGParser.parseGDGData hostname coerce_gt data new)) = added /\
    Forall (fun e => exists a source,
                       In a articles /\
                       GDGParser.extractSource hostname a = Ok source /\
                       entry_shape e = is_string source) added.
Proof.
  intros Ha.
  destruct (parseGDGData_json hostname coerce_gt data new) as (v & Hrun & _ & Hst).
  rewrite Ha in Hst. rewrite Hrun. cbn [snd]. rewrite Hst.
  destruct (processArticles_cases hostname coerce_gt articles new)
    as (_ & added & Hadd & _ & Hder).
  exists added. split; [exact Hadd|].
  eapply Forall_impl; [|exact Hder]. intros e (a & Hin & Hd).
  destruct (derived_entry_shape Hd) as (source & Hs & Hshape).
  exists a, source. repeat split; assumption.
Qed.

(** C9.  A parser within its bound of 100 entries stays within it under
    [addEntry] and both [parseGDGData], every object they return holds at
    most 100 entries, and at the bound [addEntry] and the loops change
    nothing, whatever input is left. *)
Theorem C9_entries_within_bound (this : parser) :
  within_bound this ->
  (forall entry, within_bound (snd (addEntry coerce_gt entry this))) /\
  (forall data,
     let r := GDGParser.parseGDGData hostname coerce_gt data this in
     within_bound (snd r) /\ exists v, fst r = Ok v /\ length (entries v) <= 100) /\
  (forall rawData,
     let r := GDGParserXml.parseGDGData hostname coerce_gt parseItems rawData this in
     within_bound (snd r) /\ exists v, fst r = Ok v /\ length (entries v) <= 100) /\
  (length (processedEntries this) = 100 ->
   (forall entry, addEntry coerce_gt entry this = (Ok tt, this)) /\
   (forall articles,
      GDGParser.processArticles hostname coerce_gt articles this = (Ok tt, this)) /\
   (forall items,
      GDGParserXml.processItems hostname coerce_gt items this = (Ok tt, this))).
Proof.
  intros Hb. split; [|split; [|split]].
  - intros entry. apply addEntry_within_bound, Hb.
  - intros data. cbv zeta.
    destruct (parseGDGData_json hostname coerce_gt data this) as (v & Hrun & Hv & Hst).
    rewrite Hrun. cbn [fst snd].
    assert (Hb' : within_bound
                    (snd (GDGParser.parseGDGData_try hostname coerce_gt data this))).
    { destruct (articles_of data) as [l|]; rewrite Hst; [|exact Hb].
      destruct (processArticles_cases hostname coerce_gt l this)
        as (Hmax & added & Hadd & Hlen & _).
      exact (@within_bound_max _ _ _ Hb Hmax Hadd Hlen). }
    split; [exact Hb'|]. exists v. split; [reflexivity|].
    destruct (fst (GDGParser.parseGDGData_try hostname coerce_gt data this));
      destruct (articles_of data); subst v;
      try (cbn; lia); rewrite entries_of_json; apply Hb'.
  - intros rawData. cbv zeta.
    destruct (parseGDGData_xml hostname coerce_gt parseItems rawData this)
      as (v & Hrun & Hv & Hst).
    rewrite Hrun. cbn [fst snd].
    assert (Hb' : within_bound
                    (snd (GDGParserXml.parseGDGData_try hostname coerce_gt parseItems
                            rawData this))).
    { destruct (parseItems rawData) as [items|e]; rewrite Hst; [|exact Hb].
      destruct (processItems_cases hostname coerce_gt items this)
        as (Hmax & added & Hadd & Hlen).
      exact (@within_bound_max _ _ _ Hb Hmax Hadd Hlen). }
    split; [exact Hb'|]. exists v. split; [reflexivity|].
    destruct (fst (GDGParserXml.parseGDGData_try hostname coerce_gt parseItems rawData this));
      [destruct (length (processedEntries _) <? 10)|]; subst v;
      try (cbn; lia); rewrite entries_of_xml; apply Hb'.
  - intros Hfull. destruct Hb as [Hmax _].
    assert (Hge : maxEntries this <= length (processedEntries this)) by lia.
    split; [|split]; intros x.
    + apply addEntry_full, Hge.
    + apply processArticles_full, Hge.
    + apply processItems_full, Hge.
Qed.

End Platform.

(** C3 as stated fails on the RSS feed: here nothing throws and an entry is
    derived from the one item of the feed, yet the sample data is returned,
    in which that entry is not. *)
Lemma C3_rss_few_entries :
  let rawData := VStr Example.budget_xml in
  let entry :=
    VObj [("source", VStr (lit "example.org"));
          ("changes", VArr [GDGParserXml.from_to (lit "Spending rose")
                                                 (lit "officials say")])] in
  Example.parseItems rawData = Ok Example.budget_items /\
  derived_from Example.hostname Example.budget_items entry /\
  GDGParserXml.parseGDGData_try Example.hostname Example.coerce_gt Example.parseItems
    rawData new
    = (Ok GDGParserXml.getSampleData,
       {| processedEntries := [entry]; maxEntries := 100; entryCount := 0 |}) /\
  fst (GDGParserXml.parseGDGData Example.hostname Example.coerce_gt Example.parseItems
         rawData new)
    = Ok GDGParserXml.getSampleData /\
  existsb (fun e => match e with
                    | VObj props =>
                        match lookup "source" props with
                        | VStr s => str_eqb s (lit "example.org")
                        | _ => false
                        end
                    | _ => false
                    end) (entries GDGParserXml.getSampleData) = false.
Proof.
  cbv zeta. split; [vm_compute; reflexivity|]. split.
  - eexists. split; [left; reflexivity | vm_compute; reflexivity].
  - repeat split; vm_compute; reflexivity.
Qed.

(** C8 as stated fails on a parser that is used again.  A feed of six items
    gives the sample data on a new parser, but the six entries stay in it:
    the same feed once more makes twelve, and the call returns those, not
    the sample data, though it extracted six. *)
Lemma C8_second_call_returns_entries :
  let rawData := VStr Example.reports_xml in
  let parse := GDGParserXml.parseGDGData Example.hostname Example.coerce_gt
                 Example.parseItems rawData in
  let this1 := snd (parse new) in
  let this2 := snd (parse this1) in
  Example.parseItems rawData = Ok Example.reports_items /\
  length Example.reports_items = 6 /\
  fst (parse new) = Ok GDGParserXml.getSampleData /\
  length (processedEntries this1) = 6 /\
  Forall (derived_from Example.hostname Example.reports_items) (processedEntries this1) /\
  processedEntries this2 = processedEntries this1 ++ processedEntries this1 /\
  fst (parse this1) = Ok (GDGParserXml.entries_of this2) /\
  length (entries (GDGParserXml.entries_of this2)) = 12 /\
  fst (parse this1) <> Ok GDGParserXml.getSampleData.
Proof.
  cbv zeta.
  assert (Hd : forall n, In n Example.numbers ->
                 derived_from Example.hostname Example.reports_items
                   (VObj [("source", VStr (lit "Report " ++ lit n));
                          ("changes",
                           VArr [GDGParserXml.from_to
                                   (lit "Findings of part " ++ lit n)
                                   (lit "withheld by the office")])])).
  { intros n Hn. exists (Example.report n).
    split; [apply in_map, Hn|].
    cbn in Hn. repeat (destruct Hn as [<-|Hn]; [vm_compute; reflexivity|]). destruct Hn. }
  split; [vm_compute; reflexivity|]. split; [reflexivity|].
  split; [vm_compute; reflexivity|]. split; [vm_compute; reflexivity|].
  split.
  { change (processedEntries _) with
      (map (fun n => VObj [("source", VStr (lit "Report " ++ lit n));
                           ("changes",
                            VArr [GDGParserXml.from_to
                                    (lit "Findings of part " ++ lit n)
                                    (lit "withheld by the office")])])
           Example.numbers).
    apply Forall_forall. intros e He. apply in_map_iff in He.
    destruct He as (n & <- & Hn). apply Hd, Hn. }
  split; [vm_compute; reflexivity|]. split; [vm_compute; reflexivity|].
  split; [vm_compute; reflexivity|].
  intros H.
  apply (f_equal (fun r => match r with Ok v => length (entries v) | Throw _ => 0 end)) in H.
  vm_compute in H. discriminate H.
Qed.

(** C5 fails where a feed gives the source of an article as an object (the
    [{ id, name }] of a news API): [extractSource] hands it on, and the
    entry returned has a [source] that is not a string. *)
Theorem C5_object_source_is_kept
        (hostname : value -> option jsstring)
        (coerce_gt : value -> nat -> result bool) :
  let source := VObj [("id", VNull); ("name", VStr (lit "BBC News"))] in
  let title := lit "Officials confirm new policy" in
  let article :=
    VObj [("source", source); ("title", VStr title);
          ("url", VStr (lit "https://www.bbc.co.uk/news/1"))] in
  let data := VObj [("status", VStr (lit "ok")); ("articles", VArr [article])] in
  let entry :=
    VObj [("source", source);
          ("changes", VArr [GDGParser.change (VStr title)
                              (VStr (GDGParser.createRedactedVersion title))])] in
  GDGParser.extractSource hostname article = Ok source /\
  fst (GDGParser.parseGDGData_try hostname coerce_gt data new)
    = Ok (VObj [("entries", VArr [entry])]) /\
  fst (GDGParser.parseGDGData hostname coerce_gt data new)
    = Ok (VObj [("entries", VArr [entry])]) /\
  entry_shape entry = false.
Proof. cbv zeta. repeat split; vm_compute; reflexivity. Qed.

(** The bound of C9 for a new parser, on any list of articles. *)
Lemma C9_new_parser_witness :
  within_bound new /\
  forall articles,
    exists v,
      fst (GDGParser.parseGDGData (fun _ => None) (fun _ _ => Ok false)
             (VObj [("articles", VArr articles)]) new) = Ok v /\
      length (entries v) <= 100.
Proof.
  assert (Hb : within_bound new) by (split; [reflexivity | simpl; lia]).
  split; [exact Hb|]. intros articles.
  apply (C9_entries_within_bound (fun _ => None) (fun _ _ => Ok false)
           (fun _ => Ok []) Hb).
Defined.

End FeedTheorems.

(* ================================================================== *)
(** * The data route *)
(* ================================================================== *)

Module RouteTheorems.
Import Js Dyn Route.
Local Open Scope string_scope.
Local Open Scope list_scope.
Local Open Scope nat_scope.

(** C7.  Both versions of the route always answer, and never throw.  The
    local server answers 200 with the parsed file exactly when reading and
    parsing succeed, and else 500 with an [error] and the message of what
    failed.  The serverless function answers 200 with the parsed data,
    serialized, exactly when the fetch, its status, reading the body,
    decompressing and parsing all succeed; when one of them fails it answers
    500 with a JSON object whose [error] is the message of that failure. *)
Theorem C7_route_always_answers :
  (forall JSON_parse readFile,
     exists r,
       Server.get_api_gdelt JSON_parse readFile = Done r /\
       ((Server.status r = 200 /\
         exists data, readFile = Done data /\ JSON_parse data = Done (Server.body r)) \/
        (Server.status r = 500 /\
         exists message,
           Server.body r = VObj [("error", VStr (lit "Failed to load data"));
                                 ("details", VStr message)] /\
           (readFile = Failed message \/
            exists data, readFile = Done data /\ JSON_parse data = Failed message)))) /\
  (forall inflate JSON_parse JSON_stringify response,
     (* every step succeeds: 200 and the data *)
     (forall resp compressed decompressed data,
        response = Done resp -> Netlify.ok resp = true ->
        Netlify.arrayBuffer resp = Done compressed ->
        inflate compressed = Done decompressed ->
        JSON_parse decompressed = Done data ->
        Netlify.handler inflate JSON_parse JSON_stringify response
        = Done {| Netlify.statusCode := 200;
                  Netlify.headers := [("Content-Type", "application/json");
                                      ("Access-Control-Allow-Origin", "*");
                                      ("Access-Control-Allow-Headers", "Content-Type");
                                      ("Access-Control-Allow-Methods", "GET")];
                  Netlify.body := JSON_stringify data |}) /\
     (* in every case: an answer, which is the one or the other *)
     exists r,
       Netlify.handler inflate JSON_parse JSON_stringify response = Done r /\
       In ("Content-Type", "application/json") (Netlify.headers r) /\
       ((Netlify.statusCode r = 200 /\
         exists resp compressed decompressed data,
           response = Done resp /\ Netlify.ok resp = true /\
           Netlify.arrayBuffer resp = Done compressed /\
           inflate compressed = Done decompressed /\
           JSON_parse decompressed = Done data /\
           Netlify.body r = JSON_stringify data) \/
        (Netlify.statusCode r = 500 /\
         exists message,
           Netlify.body r = JSON_stringify (VObj [("error", VStr message)]) /\
           ((* the fetch itself failed *)
            response = Failed message \/
            (* the feed answered with an error status *)
            (exists resp,
               response = Done resp /\ Netlify.ok resp = false /\
               message = lit "Failed to fetch GDELT data: "
                         ++ decimal (Netlify.status resp) ++ lit " "
                         ++ Netlify.statusText resp) \/
            (* reading the body failed *)
            (exists resp,
               response = Done resp /\ Netlify.ok resp = true /\
               Netlify.arrayBuffer resp = Failed message) \/
            (* decompressing failed *)
            (exists resp compressed cause,
               response = Done resp /\ Netlify.ok resp = true /\
               Netlify.arrayBuffer resp = Done compressed /\
               inflate compressed = Failed cause /\
               message = lit "Failed to decompress GDELT data") \/
            (* parsing failed *)
            (exists resp compressed decompressed cause,
               response = Done resp /\ Netlify.ok resp = true /\
               Netlify.arrayBuffer resp = Done compressed /\
               inflate compressed = Done decompressed /\
               JSON_parse decompressed = Failed cause /\
               message = lit "Failed to parse GDELT data"))))).
Proof.
  split.
  - intros JSON_parse readFile. unfold Server.get_api_gdelt.
    destruct readFile as [data|m]; cbn [andThen].
    + destruct (JSON_parse data) as [parsed|m] eqn:E; cbn [andThen];
        eexists; (split; [reflexivity|]); cbn.
      * left. split; [reflexivity|]. exists data. rewrite E. split; reflexivity.
      * right. split; [reflexivity|]. exists m. split; [reflexivity|].
        right. exists data. split; [reflexivity | exact E].
    + eexists. split; [reflexivity|]. cbn. right. split; [reflexivity|].
      exists m. split; [reflexivity | left; reflexivity].
  - intros inflate JSON_parse JSON_stringify response. split.
    + intros resp compressed decompressed data -> Hok Hbuf Hinf Hparse.
      unfold Netlify.handler, Netlify.handler_try. cbn [andThen].
      rewrite Hok. cbn [negb andThen]. rewrite Hbuf. cbn [andThen].
      rewrite Hinf. cbn [rethrow andThen]. rewrite Hparse. reflexivity.
    + unfold Netlify.handler, Netlify.handler_try.
      destruct response as [resp|m0]; cbn [andThen].
      2:{ eexists. split; [reflexivity|]. cbn [Netlify.headers Netlify.statusCode Netlify.body].
          split; [left; reflexivity|]. right. split; [reflexivity|].
          exists m0. split; [reflexivity|]. left. reflexivity. }
      destruct (Netlify.ok resp) eqn:Hok; cbn [negb andThen].
      2:{ eexists. split; [reflexivity|]. cbn [Netlify.headers Netlify.statusCode Netlify.body].
          split; [left; reflexivity|]. right. split; [reflexivity|].
          eexists. split; [reflexivity|]. right. left.
          exists resp. repeat split. exact Hok. }
      destruct (Netlify.arrayBuffer resp) as [compressed|m1] eqn:Hbuf; cbn [andThen].
      2:{ eexists. split; [reflexivity|]. cbn [Netlify.headers Netlify.statusCode Netlify.body].
          split; [left; reflexivity|]. right. split; [reflexivity|].
          exists m1. split; [reflexivity|]. right. right. left.
          exists resp. repeat split; assumption. }
      destruct (inflate compressed) as [decompressed|m2] eqn:Hinf; cbn [rethrow andThen].
      2:{ eexists. split; [reflexivity|]. cbn [Netlify.headers Netlify.statusCode Netlify.body].
          split; [left; reflexivity|]. right. split; [reflexivity|].
          eexists. split; [reflexivity|]. right. right. right. left.
          exists resp, compressed, m2. repeat split; assumption. }
      destruct (JSON_parse decompressed) as [data|m3] eqn:Hparse; cbn [rethrow andThen].
      2:{ eexists. split; [reflexivity|]. cbn [Netlify.headers Netlify.statusCode Netlify.body].
          split; [left; reflexivity|]. right. split; [reflexivity|].
          eexists. split; [reflexivity|]. right. right. right. right.
          exists resp, compressed, decompressed, m3. repeat split; assumption. }
      eexists. split; [reflexivity|]. cbn [Netlify.headers Netlify.statusCode Netlify.body].
      split; [left; reflexivity|]. left. split; [reflexivity|].
      exists resp, compressed, decompressed, data. repeat split; assumption.
Qed.

(** A feed that answers 404 gives status 500 and the message of the error. *)
Example handler_not_found inflate JSON_parse JSON_stringify :
  let response :=
    Done {| Netlify.ok := false; Netlify.status := 404;
            Netlify.statusText := lit "Not Found";
            Netlify.arrayBuffer := Done [] |} in
  Netlify.handler inflate JSON_parse JSON_stringify response =
  Done {| Netlify.statusCode := 500;
          Netlify.headers := [("Content-Type", "application/json");
                              ("Access-Control-Allow-Origin", "*")];
          Netlify.body :=
            JSON_stringify
              (VObj [("error", VStr (lit "Failed to fetch GDELT data: 404 Not Found"))]) |}.
Proof. reflexivity. Qed.

End RouteTheorems.

(* ================================================================== *)
(** * The paraphrasing redaction *)
(* ================================================================== *)

Module ParaphraseFacts.
Import Js Spec.
Local Open Scope string_scope.
Local Open Scope list_scope.
Local Open Scope nat_scope.

(** A match ends inside the text it started in. *)
Lemma star_loop_suffix step :
  (forall p s q, In q (step p s) -> exists pre, s = pre ++ snd q) ->
  forall fuel p s q,
    In q (star_loop step fuel p s) -> exists pre, s = pre ++ snd q.
Proof.
  intros Hstep. induction fuel as [|fuel IH]; intros p s q Hin.
  - destruct Hin as [<-|[]]. exists []. reflexivity.
  - cbn [star_loop] in Hin. apply in_app_or in Hin. destruct Hin as [Hin|Hin].
    + apply in_flat_map in Hin. destruct Hin as (q1 & H1 & Hq).
      destruct (length (snd q1) <? length s); [|destruct Hq].
      destruct (Hstep _ _ _ H1) as [pre1 E1].
      destruct (IH _ _ _ Hq) as [pre2 E2].
      exists (pre1 ++ pre2). rewrite <- app_assoc, <- E2. exact E1.
    + destruct Hin as [<-|[]]. exists []. reflexivity.
Qed.

Lemma one_suffix f s q : In q (one f s) -> exists pre, s = pre ++ snd q.
Proof.
  destruct s as [|c s]; [intros []|]. simpl.
  destruct (f c); [|intros []]. intros [<-|[]]. exists [c]. reflexivity.
Qed.

Lemma run_suffix ic r :
  forall p s q, In q (run ic r p s) -> exists pre, s = pre ++ snd q.
Proof.
  induction r as [|c| | | | |a IHa b IHb|a IHa b IHb|a IHa]; intros p s q Hin;
    cbn [run] in Hin.
  - destruct Hin as [<-|[]]. exists []. reflexivity.
  - eapply one_suffix, Hin.
  - eapply one_suffix, Hin.
  - eapply one_suffix, Hin.
  - destruct (xorb _ _); [|destruct Hin].
    destruct Hin as [<-|[]]. exists []. reflexivity.
  - destruct p; [destruct Hin|]. destruct Hin as [<-|[]]. exists []. reflexivity.
  - apply in_flat_map in Hin. destruct Hin as (q1 & H1 & Hq).
    destruct (IHa _ _ _ H1) as [pre1 E1]. destruct (IHb _ _ _ Hq) as [pre2 E2].
    exists (pre1 ++ pre2). rewrite <- app_assoc, <- E2. exact E1.
  - apply in_app_or in Hin. destruct Hin as [Hin|Hin]; eauto.
  - eapply star_loop_suffix; [|exact Hin]. exact IHa.
Qed.

Lemma percent_then_word_suffix pre s :
  percent_then_word (pre ++ s) = false -> percent_then_word s = false.
Proof.
  induction pre as [|c pre IH]; [trivial|]. cbn [app percent_then_word].
  intros H. apply orb_false_iff in H. apply IH, H.
Qed.

Lemma flat_map_nil {A B} (f : A -> list B) l :
  (forall x, In x l -> f x = []) -> flat_map f l = [].
Proof.
  induction l as [|a l IH]; intros H; [reflexivity|]. simpl.
  rewrite (H a (or_introl eq_refl)), IH; [reflexivity|].
  intros x Hx. apply H. right. exact Hx.
Qed.

(** After [a], the rest [b] of a sequence is tried inside the same text. *)
Lemma run_seq_nil ic a b p s :
  percent_then_word s = false ->
  (forall p' s', percent_then_word s' = false -> run ic b p' s' = []) ->
  run ic (Seq a b) p s = [].
Proof.
  intros Hs Hb. cbn [run]. apply flat_map_nil. intros q Hq.
  destruct (run_suffix _ _ _ _ _ Hq) as [pre E].
  apply Hb. rewrite E in Hs. exact (percent_then_word_suffix _ _ Hs).
Qed.

(** [%\b] needs a word character right after the [%]. *)
Lemma run_percent_boundary p s :
  percent_then_word s = false -> run false (Seq (ch "%") WordB) p s = [].
Proof.
  intros H. destruct s as [|c s]; [reflexivity|].
  cbn [percent_then_word] in H. apply orb_false_iff in H. destruct H as [H _].
  cbn -[N.eqb word_after]. change (N_of_ascii "%") with 37%N.
  rewrite N.eqb_sym. destruct (N.eqb c 37) eqn:Ec; [|reflexivity].
  cbn [andb] in H. cbn -[word_after]. rewrite H.
  apply N.eqb_eq in Ec. subst c. reflexivity.
Qed.

Lemma run_percentage p s :
  percent_then_word s = false -> run false GDGParserXml.percentage p s = [].
Proof.
  intros H. unfold GDGParserXml.percentage.
  apply run_seq_nil; [exact H|]. intros p1 s1 H1.
  apply run_seq_nil; [exact H1|]. intros p2 s2 H2.
  apply run_seq_nil; [exact H2|]. intros p3 s3 H3.
  apply run_percent_boundary, H3.
Qed.

Lemma exec_percentage s :
  forall p, percent_then_word s = false ->
            exec false GDGParserXml.percentage p s = None.
Proof.
  induction s as [|c s IH]; intros p H; cbn [exec]; rewrite (run_percentage _ _ H).
  - reflexivity.
  - rewrite IH; [reflexivity|].
    exact (percent_then_word_suffix [c] s H).
Qed.

(** The first replacement leaves alone every text in which no [%] is
    directly followed by a word character. *)
Lemma percentage_unmatched repl text :
  percent_then_word text = false ->
  replace_all false GDGParserXml.percentage repl text = text.
Proof.
  intros H. unfold replace_all. cbn [replace_loop].
  rewrite (exec_percentage _ _ H). reflexivity.
Qed.

(** C2 fails on ordinary percentages.  The pattern for them ends in [\b]
    after the [%], so it needs a word character right after the [%]: a
    percentage followed by a space, by punctuation or by the end of the text
    is never replaced by [a percentage]; its digits become [several] and the
    [%] stays.  Only in a text like [15%x] does the first replacement apply. *)
Theorem C2_percentage_left_in_place :
  (forall text,
     percent_then_word text = false ->
     replace_all false GDGParserXml.percentage (lit "a percentage") text = text /\
     GDGParserXml.createRedactedVersion text =
       fold_left (fun redacted entry =>
                    replace_all true (bounded (word (fst entry))) (lit (snd entry)) redacted)
         GDGParserXml.wordReplacements
         (fold_left (fun redacted location =>
                       replace_all true (bounded (word location)) (lit "the region") redacted)
            GDGParserXml.locations
            (replace_all false (bounded (Plus Digit)) (lit "several") text))) /\
  GDGParserXml.createRedactedVersion
    (lit "Test scores show a 15% decline in student performance nationwide.")
  = lit "Test scores show a several% decline in student performance nationwide." /\
  GDGParserXml.createRedactedVersion
    (lit "Chemical levels in the water exceed federal safety standards by 300%.")
  = lit "Chemical levels in the water exceed federal safety standards by several%." /\
  GDGParserXml.createRedactedVersion (lit "up 2.5%") = lit "up several.several%" /\
  GDGParserXml.createRedactedVersion (lit "15%x and 2.5%_") = lit "a percentagex and a percentage_".
Proof.
  split.
  - intros text H. split; [apply percentage_unmatched, H|].
    unfold GDGParserXml.createRedactedVersion.
    rewrite (percentage_unmatched _ _ H). reflexivity.
  - repeat split; vm_compute; reflexivity.
Qed.

(** The other three steps on a text without percentages: numbers, then
    locations, then strong words. *)
Example paraphrase_example :
  GDGParserXml.createRedactedVersion
    (lit "In 2019 the crisis in SYRIA and Iraq was catastrophic; 3 talks failed.")
  = lit "In several the situation in the region and the region was significant; several talks did not meet expectations.".
Proof. vm_compute. reflexivity. Qed.

End ParaphraseFacts.

(* ================================================================== *)
(** * Further properties of the redaction: letter case, numbers, shape *)
(* ================================================================== *)

Module CaseFacts.
Import Js Spec CaseDefs.
Local Open Scope list_scope.
Local Open Scope nat_scope.

Ltac case_bounds :=
  unfold is_letter, is_word, is_digit, is_upper, is_lower, is_space, existsb in *;
  repeat match goal with
         | H : context [N.leb ?a ?b] |- _ => destruct (N.leb_spec a b)
         | |- context [N.leb ?a ?b] => destruct (N.leb_spec a b)
         | H : context [N.eqb ?a ?b] |- _ => destruct (N.eqb_spec a b)
         | |- context [N.eqb ?a ?b] => destruct (N.eqb_spec a b)
         end;
  cbn in *; try reflexivity; try discriminate; try lia; try (exfalso; lia).

Ltac by_case c :=
  unfold canon; destruct (is_lower c) eqn:?; case_bounds.

Lemma canon_idem c : canon (canon c) = canon c.
Proof. by_case c. Qed.

Lemma is_digit_canon c : is_digit (canon c) = is_digit c.
Proof. by_case c. Qed.

Lemma is_word_canon c : is_word (canon c) = is_word c.
Proof. by_case c. Qed.

Lemma is_space_range c : is_space c = true -> (c <= 32 \/ 160 <= c)%N.
Proof.
  unfold is_space. cbn [existsb].
  rewrite !orb_true_iff, !andb_true_iff, !N.eqb_eq, !N.leb_le. lia.
Qed.

Lemma is_lower_range c : is_lower c = true -> (97 <= c <= 122)%N.
Proof. unfold is_lower. rewrite andb_true_iff, !N.leb_le. tauto. Qed.

Lemma is_space_canon c : is_space (canon c) = is_space c.
Proof.
  unfold canon. destruct (is_lower c) eqn:E; [|reflexivity].
  apply is_lower_range in E.
  destruct (is_space c) eqn:H1; [apply is_space_range in H1; lia|].
  destruct (is_space (c - 32)) eqn:H2; [apply is_space_range in H2; lia|].
  reflexivity.
Qed.

Lemma chr_eqb_canon ic pat c :
  ic || negb (is_letter pat) = true ->
  chr_eqb ic pat (canon c) = chr_eqb ic pat c.
Proof.
  unfold chr_eqb. destruct ic; cbn [orb].
  - intros _. rewrite canon_idem. reflexivity.
  - intros H. apply negb_true_iff in H. by_case c.
Qed.

Lemma word_after_canon s : word_after (map canon s) = word_after s.
Proof. destruct s as [|c s]; [reflexivity|]. apply is_word_canon. Qed.

Lemma word_before_canon p : word_before (option_map canon p) = word_before p.
Proof. destruct p as [c|]; [apply is_word_canon | reflexivity]. Qed.

Lemma one_canon f s :
  (forall c, f (canon c) = f c) ->
  one f (map canon s) = map canon_pos (one f s).
Proof.
  intros Hf. destruct s as [|c s]; [reflexivity|]. cbn [map one].
  rewrite Hf. destruct (f c); reflexivity.
Qed.

Lemma flat_map_canon (f : pos -> list pos) l :
  (forall q, f (canon_pos q) = map canon_pos (f q)) ->
  flat_map f (map canon_pos l) = map canon_pos (flat_map f l).
Proof.
  intros Hf. induction l as [|q l IH]; [reflexivity|].
  cbn [map flat_map]. rewrite map_app, Hf, IH. reflexivity.
Qed.

Lemma star_loop_canon step :
  (forall p s, step (option_map canon p) (map canon s) = map canon_pos (step p s)) ->
  forall fuel p s,
    star_loop step fuel (option_map canon p) (map canon s)
    = map canon_pos (star_loop step fuel p s).
Proof.
  intros Hstep. induction fuel as [|fuel IH]; intros p s; [reflexivity|].
  cbn [star_loop]. rewrite map_app, Hstep. f_equal.
  rewrite length_map. apply flat_map_canon. intros q.
  unfold canon_pos at 1 2. cbn [fst snd]. rewrite length_map.
  destruct (length (snd q) <? length s); [apply IH | reflexivity].
Qed.

(** Matching does not look at letter case: the matcher runs on the
    canonicalized text as it runs on the text. *)
Lemma run_canon ic r :
  ic || letter_free r = true ->
  forall p s,
    run ic r (option_map canon p) (map canon s) = map canon_pos (run ic r p s).
Proof.
  induction r as [|c| | | | |a IHa b IHb|a IHa b IHb|a IHa]; intros Hr p s;
    cbn [run letter_free] in *.
  - reflexivity.
  - apply one_canon. intros x. apply chr_eqb_canon, Hr.
  - apply one_canon, is_digit_canon.
  - apply one_canon, is_space_canon.
  - rewrite word_before_canon, word_after_canon.
    destruct (xorb _ _); reflexivity.
  - destruct p; reflexivity.
  - assert (Ha : ic || letter_free a = true) by (destruct ic; [reflexivity|];
      cbn in Hr |- *; apply andb_true_iff in Hr; tauto).
    assert (Hb : ic || letter_free b = true) by (destruct ic; [reflexivity|];
      cbn in Hr |- *; apply andb_true_iff in Hr; tauto).
    rewrite (IHa Ha). apply flat_map_canon. intros q. apply (IHb Hb (fst q) (snd q)).
  - assert (Ha : ic || letter_free a = true) by (destruct ic; [reflexivity|];
      cbn in Hr |- *; apply andb_true_iff in Hr; tauto).
    assert (Hb : ic || letter_free b = true) by (destruct ic; [reflexivity|];
      cbn in Hr |- *; apply andb_true_iff in Hr; tauto).
    rewrite map_app, (IHa Ha), (IHb Hb). reflexivity.
  - rewrite length_map. apply star_loop_canon. intros p' s'. apply (IHa Hr).
Qed.

Lemma exec_canon ic r :
  ic || letter_free r = true ->
  forall s p,
    exec ic r (option_map canon p) (map canon s)
    = option_map (fun found => (map canon (fst found), canon_pos (snd found)))
                 (exec ic r p s).
Proof.
  intros Hr. induction s as [|c s IH]; intros p; cbn [exec map].
  - pose proof (@run_canon ic r Hr p []) as E. cbn [map] in E. rewrite E.
    destruct (run ic r p []); reflexivity.
  - pose proof (@run_canon ic r Hr p (c :: s)) as E. cbn [map] in E. rewrite E.
    destruct (run ic r p (c :: s)) as [|m ms]; [|reflexivity].
    cbn [map]. change (Some (canon c)) with (option_map canon (Some c)).
    rewrite (IH (Some c)).
    destruct (exec ic r (Some c) s) as [[sk m]|]; reflexivity.
Qed.

Lemma test_canon ic r s :
  ic || letter_free r = true -> test ic r (map canon s) = test ic r s.
Proof.
  intros Hr. unfold test.
  change (@None N) with (option_map canon (@None N)) at 1.
  rewrite (@exec_canon ic r Hr s None).
  destruct (exec ic r None s); reflexivity.
Qed.

Lemma case_blind_patterns : forallb case_blind GDGParser.sensitivePatterns = true.
Proof. vm_compute. reflexivity. Qed.

Lemma existsb_ext_in {A} (f g : A -> bool) l :
  (forall x, In x l -> f x = g x) -> existsb f l = existsb g l.
Proof.
  induction l as [|a l IH]; intros H; [reflexivity|]. cbn [existsb].
  rewrite (H a (or_introl eq_refl)), IH; [reflexivity|].
  intros x Hx. apply H. right. exact Hx.
Qed.

Lemma sensitive_canon w : GDGParser.sensitive (map canon w) = GDGParser.sensitive w.
Proof.
  unfold GDGParser.sensitive. apply existsb_ext_in. intros pattern Hin.
  apply test_canon.
  exact (proj1 (forallb_forall _ _) case_blind_patterns pattern Hin).
Qed.

Lemma tokens_canon s :
  forall inws, tokens inws (map canon s) = map (map canon) (tokens inws s).
Proof.
  induction s as [|c s IH]; intros inws; [reflexivity|].
  cbn [map tokens]. rewrite is_space_canon. destruct (is_space c).
  - destruct inws; rewrite IH; reflexivity.
  - rewrite IH. destruct (tokens false s); reflexivity.
Qed.

(** X1.  Letter case never decides what is redacted: a token and its upper-case
    form are redacted or kept together, so two texts that differ in letter
    case only have the placeholder at the same tokens. *)
Theorem redaction_ignores_letter_case :
  (forall w, GDGParser.sensitive (map canon w) = GDGParser.sensitive w) /\
  (forall w, Sketch.sensitive (map canon w) = Sketch.sensitive w) /\
  (forall t, map GDGParser.sensitive (fields (map canon t))
             = map GDGParser.sensitive (fields t)) /\
  (forall t u, map canon t = map canon u ->
               map GDGParser.sensitive (fields t) = map GDGParser.sensitive (fields u)).
Proof.
  assert (H3 : forall t, map GDGParser.sensitive (fields (map canon t))
                         = map GDGParser.sensitive (fields t)).
  { intros t. unfold fields. rewrite tokens_canon, map_map.
    apply map_ext. exact sensitive_canon. }
  split; [exact sensitive_canon|]. split; [exact sensitive_canon|].
  split; [exact H3|].
  intros t u E. rewrite <- (H3 t), <- (H3 u), E. reflexivity.
Qed.

(** *** Numbers *)

Lemma in_run_seq ic a b p s q1 q :
  In q1 (run ic a p s) -> In q (run ic b (fst q1) (snd q1)) ->
  In q (run ic (Seq a b) p s).
Proof. intros H1 H2. cbn [run]. apply in_flat_map. exists q1. split; assumption. Qed.

Lemma star_digits step s :
  (forall p s, step p s = one is_digit s) ->
  forall fuel p,
    forallb is_digit s = true -> length s < fuel -> word_before p = true ->
    exists p', In (p', []) (star_loop step fuel p s) /\ word_before p' = true.
Proof.
  intros Hstep. induction s as [|c s IH]; intros fuel p Hd Hf Hp;
    (destruct fuel as [|fuel]; [simpl in Hf; lia|]); cbn [star_loop].
  - exists p. split; [apply in_or_app; right; left; reflexivity | exact Hp].
  - cbn [forallb] in Hd. apply andb_true_iff in Hd. destruct Hd as [Hc Hs].
    rewrite Hstep. cbn [one]. rewrite Hc. cbn [flat_map fst snd].
    replace (length s <? length (c :: s)) with true
      by (symmetry; apply Nat.ltb_lt; simpl; lia).
    destruct (IH fuel (Some c) Hs ltac:(simpl in Hf; lia)) as (p' & Hin & Hp').
    { cbn. unfold is_word. rewrite Hc. reflexivity. }
    exists p'. split; [|exact Hp']. apply in_or_app. left.
    apply in_or_app. left. exact Hin.
Qed.

Lemma is_digit_word c : is_digit c = true -> is_word c = true.
Proof. intros H. unfold is_word. rewrite H. reflexivity. Qed.

(** The number pattern matches every non-empty run of digits. *)
Lemma number_matches w :
  w <> [] -> forallb is_digit w = true -> test false numberPattern w = true.
Proof.
  destruct w as [|c s]; [congruence|]. intros _ Hd.
  cbn [forallb] in Hd. apply andb_true_iff in Hd. destruct Hd as [Hc Hs].
  assert (Hrun : exists p', In (p', []) (run false numberPattern None (c :: s))).
  { destruct (star_digits (run false Digit) s (fun _ _ => eq_refl)
                (fuel := S (length s)) (Some c) Hs ltac:(lia))
      as (p' & Hin & Hp'); [apply (is_digit_word _ Hc)|].
    exists p'. unfold numberPattern, bounded.
    apply in_run_seq with (q1 := (None, c :: s)).
    { cbn [run word_before word_after]. rewrite (is_digit_word _ Hc). left. reflexivity. }
    apply in_run_seq with (q1 := (p', [])).
    - apply in_run_seq with (q1 := (p', [])).
      + unfold Plus. apply in_run_seq with (q1 := (Some c, s)).
        * cbn [run one fst snd]. rewrite Hc. left. reflexivity.
        * exact Hin.
      + apply in_run_seq with (q1 := (p', [])); left; reflexivity.
    - cbn [run fst snd word_after]. rewrite Hp'. left. reflexivity. }
  destruct Hrun as [p' Hin]. unfold test. cbn [exec].
  destruct (run false numberPattern None (c :: s)); [destruct Hin | reflexivity].
Qed.

Lemma is_digit_nospace w : forallb is_digit w = true -> nospace w.
Proof.
  unfold nospace. induction w as [|c w IH]; [reflexivity|]. cbn [forallb].
  intros H. apply andb_true_iff in H. destruct H as [Hc Hw].
  rewrite (IH Hw), andb_true_r. apply negb_true_iff.
  destruct (is_space c) eqn:E; [|reflexivity].
  apply is_space_range in E. unfold is_digit in Hc.
  apply andb_true_iff in Hc. rewrite !N.leb_le in Hc. lia.
Qed.

(** X2.  A text that is one number written in digits is redacted whole. *)
Theorem digits_are_redacted (w : jsstring) :
  w <> [] -> forallb is_digit w = true ->
  GDGParser.sensitive w = true /\
  GDGParser.createRedactedVersion w = lit "[REDACTED]" /\
  Sketch.createRedactedVersion w = lit "[REDACTED]".
Proof.
  intros Hne Hd.
  assert (Hs : GDGParser.sensitive w = true).
  { unfold GDGParser.sensitive. apply existsb_exists.
    exists (false, numberPattern). split; [|exact (number_matches Hne Hd)].
    unfold GDGParser.sensitivePatterns. do 10 right. left. reflexivity. }
  assert (Hp : placeholderRedaction w = lit "[REDACTED]").
  { unfold placeholderRedaction, fields.
    rewrite (RedactionFacts.tokens_single (is_digit_nospace _ Hd)).
    cbn [map join]. unfold redactToken.
    change (existsb _ GDGParser.sensitivePatterns) with (GDGParser.sensitive w).
    rewrite Hs. reflexivity. }
  split; [exact Hs|]. split.
  - rewrite RedactionFacts.parser_redaction. exact Hp.
  - rewrite RedactionFacts.sketch_redaction. destruct w; [congruence | exact Hp].
Qed.

Lemma digits_are_redacted_witness :
  GDGParser.sensitive (lit "2024") = true /\
  GDGParser.createRedactedVersion (lit "2024") = lit "[REDACTED]" /\
  Sketch.createRedactedVersion (lit "2024") = lit "[REDACTED]".
Proof.
  apply (@digits_are_redacted (lit "2024")); [discriminate | reflexivity].
Defined.

End CaseFacts.

Module OutputFacts.
Import Js Spec JsFacts RedactionFacts.
Local Open Scope list_scope.
Local Open Scope nat_scope.

Lemma inner_ok_nospace l : inner_ok l -> Forall nospace l.
Proof.
  induction l as [|w l IH]; [constructor|]. intros [Hw Hrest].
  constructor; [exact Hw|]. destruct l as [|x l]; [constructor|].
  apply IH, Hrest.
Qed.

Lemma normal_nospace l : normal l -> Forall nospace l.
Proof.
  destruct l as [|w l]; [intros []|]. intros [Hw Hok].
  constructor; [exact Hw | apply inner_ok_nospace, Hok].
Qed.

Lemma in_join sep l c :
  In c (join sep l) -> In c sep \/ exists w, In w l /\ In c w.
Proof.
  induction l as [|x l IH]; [intros []|].
  destruct l as [|y l].
  - intros H. right. exists x. split; [left; reflexivity | exact H].
  - change (join sep (x :: y :: l)) with (x ++ sep ++ join sep (y :: l)).
    intros H. apply in_app_or in H. destruct H as [H|H].
    + right. exists x. split; [left; reflexivity | exact H].
    + apply in_app_or in H. destruct H as [H|H]; [left; exact H|].
      destruct (IH H) as [Hs | (w & Hw & Hc)]; [left; exact Hs|].
      right. exists w. split; [right; exact Hw | exact Hc].
Qed.

Lemma nospace_in w c : nospace w -> In c w -> is_space c = false.
Proof.
  unfold nospace. intros H Hin.
  apply negb_true_iff. exact (proj1 (forallb_forall _ w) H c Hin).
Qed.

(** X3.  The redacted text has the tokens of the text, one for one: each is the
    token itself or the placeholder, so the number of tokens is kept. *)
Theorem redaction_keeps_the_tokens (t : jsstring) :
  fields (GDGParser.createRedactedVersion t) = map redactToken (fields t) /\
  length (fields (GDGParser.createRedactedVersion t)) = length (fields t) /\
  Forall2 (fun w w' => w' = w \/ w' = lit "[REDACTED]")
          (fields t) (fields (GDGParser.createRedactedVersion t)).
Proof.
  assert (E : fields (GDGParser.createRedactedVersion t) = map redactToken (fields t)).
  { rewrite parser_redaction. unfold placeholderRedaction.
    apply tokens_join, map_redact_normal, fields_normal. }
  split; [exact E|]. rewrite E. split; [apply length_map|]. clear E.
  induction (fields t) as [|w l IH]; [constructor|].
  cbn [map]. constructor; [|exact IH].
  unfold redactToken. destruct (existsb _ _); [right | left]; reflexivity.
Qed.

(** X4.  The only whitespace of a redacted text is the single space: whatever
    run of tabs, line breaks or other spaces separated two tokens of the
    text, one U+0020 separates them in the result. *)
Theorem redaction_normalizes_whitespace (t : jsstring) (c : N) :
  (In c (GDGParser.createRedactedVersion t) -> is_space c = true -> c = 32%N) /\
  (In c (Sketch.createRedactedVersion t) -> is_space c = true -> c = 32%N).
Proof.
  assert (H : In c (placeholderRedaction t) -> is_space c = true -> c = 32%N).
  { unfold placeholderRedaction. intros Hin Hc.
    destruct (@in_join _ _ _ Hin) as [[<-|[]] | (w & Hw & Hcw)]; [reflexivity|].
    pose proof (@normal_nospace _ (@map_redact_normal _ (fields_normal t))) as Hall.
    rewrite Forall_forall in Hall.
    rewrite (@nospace_in w c (Hall w Hw) Hcw) in Hc. discriminate. }
  split.
  - rewrite parser_redaction. exact H.
  - rewrite sketch_redaction. destruct t as [|x t]; [|exact H].
    cbn [is_nil]. intros Hin Hc.
    assert (Hb : forallb (fun c => negb (is_space c) || (c =? 32)%N)
                         (lit "Information redacted") = true) by (vm_compute; reflexivity).
    pose proof (proj1 (forallb_forall _ _) Hb c Hin) as Hx.
    cbv beta in Hx. rewrite Hc in Hx. cbn [negb orb] in Hx. apply N.eqb_eq, Hx.
Qed.

End OutputFacts.

(* ================================================================== *)
(** * [cleanText] *)
(* ================================================================== *)

Unset Implicit Arguments.

Module CleanFacts.
Import Js Spec JsFacts CleanDefs.
Local Open Scope string_scope.
Local Open Scope list_scope.
Local Open Scope nat_scope.

(** *** The two global replacements *)

Lemma cut_spec f s :
  match cut f s with
  | Some (pre, x, rest) =>
      s = pre ++ x :: rest /\ f x = true /\ forallb (fun c => negb (f c)) pre = true
  | None => forallb (fun c => negb (f c)) s = true
  end.
Proof.
  induction s as [|c s IH]; [reflexivity|]. cbn [cut].
  destruct (f c) eqn:E.
  - repeat split. exact E.
  - destruct (cut f s) as [[[pre x] rest]|].
    + destruct IH as (-> & Hx & Hpre). repeat split; [exact Hx|].
      cbn [forallb]. rewrite E. exact Hpre.
    + cbn [forallb]. rewrite E. exact IH.
Qed.

(** [exec] for a pattern that matches one code unit of a class. *)
Lemma exec_one ic r f :
  (forall p s, run ic r p s = one f s) ->
  forall s p,
    exec ic r p s =
    match cut f s with
    | Some (pre, x, rest) => Some (pre, (Some x, rest))
    | None => None
    end.
Proof.
  intros Hr. induction s as [|c s IH]; intros p; cbn [exec cut]; rewrite Hr.
  - reflexivity.
  - cbn [one]. destruct (f c); [reflexivity|].
    rewrite IH. destruct (cut f s) as [[[pre x] rest]|]; reflexivity.
Qed.

Lemma flat_map_unmatched (f : N -> bool) repl s :
  forallb (fun c => negb (f c)) s = true ->
  flat_map (fun c => if f c then repl else [c]) s = s.
Proof.
  induction s as [|c s IH]; [reflexivity|]. cbn [forallb flat_map].
  intros H. apply andb_true_iff in H. destruct H as [Hc Hs].
  apply negb_true_iff in Hc. rewrite Hc, (IH Hs). reflexivity.
Qed.

(** A global replacement of single code units replaces each of them. *)
Lemma replace_loop_one ic r f repl :
  (forall p s, run ic r p s = one f s) ->
  forall fuel s p,
    length s < fuel ->
    replace_loop fuel ic r repl p s
    = flat_map (fun c => if f c then repl else [c]) s.
Proof.
  intros Hr. induction fuel as [|fuel IH]; intros s p Hf; [lia|].
  cbn [replace_loop]. rewrite (exec_one ic r f Hr).
  pose proof (cut_spec f s) as Hcut.
  destruct (cut f s) as [[[pre x] rest]|].
  - destruct Hcut as (-> & Hx & Hpre). cbn [fst snd].
    replace (length rest + length pre =? length (pre ++ x :: rest)) with false
      by (symmetry; apply Nat.eqb_neq; rewrite length_app; simpl; lia).
    rewrite IH by (rewrite length_app in Hf; simpl in Hf; lia).
    rewrite flat_map_app. cbn [flat_map]. rewrite Hx.
    rewrite (flat_map_unmatched _ _ _ Hpre). reflexivity.
  - symmetry. apply flat_map_unmatched, Hcut.
Qed.

(** [text.replace(/\n/g, ' ')] *)
Lemma replace_newlines s : replace_all false (Chr 10) (lit " ") s = unbreak s.
Proof.
  unfold replace_all.
  rewrite (replace_loop_one false (Chr 10) (N.eqb 10) (lit " ")) by (reflexivity || lia).
  unfold unbreak. induction s as [|c s IH]; [reflexivity|].
  cbn [flat_map map]. rewrite IH. destruct (N.eqb 10 c); reflexivity.
Qed.

Lemma collapse_true s : collapse true s = collapse false (trim_start s).
Proof.
  induction s as [|c s IH]; [reflexivity|]. cbn [collapse trim_start].
  destruct (is_space c) eqn:E; [exact IH|]. cbn [collapse]. rewrite E. reflexivity.
Qed.

Lemma collapse_unmatched pre s :
  forallb (fun c => negb (is_space c)) pre = true ->
  collapse false (pre ++ s) = pre ++ collapse false s.
Proof.
  induction pre as [|c pre IH]; [reflexivity|]. cbn [forallb app collapse].
  intros H. apply andb_true_iff in H. destruct H as [Hc Hs].
  apply negb_true_iff in Hc. rewrite Hc, (IH Hs). reflexivity.
Qed.

Lemma exec_spaces ic :
  forall s p,
    exec ic (Plus Space) p s =
    match cut is_space s with
    | Some (pre, x, rest) => Some (pre, skip (Some x) rest)
    | None => None
    end.
Proof.
  induction s as [|c s IH]; intros p; [reflexivity|].
  cbn [exec cut]. destruct (is_space c) eqn:E.
  - destruct (@run_spaces_head ic p c s E) as [tl ->]. reflexivity.
  - rewrite (@run_spaces_other ic p c s E), IH.
    destruct (cut is_space s) as [[[pre x] rest]|]; reflexivity.
Qed.

(** [text.replace(/\s+/g, ' ')] puts one space for each run of whitespace. *)
Lemma replace_loop_spaces ic :
  forall fuel s p,
    length s < fuel ->
    replace_loop fuel ic (Plus Space) (lit " ") p s = collapse false s.
Proof.
  induction fuel as [|fuel IH]; intros s p Hf; [lia|].
  cbn [replace_loop]. rewrite exec_spaces.
  pose proof (cut_spec is_space s) as Hcut.
  destruct (cut is_space s) as [[[pre x] rest]|].
  - destruct Hcut as (-> & Hx & Hpre). rewrite snd_skip.
    pose proof (length_trim_start rest) as Hl.
    replace (length (trim_start rest) + length pre =? length (pre ++ x :: rest))
      with false
      by (symmetry; apply Nat.eqb_neq; rewrite length_app; simpl; lia).
    rewrite IH by (rewrite length_app in Hf; simpl in Hf; lia).
    rewrite (collapse_unmatched _ _ Hpre). cbn [collapse]. rewrite Hx.
    rewrite collapse_true. reflexivity.
  - rewrite <- (app_nil_r s) at 2. rewrite (collapse_unmatched _ _ Hcut).
    cbn [collapse]. rewrite app_nil_r. reflexivity.
Qed.

Lemma replace_spaces s : replace_all false (Plus Space) (lit " ") s = collapse false s.
Proof. unfold replace_all. apply replace_loop_spaces. lia. Qed.

(** What [cleanText] computes, in plain terms. *)
Lemma cleanText_unfold text :
  GDGParserXml.cleanText text =
  if is_nil text then []
  else let cleaned := trim (collapse false (unbreak text)) in
       if length cleaned <? 10 then cleaned ++ lit " [content redacted]" else cleaned.
Proof.
  unfold GDGParserXml.cleanText. rewrite replace_newlines, replace_spaces. reflexivity.
Qed.

(** *** Tidy texts *)

Lemma tidyb_tail p c s : tidyb p (c :: s) = true -> tidyb (is_space c) s = true.
Proof.
  cbn [tidyb]. destruct (is_space c); [|trivial].
  intros H. apply andb_true_iff in H. apply H.
Qed.

Lemma tidyb_app x : forall p y,
  tidyb p (x ++ y) = tidyb p x && tidyb (last_ws p x) y.
Proof.
  induction x as [|c x IH]; intros p y; [reflexivity|].
  cbn [app tidyb]. unfold last_ws. cbn [fold_left].
  destruct (is_space c).
  - rewrite IH. unfold last_ws. rewrite <- !andb_assoc. reflexivity.
  - rewrite IH. reflexivity.
Qed.

Lemma tidyb_prefix p x y : tidyb p (x ++ y) = true -> tidyb p x = true.
Proof. rewrite tidyb_app. intros H. apply andb_true_iff in H. apply H. Qed.

Lemma tidyb_collapse s : forall p, tidyb p (collapse p s) = true.
Proof.
  induction s as [|c s IH]; intros p; [reflexivity|]. cbn [collapse].
  destruct (is_space c) eqn:E.
  - destruct p; [apply IH|]. cbn [tidyb].
    change (is_space 32) with true. cbv iota. rewrite IH. reflexivity.
  - cbn [tidyb]. rewrite E. apply IH.
Qed.

Lemma tidyb_trim_start s : forall p, tidyb p s = true -> tidyb false (trim_start s) = true.
Proof.
  induction s as [|c s IH]; intros p H; [reflexivity|]. cbn [trim_start].
  destruct (is_space c) eqn:E.
  - apply (IH true). apply tidyb_tail in H. rewrite E in H. exact H.
  - cbn [tidyb] in H |- *. rewrite E in H |- *. exact H.
Qed.

Lemma first_ws_trim_start s : first_ws (trim_start s) = false.
Proof.
  induction s as [|c s IH]; [reflexivity|]. cbn [trim_start].
  destruct (is_space c) eqn:E; [exact IH | exact E].
Qed.

Lemma last_ws_snoc p x c : last_ws p (x ++ [c]) = is_space c.
Proof. unfold last_ws. rewrite fold_left_app. reflexivity. Qed.

Lemma last_ws_rev p z :
  last_ws p (rev z) = match z with [] => p | c :: _ => is_space c end.
Proof. destruct z as [|c z]; [reflexivity|]. cbn [rev]. apply last_ws_snoc. Qed.

(** [trim] cuts a piece out of the text. *)
Lemma trim_decomposition s :
  trim_start s = trim s ++ rev (take_blank (rev (trim_start s))).
Proof.
  unfold trim. rewrite <- rev_app_distr.
  rewrite <- RedactionFacts.take_blank_trim_start. symmetry. apply rev_involutive.
Qed.

Lemma tidyb_trim p s : tidyb p s = true -> tidyb false (trim s) = true.
Proof.
  intros H. apply tidyb_trim_start in H. rewrite trim_decomposition in H.
  exact (tidyb_prefix _ _ _ H).
Qed.

Lemma last_ws_trim s : last_ws false (trim s) = false.
Proof.
  unfold trim. rewrite last_ws_rev.
  pose proof (first_ws_trim_start (rev (trim_start s))) as H.
  destruct (trim_start (rev (trim_start s))); [reflexivity | exact H].
Qed.

Lemma first_ws_trim s : first_ws (trim s) = false.
Proof.
  pose proof (first_ws_trim_start s) as H. rewrite trim_decomposition in H.
  destruct (trim s); [reflexivity | exact H].
Qed.

Lemma trim_fixed x : first_ws x = false -> last_ws false x = false -> trim x = x.
Proof.
  intros Hf Hl. unfold trim.
  assert (E1 : trim_start x = x).
  { destruct x as [|c x]; [reflexivity|]. cbn in Hf |- *. rewrite Hf. reflexivity. }
  rewrite E1.
  assert (E2 : trim_start (rev x) = rev x).
  { pose proof (last_ws_rev false (rev x)) as H. rewrite rev_involutive, Hl in H.
    destruct (rev x) as [|c y]; [reflexivity|]. cbn [trim_start]. rewrite <- H.
    reflexivity. }
  rewrite E2. apply rev_involutive.
Qed.

Lemma tidyb_space_is_32 s : forall p c,
  tidyb p s = true -> In c s -> is_space c = true -> c = 32%N.
Proof.
  induction s as [|x s IH]; intros p c H Hin Hc; [destruct Hin|].
  destruct Hin as [->|Hin].
  - cbn [tidyb] in H. rewrite Hc in H.
    apply andb_true_iff in H. destruct H as [H _].
    apply andb_true_iff in H. destruct H as [H _]. apply N.eqb_eq, H.
  - exact (IH _ c (tidyb_tail _ _ _ H) Hin Hc).
Qed.

Lemma unbreak_tidy s : forall p, tidyb p s = true -> unbreak s = s.
Proof.
  unfold unbreak. induction s as [|c s IH]; intros p H; [reflexivity|].
  cbn [map]. rewrite (IH _ (tidyb_tail _ _ _ H)). f_equal.
  destruct (N.eqb_spec 10 c) as [<-|]; [|reflexivity].
  cbn in H. discriminate.
Qed.

Lemma collapse_tidy s : forall p, tidyb p s = true -> collapse p s = s.
Proof.
  induction s as [|c s IH]; intros p H; [reflexivity|].
  pose proof (tidyb_tail _ _ _ H) as Ht. cbn [collapse tidyb] in *.
  destruct (is_space c) eqn:E.
  - apply andb_true_iff in H. destruct H as [H _].
    apply andb_true_iff in H. destruct H as [H32 Hp].
    apply negb_true_iff in Hp. subst p. apply N.eqb_eq in H32. subst c.
    rewrite (IH true Ht). reflexivity.
  - rewrite (IH false Ht). reflexivity.
Qed.

(** *** Ink *)

Lemma has_ink_nonempty s : has_ink s -> s <> [].
Proof. intros (c & Hin & _) ->. destruct Hin. Qed.

Lemma has_ink_unbreak s : has_ink s -> has_ink (unbreak s).
Proof.
  intros (c & Hin & Hc). exists c. split; [|exact Hc].
  unfold unbreak. apply in_map_iff. exists c. split; [|exact Hin].
  destruct (N.eqb_spec 10 c) as [<-|]; [discriminate Hc | reflexivity].
Qed.

Lemma has_ink_collapse s : forall p, has_ink s -> has_ink (collapse p s).
Proof.
  induction s as [|x s IH]; intros p (c & Hin & Hc); [destruct Hin|].
  cbn [collapse]. destruct Hin as [->|Hin].
  - rewrite Hc. exists c. split; [left; reflexivity | exact Hc].
  - assert (Hs : has_ink s) by (exists c; split; assumption).
    destruct (is_space x); [destruct p|].
    + exact (IH true Hs).
    + destruct (IH true Hs) as (d & Hd & Hdc).
      exists d. split; [right; exact Hd | exact Hdc].
    + destruct (IH false Hs) as (d & Hd & Hdc).
      exists d. split; [right; exact Hd | exact Hdc].
Qed.

Lemma has_ink_trim_start s : has_ink s -> has_ink (trim_start s).
Proof.
  induction s as [|x s IH]; intros (c & Hin & Hc); [destruct Hin|].
  cbn [trim_start]. destruct (is_space x) eqn:E.
  - apply IH. destruct Hin as [->|Hin]; [congruence|]. exists c. split; assumption.
  - exists c. split; assumption.
Qed.

Lemma has_ink_rev s : has_ink s -> has_ink (rev s).
Proof. intros (c & Hin & Hc). exists c. split; [apply in_rev in Hin; exact Hin | exact Hc]. Qed.

Lemma has_ink_trim s : has_ink s -> has_ink (trim s).
Proof.
  intros H. unfold trim.
  apply has_ink_rev, has_ink_trim_start, has_ink_rev, has_ink_trim_start, H.
Qed.

(** *** The cleaned text *)

Lemma cleaned_tidy text :
  tidyb false (cleaned text) = true /\
  first_ws (cleaned text) = false /\ last_ws false (cleaned text) = false.
Proof.
  unfold cleaned. split; [|split].
  - apply (tidyb_trim false), tidyb_collapse.
  - apply first_ws_trim.
  - apply last_ws_trim.
Qed.

Lemma suffix_facts x :
  last_ws false x = false -> tidyb false x = true ->
  tidyb false (x ++ lit " [content redacted]") = true /\
  last_ws false (x ++ lit " [content redacted]") = false /\
  19 <= length (x ++ lit " [content redacted]").
Proof.
  intros Hl Ht. split; [|split].
  - rewrite tidyb_app, Ht, Hl. reflexivity.
  - unfold last_ws. rewrite fold_left_app. reflexivity.
  - rewrite length_app. cbn. lia.
Qed.

Lemma cleanText_cleaned text :
  GDGParserXml.cleanText text =
  if is_nil text then []
  else if length (cleaned text) <? 10
       then cleaned text ++ lit " [content redacted]" else cleaned text.
Proof. apply cleanText_unfold. Qed.

(** What every result of [cleanText] on a non-empty text has. *)
Lemma cleanText_facts text :
  text <> [] ->
  let out := GDGParserXml.cleanText text in
  tidyb false out = true /\ last_ws false out = false /\ 10 <= length out /\
  (has_ink text -> first_ws out = false) /\ has_ink out.
Proof.
  intros Hne. cbv zeta. rewrite cleanText_cleaned.
  destruct text as [|c0 text]; [congruence|]. cbn [is_nil].
  set (x := cleaned (c0 :: text)).
  destruct (cleaned_tidy (c0 :: text)) as (Ht & Hf & Hl). fold x in Ht, Hf, Hl.
  assert (Hink : has_ink (c0 :: text) -> x <> []).
  { intros H. apply has_ink_nonempty. unfold x, cleaned.
    apply has_ink_trim, has_ink_collapse, has_ink_unbreak, H. }
  assert (Hhead : x <> [] -> has_ink x).
  { destruct x as [|c x']; [congruence|]. intros _.
    exists c. split; [left; reflexivity | exact Hf]. }
  destruct (Nat.ltb_spec (length x) 10) as [Hlt|Hge].
  - destruct (suffix_facts x Hl Ht) as (H1 & H2 & H3).
    split; [exact H1|]. split; [exact H2|]. split; [lia|]. split.
    + intros H. specialize (Hink H). destruct x; [congruence | exact Hf].
    + exists 91%N. split; [|reflexivity]. apply in_or_app. right.
      right. left. reflexivity.
  - split; [exact Ht|]. split; [exact Hl|]. split; [exact Hge|].
    split; [intros _; exact Hf|]. apply Hhead. destruct x; [simpl in Hge; lia | discriminate].
Qed.

(** X5.  [cleanText] gives the empty text for the empty text only, and else a
    text of at least 10 code units; its only whitespace is the single
    U+0020, never twice in a row and never at the end, so it holds no line
    break. *)
Theorem cleanText_shape (text : jsstring) :
  let out := GDGParserXml.cleanText text in
  (if is_nil text then out = [] else 10 <= length out) /\
  tidyb false out = true /\
  last_ws false out = false /\
  (forall c, In c out -> is_space c = true -> c = 32%N).
Proof.
  cbv zeta. destruct text as [|c0 text].
  - repeat split. intros c [].
  - destruct (cleanText_facts (c0 :: text) ltac:(discriminate)) as (Ht & Hl & Hlen & _).
    cbn [is_nil]. split; [exact Hlen|]. split; [exact Ht|]. split; [exact Hl|].
    intros c. apply (tidyb_space_is_32 _ false c Ht).
Qed.

(** X6.  Cleaning a cleaned text changes nothing, for every text that holds
    something other than whitespace. *)
Theorem cleanText_idempotent (text : jsstring) :
  has_ink text ->
  GDGParserXml.cleanText (GDGParserXml.cleanText text) = GDGParserXml.cleanText text.
Proof.
  intros Hink.
  destruct (cleanText_facts text (has_ink_nonempty _ Hink)) as (Ht & Hl & Hlen & Hf & Hout).
  specialize (Hf Hink).
  set (out := GDGParserXml.cleanText text) in *.
  rewrite (cleanText_cleaned out).
  assert (E : cleaned out = out).
  { unfold cleaned. rewrite (unbreak_tidy _ _ Ht), (collapse_tidy _ _ Ht).
    apply trim_fixed; assumption. }
  rewrite E. destruct out as [|c out']; [simpl in Hlen; lia|]. cbn [is_nil].
  destruct (Nat.ltb_spec (length (c :: out')) 10); [lia | reflexivity].
Qed.

Lemma cleanText_idempotent_witness :
  GDGParserXml.cleanText (GDGParserXml.cleanText (lit "  a
 b  "))
  = GDGParserXml.cleanText (lit "  a
 b  ").
Proof.
  apply cleanText_idempotent. exists 97%N. split; [|reflexivity].
  right. right. left. reflexivity.
Defined.

Lemma collapse_blank s :
  forallb is_space s = true -> collapse true s = [].
Proof.
  induction s as [|c s IH]; [reflexivity|]. cbn [forallb collapse].
  intros H. apply andb_true_iff in H. destruct H as [Hc Hs]. rewrite Hc. exact (IH Hs).
Qed.

Lemma unbreak_blank s : forallb is_space s = true -> forallb is_space (unbreak s) = true.
Proof.
  unfold unbreak. induction s as [|c s IH]; [reflexivity|]. cbn [forallb map].
  intros H. apply andb_true_iff in H. destruct H as [Hc Hs]. rewrite (IH Hs), andb_true_r.
  destruct (N.eqb 10 c); [reflexivity | exact Hc].
Qed.

(** X7.  The one exception: a non-empty text of whitespace only is cleaned to
    the marker with a space in front, and cleaning that removes the space. *)
Theorem cleanText_of_blank (text : jsstring) :
  text <> [] -> forallb is_space text = true ->
  GDGParserXml.cleanText text = lit " [content redacted]" /\
  GDGParserXml.cleanText (GDGParserXml.cleanText text) = lit "[content redacted]".
Proof.
  intros Hne Hb.
  assert (E : GDGParserXml.cleanText text = lit " [content redacted]").
  { rewrite cleanText_cleaned. destruct text as [|c text]; [congruence|]. cbn [is_nil].
    assert (Ec : cleaned (c :: text) = []).
    { unfold cleaned. pose proof (unbreak_blank _ Hb) as Hu.
      destruct (unbreak (c :: text)) as [|d u]; [reflexivity|].
      cbn [forallb] in Hu. apply andb_true_iff in Hu. destruct Hu as [Hd Hu].
      cbn [collapse]. rewrite Hd, (collapse_blank _ Hu). reflexivity. }
    rewrite Ec. reflexivity. }
  split; [exact E|]. rewrite E. vm_compute. reflexivity.
Qed.

Lemma cleanText_of_blank_witness :
  GDGParserXml.cleanText (lit "   ") = lit " [content redacted]" /\
  GDGParserXml.cleanText (GDGParserXml.cleanText (lit "   ")) = lit "[content redacted]".
Proof. apply cleanText_of_blank; [discriminate | reflexivity]. Defined.

(** X8.  A change made of two cleaned non-empty texts passes the filter of
    [addEntry]: such a change is never dropped. *)
Theorem cleaned_change_is_kept (a b : jsstring) :
  a <> [] -> b <> [] ->
  Common.keep (GDGParserXml.from_to (GDGParserXml.cleanText a) (GDGParserXml.cleanText b))
  = Dyn.Ok true.
Proof.
  intros Ha Hb.
  assert (H : forall t, t <> [] ->
            Common.nonblank (Dyn.VStr (GDGParserXml.cleanText t)) = Dyn.Ok true).
  { intros t Ht. destruct (cleanText_facts t Ht) as (_ & _ & Hlen & _ & Hink).
    unfold Common.nonblank. cbn [Dyn.truthy].
    destruct (GDGParserXml.cleanText t) as [|c out] eqn:E; [simpl in Hlen; lia|].
    cbn [is_nil negb]. pose proof (has_ink_nonempty _ (has_ink_trim _ Hink)) as Hn.
    destruct (trim (c :: out)); [congruence | reflexivity]. }
  unfold Common.keep, GDGParserXml.from_to. cbn [Dyn.getp Dyn.lookup String.eqb Ascii.eqb Bool.eqb Dyn.bind].
  rewrite (H a Ha). cbn [Dyn.bind]. apply (H b Hb).
Qed.

Lemma cleaned_change_is_kept_witness :
  Common.keep (GDGParserXml.from_to (GDGParserXml.cleanText (lit "x"))
                                    (GDGParserXml.cleanText (lit " ")))
  = Dyn.Ok true.
Proof. apply cleaned_change_is_kept; discriminate. Defined.

End CleanFacts.

(* ================================================================== *)
(** * More of the program: the other methods of the RSS [GDGParser], and
      the address of the download script *)
(* ================================================================== *)

Module StateFacts.
Import Js Dyn Common Spec EntryFacts ParseFacts MoreDefs.
Local Open Scope string_scope.
Local Open Scope list_scope.
Local Open Scope nat_scope.





Section Platform.
Variable hostname : value -> option jsstring.
Variable coerce_gt : value -> nat -> result bool.
Variable parseItems : value -> result (list GDGParserXml.item).





End Platform.

End StateFacts.

Module JsonFeedFacts.
Import Js Dyn Common Spec EntryFacts ParseFacts MoreDefs.
Local Open Scope string_scope.
Local Open Scope list_scope.
Local Open Scope nat_scope.

Section Platform.
Variable hostname : value -> option jsstring.
Variable coerce_gt : value -> nat -> result bool.

Lemma long_enough_string s :
  GDGParser.long_enough coerce_gt (VStr s) = Ok true -> 10 < length s.
Proof.
  unfold GDGParser.long_enough. cbn [truthy length_gt].
  destruct (negb (is_nil s)); [|discriminate].
  intros [= H]. apply Nat.ltb_lt, H.
Qed.

(** The text of an article is one of its three text fields, and longer
    than 10 code units. *)
Lemma extractTextContent_string article text :
  GDGParser.extractTextContent coerce_gt article = Ok (VStr text) ->
  exists field,
    In field ["title"; "description"; "content"] /\
    getp article field = Ok (VStr text) /\ 10 < length text.
Proof.
  unfold GDGParser.extractTextContent.
  destruct (getp article "title") as [t|] eqn:Et; [|discriminate]. cbn [bind].
  destruct (GDGParser.long_enough coerce_gt t) as [[|]|] eqn:Lt; cbn [bind];
    try discriminate.
  { intros [= ->]. exists "title". split; [left; reflexivity|].
    split; [exact Et | apply long_enough_string, Lt]. }
  destruct (getp article "description") as [d|] eqn:Ed; [|discriminate]. cbn [bind].
  destruct (GDGParser.long_enough coerce_gt d) as [[|]|] eqn:Ld; cbn [bind];
    try discriminate.
  { intros [= ->]. exists "description". split; [right; left; reflexivity|].
    split; [exact Ed | apply long_enough_string, Ld]. }
  destruct (getp article "content") as [c|] eqn:Ec; [|discriminate]. cbn [bind].
  destruct (GDGParser.long_enough coerce_gt c) as [[|]|] eqn:Lc; cbn [bind];
    try discriminate.
  intros [= ->]. exists "content". split; [right; right; left; reflexivity|].
  split; [exact Ec | apply long_enough_string, Lc].
Qed.

(** What one iteration stores, in full. *)
Lemma processArticle_detail article this :
  let this' := snd (GDGParser.processArticle hostname coerce_gt article this) in
  this' = this \/
  exists source field text,
    In field ["title"; "description"; "content"] /\
    getp article field = Ok (VStr text) /\ 10 < length text /\
    is_nil (trim text) = false /\
    GDGParser.extractSource hostname article = Ok source /\
    this' = push (VObj [("source", source);
                        ("changes", VArr [GDGParser.change (VStr text)
                                            (VStr (GDGParser.createRedactedVersion text))])])
                 this.
Proof.
  unfold GDGParser.processArticle, bindM, lift, ret. cbv zeta.
  destruct (GDGParser.extractSource hostname article) as [source|] eqn:Es;
    [|left; reflexivity].
  destruct (GDGParser.extractTextContent coerce_gt article) as [text|] eqn:Et;
    [|left; reflexivity].
  destruct (truthy text) eqn:Htruthy; [|left; reflexivity].
  destruct (GDGParser.createRedactedVersion_call text) as [redacted|] eqn:Er;
    [|left; reflexivity].
  destruct (createRedactedVersion_call_string _ Htruthy Er) as (s & -> & ->).
  cbn [app length Nat.ltb Nat.leb].
  match goal with |- context [addEntry coerce_gt ?e this] =>
    destruct (addEntry_cases coerce_gt e this)
      as [E | (props & l & He & Hl & Hne & Hlt & _ & E)] end;
    [left; exact E|].
  right. injection He as <-. cbn in Hl. injection Hl as <-.
  destruct (extractTextContent_string _ _ Et) as (field & Hin & Hget & Hlen).
  exists source, field, s. split; [exact Hin|]. split; [exact Hget|].
  split; [exact Hlen|].
  cbn [filter] in Hne, E.
  destruct (change_ok (GDGParser.change (VStr s)
                         (VStr (GDGParser.createRedactedVersion s)))) eqn:Hok;
    [|congruence].
  split; [|split; [reflexivity | exact E]].
  unfold change_ok, GDGParser.change in Hok. cbn in Hok.
  apply andb_true_iff in Hok. destruct Hok as [Hok _].
  apply negb_true_iff, Hok.
Qed.

Lemma loop_entries_come_from_texts (articles : list value) (this : parser) :
  exists added,
    processedEntries (snd (GDGParser.processArticles hostname coerce_gt articles this))
    = processedEntries this ++ added /\
    Forall (fun e =>
              exists a source field text,
                In a articles /\
                In field ["title"; "description"; "content"] /\
                getp a field = Ok (VStr text) /\ 10 < length text /\
                is_nil (trim text) = false /\
                GDGParser.extractSource hostname a = Ok source /\
                e = VObj [("source", source);
                          ("changes",
                           VArr [VObj [("from", VStr text);
                                       ("to", VStr (GDGParser.createRedactedVersion text));
                                       ("type", VStr (lit "text"))]])])
           added.
Proof.
  revert this. induction articles as [|a articles IH]; intros this.
  - exists []. rewrite app_nil_r. split; [reflexivity | constructor].
  - cbn [GDGParser.processArticles].
    destruct (length (processedEntries this) <? maxEntries this).
    2:{ exists []. rewrite app_nil_r. split; [reflexivity | constructor]. }
    pose proof (processArticle_detail a this) as Hc. cbv zeta in Hc.
    assert (Hweak : forall added this1,
              Forall (fun e => exists a0 source field text,
                  In a0 articles /\ In field ["title"; "description"; "content"] /\
                  getp a0 field = Ok (VStr text) /\ 10 < length text /\
                  is_nil (trim text) = false /\
                  GDGParser.extractSource hostname a0 = Ok source /\
                  e = VObj [("source", source);
                            ("changes",
                             VArr [VObj [("from", VStr text);
                                         ("to", VStr (GDGParser.createRedactedVersion text));
                                         ("type", VStr (lit "text"))]])]) added ->
              processedEntries (snd (GDGParser.processArticles hostname coerce_gt articles this1))
              = processedEntries this1 ++ added ->
              Forall (fun e => exists a0 source field text,
                  In a0 (a :: articles) /\ In field ["title"; "description"; "content"] /\
                  getp a0 field = Ok (VStr text) /\ 10 < length text /\
                  is_nil (trim text) = false /\
                  GDGParser.extractSource hostname a0 = Ok source /\
                  e = VObj [("source", source);
                            ("changes",
                             VArr [VObj [("from", VStr text);
                                         ("to", VStr (GDGParser.createRedactedVersion text));
                                         ("type", VStr (lit "text"))]])]) added).
    { intros added this1 H _. eapply Forall_impl; [|exact H].
      intros e (a0 & source & field & text & Hin & Hrest).
      exists a0, source, field, text. split; [right; exact Hin | exact Hrest]. }
    destruct (GDGParser.processArticle hostname coerce_gt a this) as [[u|e] this1];
      cbn [snd] in Hc |- *.
    + destruct (IH this1) as (added & Hadd & Hall).
      destruct Hc as [-> | (source & field & text & Hin & Hget & Hlen & Hnb & Hs & ->)].
      * exists added. split; [exact Hadd | exact (Hweak _ _ Hall Hadd)].
      * cbn [push processedEntries] in Hadd. eexists (_ :: added).
        rewrite Hadd, <- app_assoc. split; [reflexivity|].
        constructor; [|exact (Hweak _ _ Hall Hadd)].
        exists a, source, field, text. split; [left; reflexivity|].
        repeat (split; [assumption|]). reflexivity.
    + destruct Hc as [-> | (source & field & text & Hin & Hget & Hlen & Hnb & Hs & ->)].
      * exists []. rewrite app_nil_r. split; [reflexivity | constructor].
      * cbn [push processedEntries]. eexists [_]. split; [reflexivity|].
        constructor; [|constructor].
        exists a, source, field, text. split; [left; reflexivity|].
        repeat (split; [assumption|]). reflexivity.
Qed.

(** X10.  Every entry the JSON [parseGDGData] makes holds one change: from a
    title, description or content of one of the articles, a string of more
    than 10 code units that is not blank, to the redaction of that string. *)
Theorem json_entries_come_from_texts (data : value) (this : parser) :
  let this' := snd (GDGParser.parseGDGData hostname coerce_gt data this) in
  match articles_of data with
  | None => this' = this
  | Some articles =>
      exists added,
        processedEntries this' = processedEntries this ++ added /\
        Forall (fun e =>
                  exists a source field text,
                    In a articles /\
                    In field ["title"; "description"; "content"] /\
                    getp a field = Ok (VStr text) /\ 10 < length text /\
                    is_nil (trim text) = false /\
                    GDGParser.extractSource hostname a = Ok source /\
                    e = VObj [("source", source);
                              ("changes",
                               VArr [VObj [("from", VStr text);
                                           ("to", VStr (GDGParser.createRedactedVersion text));
                                           ("type", VStr (lit "text"))]])])
               added
  end.
Proof.
  cbv zeta.
  destruct (parseGDGData_json hostname coerce_gt data this) as (v & Hrun & _ & Hst).
  rewrite Hrun. cbn [snd].
  destruct (articles_of data) as [articles|]; rewrite Hst; [|reflexivity].
  apply loop_entries_come_from_texts.
Qed.

(** *** Feeds that never fall back *)

(** The [try] block on a document with an [articles] array. *)
Lemma parseGDGData_try_articles data articles this :
  articles_of data = Some articles ->
  GDGParser.parseGDGData_try hostname coerce_gt data this =
  match GDGParser.processArticles hostname coerce_gt articles this with
  | (Ok _, this') => (Ok (GDGParser.entries_of this'), this')
  | (Throw e, this') => (Throw e, this')
  end.
Proof.
  unfold articles_of, GDGParser.parseGDGData_try, bindM, lift, ret.
  destruct (truthy data) eqn:Ht; [|discriminate]. cbn [negb].
  destruct data as [| |b|n|s|l|props]; try discriminate. cbn [getp].
  destruct (lookup "articles" props) as [| |b|n|s|l|ps]; try discriminate.
  intros [= ->]. reflexivity.
Qed.

Lemma long_enough_plain v :
  plain v = true ->
  exists b, GDGParser.long_enough coerce_gt v = Ok b /\
            (b = true -> exists s, v = VStr s).
Proof.
  unfold GDGParser.long_enough.
  destruct v as [| |b|n|s|l|props]; try discriminate; intros _;
    cbn [truthy length_gt];
    try (exists false; split; [reflexivity | discriminate]).
  - destruct b; exists false; (split; [reflexivity | discriminate]).
  - destruct n as [| | |q]; try (exists false; split; [reflexivity | discriminate]).
    destruct (negb (Qeq_bool q 0)); exists false; (split; [reflexivity | discriminate]).
  - destruct (negb (is_nil s)).
    + eexists. split; [reflexivity|]. intros _. exists s. reflexivity.
    + exists false. split; [reflexivity | discriminate].
Qed.

Lemma extractTextContent_plain props :
  plain_article (VObj props) = true ->
  exists t, GDGParser.extractTextContent coerce_gt (VObj props) = Ok t /\
            (t = VNull \/ exists s, t = VStr s).
Proof.
  cbn [plain_article]. intros H.
  apply andb_true_iff in H. destruct H as [H Hc].
  apply andb_true_iff in H. destruct H as [Ht Hd].
  unfold GDGParser.extractTextContent. cbn [getp bind].
  destruct (long_enough_plain _ Ht) as (b1 & -> & H1). cbn [bind].
  destruct b1; [eexists; split; [reflexivity | right; apply H1; reflexivity]|].
  destruct (long_enough_plain _ Hd) as (b2 & -> & H2). cbn [bind].
  destruct b2; [eexists; split; [reflexivity | right; apply H2; reflexivity]|].
  destruct (long_enough_plain _ Hc) as (b3 & -> & H3). cbn [bind].
  destruct b3; [eexists; split; [reflexivity | right; apply H3; reflexivity]|].
  eexists. split; [reflexivity | left; reflexivity].
Qed.

Lemma extractSource_object props :
  exists source, GDGParser.extractSource hostname (VObj props) = Ok source.
Proof.
  unfold GDGParser.extractSource. cbn [getp bind].
  destruct (truthy (lookup "source" props)); [eexists; reflexivity|].
  destruct (truthy (lookup "url" props)); [eexists; reflexivity|].
  destruct (truthy (lookup "domain" props)); eexists; reflexivity.
Qed.

(** [addEntry] does not throw on an entry whose one change pairs two
    strings. *)
Lemma addEntry_strings source from to extra this :
  fst (addEntry coerce_gt
         (VObj [("source", source);
                ("changes", VArr [VObj (("from", VStr from) :: ("to", VStr to) :: extra)])])
         this) = Ok tt.
Proof.
  unfold addEntry. destruct (length (processedEntries this) <? maxEntries this);
    [|reflexivity].
  assert (Hnb : forall s, exists b, nonblank (VStr s) = Ok b).
  { intros s. unfold nonblank. cbn [truthy].
    destruct (negb (is_nil s)); eexists; reflexivity. }
  destruct (Hnb from) as [b1 E1]. destruct (Hnb to) as [b2 E2].
  unfold kept_changes. cbn [getp lookup String.eqb Ascii.eqb Bool.eqb bind truthy
                            length_gt length Nat.ltb Nat.leb filter_changes keep].
  rewrite E1. cbn [bind]. destruct b1; [rewrite E2; destruct b2|];
    cbn [bind length Nat.ltb Nat.leb fst]; reflexivity.
Qed.

Lemma processArticle_plain article this :
  plain_article article = true ->
  fst (GDGParser.processArticle hostname coerce_gt article this) = Ok tt.
Proof.
  intros Hp. destruct article as [| |b|n|s|l|props]; try discriminate.
  unfold GDGParser.processArticle, bindM, lift, ret.
  destruct (extractSource_object props) as [source ->].
  destruct (extractTextContent_plain props Hp) as (t & -> & [-> | (s & ->)]);
    [reflexivity|].
  cbn [truthy]. destruct (negb (is_nil s)) eqn:E; [|reflexivity].
  unfold GDGParser.createRedactedVersion_call. cbn [truthy]. rewrite E. cbn [negb].
  cbn [app length Nat.ltb Nat.leb]. unfold GDGParser.change. apply addEntry_strings.
Qed.

Lemma processArticles_plain articles :
  Forall (fun a => plain_article a = true) articles ->
  forall this,
    fst (GDGParser.processArticles hostname coerce_gt articles this) = Ok tt.
Proof.
  induction 1 as [|a articles Ha _ IH]; intros this; [reflexivity|].
  cbn [GDGParser.processArticles].
  destruct (length (processedEntries this) <? maxEntries this); [|reflexivity].
  pose proof (processArticle_plain a this Ha) as H.
  destruct (GDGParser.processArticle hostname coerce_gt a this) as [[u|e] this1];
    cbn [fst] in H; [apply IH | discriminate].
Qed.

(** X11.  A feed whose articles are objects with plain text fields (strings,
    numbers, booleans, [null], or none) never makes [parseGDGData] fall
    back: nothing throws, and the result is the parser's entries. *)
Theorem plain_feed_is_parsed (data : value) (articles : list value) (this : parser) :
  articles_of data = Some articles ->
  Forall (fun a => plain_article a = true) articles ->
  exists this',
    GDGParser.parseGDGData_try hostname coerce_gt data this
      = (Ok (GDGParser.entries_of this'), this') /\
    GDGParser.parseGDGData hostname coerce_gt data this
      = (Ok (GDGParser.entries_of this'), this').
Proof.
  intros Ha Hp. unfold GDGParser.parseGDGData, try_catch.
  rewrite (parseGDGData_try_articles _ _ this Ha).
  pose proof (processArticles_plain articles Hp this) as H.
  destruct (GDGParser.processArticles hostname coerce_gt articles this) as [[u|e] this'];
    cbn [fst] in H; [|discriminate].
  exists this'. split; reflexivity.
Qed.

(** *** A feed that fails half way *)

Lemma processArticles_app pre rest :
  forall this,
    GDGParser.processArticles hostname coerce_gt (pre ++ rest) this =
    match GDGParser.processArticles hostname coerce_gt pre this with
    | (Ok _, this1) => GDGParser.processArticles hostname coerce_gt rest this1
    | (Throw e, this1) => (Throw e, this1)
    end.
Proof.
  induction pre as [|a pre IH]; intros this; [reflexivity|].
  cbn [app GDGParser.processArticles].
  destruct (length (processedEntries this) <? maxEntries this) eqn:E.
  - destruct (GDGParser.processArticle hostname coerce_gt a this) as [[u|e] this1];
      [apply IH | reflexivity].
  - destruct rest as [|b rest]; [reflexivity|].
    cbn [GDGParser.processArticles]. rewrite E. reflexivity.
Qed.

(** X12.  An article that is [null] makes [parseGDGData] return the sample data,
    but what the articles before it gave stays in the parser: the next call,
    even on an empty feed, returns those left-over entries. *)
Theorem failed_feed_leaves_entries
        (data : value) (pre post : list value) (this this1 : parser) :
  articles_of data = Some (pre ++ VNull :: post) ->
  GDGParser.processArticles hostname coerce_gt pre this = (Ok tt, this1) ->
  length (processedEntries this1) < maxEntries this1 ->
  GDGParser.parseGDGData hostname coerce_gt data this
    = (Ok GDGParser.getSampleData, this1) /\
  GDGParser.parseGDGData hostname coerce_gt (VObj [("articles", VArr [])]) this1
    = (Ok (GDGParser.entries_of this1), this1).
Proof.
  intros Ha Hpre Hlt. split; [|reflexivity].
  unfold GDGParser.parseGDGData, try_catch.
  rewrite (parseGDGData_try_articles _ _ this Ha), processArticles_app, Hpre.
  cbn [GDGParser.processArticles].
  apply Nat.ltb_lt in Hlt. rewrite Hlt. reflexivity.
Qed.

End Platform.

Lemma plain_feed_is_parsed_witness :
  let hostname := fun _ : value => @None jsstring in
  let coerce_gt := fun (_ : value) (_ : nat) => @Throw bool TypeError in
  let data :=
    VObj [("articles",
           VArr [VObj [("title", VNum (Fin 7)); ("domain", VStr (lit "example.org"));
                       ("description", VStr (lit "Police probe the incident"))];
                 VObj [("title", VNull)]])] in
  exists this',
    GDGParser.parseGDGData_try hostname coerce_gt data new
      = (Ok (GDGParser.entries_of this'), this') /\
    GDGParser.parseGDGData hostname coerce_gt data new
      = (Ok (GDGParser.entries_of this'), this').
Proof.
  cbv zeta.
  eapply plain_feed_is_parsed; [reflexivity|].
  repeat constructor.
Defined.

Lemma failed_feed_leaves_entries_witness :
  let hostname := fun _ : value => @None jsstring in
  let coerce_gt := fun (_ : value) (_ : nat) => Ok false in
  let first := VObj [("domain", VStr (lit "example.org"));
                     ("title", VStr (lit "Police probe the incident"))] in
  let data := VObj [("articles", VArr [first; VNull; first])] in
  let this1 := snd (GDGParser.processArticles hostname coerce_gt [first] new) in
  length (processedEntries this1) = 1 /\
  GDGParser.parseGDGData hostname coerce_gt data new
    = (Ok GDGParser.getSampleData, this1) /\
  GDGParser.parseGDGData hostname coerce_gt (VObj [("articles", VArr [])]) this1
    = (Ok (GDGParser.entries_of this1), this1).
Proof.
  cbv zeta. split; [vm_compute; reflexivity|].
  apply (failed_feed_leaves_entries (fun _ => None) (fun _ _ => Ok false)
           _ [VObj [("domain", VStr (lit "example.org"));
                    ("title", VStr (lit "Police probe the incident"))]]
           [VObj [("domain", VStr (lit "example.org"));
                  ("title", VStr (lit "Police probe the incident"))]] new).
  - reflexivity.
  - vm_compute. reflexivity.
  - vm_compute. lia.
Defined.

End JsonFeedFacts.

Module RssFacts.
Import Js Dyn Common Spec EntryFacts ParseFacts MoreDefs.
Local Open Scope string_scope.
Local Open Scope list_scope.
Local Open Scope nat_scope.

Lemma str_eqb_eq a : forall b, str_eqb a b = true <-> a = b.
Proof.
  induction a as [|x a IH]; intros [|y b]; cbn [str_eqb]; split;
    try discriminate; try reflexivity.
  - intros H. apply andb_true_iff in H. destruct H as [Hx Hab].
    apply N.eqb_eq in Hx. apply IH in Hab. congruence.
  - intros [= -> ->]. rewrite N.eqb_refl. apply IH. reflexivity.
Qed.

Section Platform.
Variable hostname : value -> option jsstring.
Variable coerce_gt : value -> nat -> result bool.
Variable parseItems : value -> result (list GDGParserXml.item).

(** *** [processItem] *)

(** The source of an item is never empty. *)
Lemma item_source_nonempty it :
  (let d := GDGParserXml.extractDomainFromUrl hostname
              (GDGParserXml.or_default (GDGParserXml.link it) (lit "")) in
   if is_nil d
   then GDGParserXml.or_default (GDGParserXml.title it) (lit "Government Document")
   else d) <> [].
Proof.
  cbv zeta.
  destruct (GDGParserXml.extractDomainFromUrl hostname _) as [|c d]; [|discriminate].
  cbn [is_nil]. unfold GDGParserXml.or_default.
  destruct (GDGParserXml.title it) as [[|c t]|]; discriminate.
Qed.

(** One item gives at most one entry, with a source that is not empty and
    exactly one change, whose two texts are not blank. *)
Lemma processItem_entry it this :
  let this' := snd (GDGParserXml.processItem hostname coerce_gt it this) in
  this' = this \/
  exists source c,
    source <> [] /\ change_ok c = true /\
    length (processedEntries this) < maxEntries this /\
    this' = push (VObj [("source", VStr source); ("changes", VArr [c])]) this.
Proof.
  unfold GDGParserXml.processItem. cbv zeta.
  pose proof (item_source_nonempty it) as Hsrc. cbv zeta in Hsrc.
  set (source := if is_nil _ then _ else _) in *.
  match goal with |- context [VArr ?l] => set (changes := l) end.
  assert (Hone : length changes <= 1).
  { subst changes.
    destruct (negb (is_nil (GDGParserXml.or_default (GDGParserXml.description it) (lit ""))));
      [destruct (2 <=? length _)|]; cbn [app length Nat.eqb andb];
      try destruct (negb (is_nil _)); cbn [app length]; lia. }
  destruct (0 <? length changes); [|left; reflexivity].
  destruct (addEntry_cases coerce_gt
              (VObj [("source", VStr source); ("changes", VArr changes)]) this)
    as [E | (props & l & He & Hl & Hne & Hlt & _ & E)]; [left; exact E|].
  right. injection He as <-.
  change (VArr changes = VArr l) in Hl. injection Hl as <-.
  destruct changes as [|c [|c' rest]]; [cbn in Hne; congruence| |simpl in Hone; lia].
  cbn [filter] in Hne, E. destruct (change_ok c) eqn:Hok; [|congruence].
  exists source, c. split; [exact Hsrc|]. split; [exact Hok|]. split; [exact Hlt|].
  exact E.
Qed.

(** X13.  Every entry the RSS [parseGDGData] makes has a source that is not the
    empty text and exactly one change, with neither text blank. *)
Theorem rss_entries_have_one_change (rawData : value) (this : parser) :
  exists added,
    processedEntries
      (snd (GDGParserXml.parseGDGData hostname coerce_gt parseItems rawData this))
    = processedEntries this ++ added /\
    Forall (fun e => exists source c,
                e = VObj [("source", VStr source); ("changes", VArr [c])] /\
                source <> [] /\ change_ok c = true) added.
Proof.
  assert (Loop : forall items this0, exists added,
            processedEntries (snd (GDGParserXml.processItems hostname coerce_gt items this0))
            = processedEntries this0 ++ added /\
            Forall (fun e => exists source c,
                e = VObj [("source", VStr source); ("changes", VArr [c])] /\
                source <> [] /\ change_ok c = true) added).
  { induction items as [|it items IH]; intros this0.
    - exists []. rewrite app_nil_r. split; [reflexivity | constructor].
    - cbn [GDGParserXml.processItems].
      destruct (length (processedEntries this0) <? maxEntries this0).
      2:{ exists []. rewrite app_nil_r. split; [reflexivity | constructor]. }
      pose proof (processItem_entry it this0) as Hc. cbv zeta in Hc.
      destruct (GDGParserXml.processItem hostname coerce_gt it this0) as [[u|e] this1];
        cbn [snd] in Hc |- *.
      + destruct (IH this1) as (added & Hadd & Hall).
        destruct Hc as [-> | (source & c & Hs & Hok & _ & ->)].
        * exists added. split; assumption.
        * cbn [push processedEntries] in Hadd. eexists (_ :: added).
          rewrite Hadd, <- app_assoc. split; [reflexivity|].
          constructor; [|exact Hall]. exists source, c. repeat split; assumption.
      + destruct Hc as [-> | (source & c & Hs & Hok & _ & ->)].
        * exists []. rewrite app_nil_r. split; [reflexivity | constructor].
        * cbn [push processedEntries]. eexists [_]. split; [reflexivity|].
          constructor; [|constructor]. exists source, c. repeat split; assumption. }
  destruct (parseGDGData_xml hostname coerce_gt parseItems rawData this)
    as (v & Hrun & _ & Hst).
  rewrite Hrun. cbn [snd].
  destruct (parseItems rawData) as [items|e]; rewrite Hst; [apply Loop|].
  exists []. rewrite app_nil_r. split; [reflexivity | constructor].
Qed.

(** *** [extractTextContent] *)





End Platform.

End RssFacts.

Module DownloadFacts.
Import Js Route Download.
Local Open Scope string_scope.
Local Open Scope list_scope.
Local Open Scope nat_scope.

(** Below 100, padding the decimal digits to two places gives exactly two
    digits. *)
Lemma padStart_two_digits k :
  k < 100 -> padStart 2 (String_ k) = two_digits k.
Proof.
  intros Hk.
  assert (Hall : forallb (fun k => str_eqb (padStart 2 (String_ k)) (two_digits k))
                   (seq 0 100) = true) by (vm_compute; reflexivity).
  rewrite forallb_forall in Hall.
  apply RssFacts.str_eqb_eq. apply Hall. apply in_seq. lia.
Qed.

(** X15.  For a calendar date, the timestamp of [downloadGDELTData] is the year
    followed by ten digits: two each for the month counted from 1, the day,
    the hour, the minutes rounded down to a quarter of an hour, and 00 for
    the seconds. *)
Theorem timestamp_is_quarter_hour (now : utc) :
  in_range now ->
  let q := getUTCMinutes now / 15 * 15 in
  timestamp now
  = String_ (getUTCFullYear now) ++ two_digits (getUTCMonth now + 1)
    ++ two_digits (getUTCDate now) ++ two_digits (getUTCHours now)
    ++ two_digits q ++ lit "00" /\
  In q [0; 15; 30; 45] /\
  q <= getUTCMinutes now < q + 15 /\
  length (timestamp now) = length (String_ (getUTCFullYear now)) + 10.
Proof.
  intros (Hmonth & Hdate & Hhours & Hminutes). cbv zeta.
  set (q := getUTCMinutes now / 15 * 15).
  assert (Hq : q <= getUTCMinutes now < q + 15).
  { subst q. pose proof (Nat.div_mod_eq (getUTCMinutes now) 15) as Hd.
    pose proof (Nat.mod_upper_bound (getUTCMinutes now) 15). lia. }
  assert (Hin : In q [0; 15; 30; 45]).
  { subst q. assert (Hd : getUTCMinutes now / 15 < 4)
      by (apply Nat.Div0.div_lt_upper_bound; lia).
    destruct (getUTCMinutes now / 15) as [|[|[|[|d]]]]; cbn [In]; [tauto..|lia]. }
  assert (Heq : timestamp now
                = String_ (getUTCFullYear now) ++ two_digits (getUTCMonth now + 1)
                  ++ two_digits (getUTCDate now) ++ two_digits (getUTCHours now)
                  ++ two_digits q ++ lit "00").
  { unfold timestamp. cbv zeta. fold q.
    rewrite !padStart_two_digits by lia. reflexivity. }
  split; [exact Heq|]. split; [exact Hin|]. split; [exact Hq|].
  rewrite Heq. rewrite !length_app. unfold two_digits. cbn [length lit].
  change (length (lit "00")) with 2. lia.
Qed.

Lemma timestamp_is_quarter_hour_witness :
  let now := {| getUTCFullYear := 2024; getUTCMonth := 0; getUTCDate := 5;
                getUTCHours := 7; getUTCMinutes := 44 |} in
  in_range now /\ timestamp now = lit "20240105073000" /\
  length (timestamp now) = length (String_ (getUTCFullYear now)) + 10.
Proof.
  cbv zeta.
  assert (H : in_range {| getUTCFullYear := 2024; getUTCMonth := 0; getUTCDate := 5;
                          getUTCHours := 7; getUTCMinutes := 44 |})
    by (unfold in_range; cbn; lia).
  split; [exact H|]. split; [vm_compute; reflexivity|].
  apply (timestamp_is_quarter_hour _ H).
Defined.

End DownloadFacts.

Module GuardFacts.
Import Js Dyn Common Spec CaseDefs CaseFacts MoreDefs GuardDefs.
Local Open Scope string_scope.
Local Open Scope list_scope.
Local Open Scope nat_scope.

Lemma chr_eqb_alnum ic pat c :
  alnum pat = true -> alnum c = false -> chr_eqb ic pat c = false.
Proof.
  unfold alnum, chr_eqb. intros Hp Hc.
  apply orb_false_iff in Hc. destruct Hc as [Hd Hl].
  unfold is_letter in Hl. apply orb_false_iff in Hl. destruct Hl as [Hu Hlow].
  assert (Hcc : canon c = c) by (unfold canon; rewrite Hlow; reflexivity).
  destruct ic.
  - rewrite Hcc. apply N.eqb_neq. intros <-.
    assert (Hw : alnum (canon pat) = true).
    { unfold alnum, is_letter in *. clear Hd Hu Hlow Hcc. by_case pat. }
    unfold alnum, is_letter in Hw. rewrite Hd, Hu, Hlow in Hw. discriminate.
  - apply N.eqb_neq. intros <-. unfold is_letter in Hp.
    rewrite Hd, Hu, Hlow in Hp. discriminate.
Qed.

(** Such a pattern matches at no position where the text goes on with
    something else than a letter or a digit, or ends. *)
Lemma run_starts_alnum ic r :
  starts_alnum r = true ->
  forall p s, match s with c :: _ => alnum c = false | [] => True end ->
    run ic r p s = [].
Proof.
  induction r as [|c| | | | |a IHa b IHb|a IHa b IHb|a IHa]; cbn [starts_alnum];
    try discriminate; intros Hr p s Hs.
  - destruct s as [|x s]; [reflexivity|]. cbn [run one].
    rewrite (chr_eqb_alnum ic c x Hr Hs). reflexivity.
  - destruct s as [|x s]; [reflexivity|]. cbn [run one].
    unfold alnum in Hs. apply orb_false_iff in Hs. destruct Hs as [-> _]. reflexivity.
  - cbn [run].
    assert (Hb : forall l : list pos,
               (forall q, In q l -> q = (p, s)) -> starts_alnum b = true ->
               flat_map (fun q : pos => run ic b (fst q) (snd q)) l = []).
    { intros l Hl Hsb. induction l as [|q l IHl]; [reflexivity|].
      cbn [flat_map]. rewrite (Hl q (or_introl eq_refl)). cbn [fst snd].
      rewrite (IHb Hsb p s Hs). apply IHl. intros q' Hq'. apply Hl. right. exact Hq'. }
    destruct a; try (rewrite (IHa Hr p s Hs); reflexivity).
    + apply Hb; [|exact Hr]. cbn [run]. intros q Hq.
      destruct (xorb (word_before p) (word_after s)); cbn [In] in Hq;
        [destruct Hq as [<-|[]]; reflexivity | destruct Hq].
    + apply Hb; [|exact Hr]. cbn [run]. intros q Hq.
      destruct p; cbn [In] in Hq; [destruct Hq | destruct Hq as [<-|[]]; reflexivity].
  - apply andb_true_iff in Hr. destruct Hr as [Ha Hb]. cbn [run].
    rewrite (IHa Ha p s Hs), (IHb Hb p s Hs). reflexivity.
Qed.

Lemma exec_inert ic r :
  starts_alnum r = true ->
  forall s p, inert s = true -> exec ic r p s = None.
Proof.
  intros Hr. induction s as [|c s IH]; intros p Hs.
  - cbn [exec]. rewrite (run_starts_alnum ic r Hr p [] I). reflexivity.
  - unfold inert in Hs. cbn [forallb] in Hs. apply andb_true_iff in Hs.
    destruct Hs as [Hc Hs]. apply negb_true_iff in Hc.
    cbn [exec]. rewrite (run_starts_alnum ic r Hr p (c :: s) Hc).
    rewrite (IH (Some c) Hs). reflexivity.
Qed.

Lemma replace_all_inert ic r repl s :
  starts_alnum r = true -> inert s = true -> replace_all ic r repl s = s.
Proof.
  intros Hr Hs. unfold replace_all. cbn [replace_loop].
  rewrite (exec_inert ic r Hr s None Hs). reflexivity.
Qed.

Lemma paraphrase_inert text :
  inert text = true -> GDGParserXml.createRedactedVersion text = text.
Proof.
  intros Hs. unfold GDGParserXml.createRedactedVersion. cbv zeta.
  unfold GDGParserXml.locations, GDGParserXml.wordReplacements.
  cbn [fold_left fst snd].
  repeat (rewrite (replace_all_inert _ _ _ text); [|reflexivity|exact Hs]).
  reflexivity.
Qed.

Section Platform.
Variable hostname : value -> option jsstring.
Variable coerce_gt : value -> nat -> result bool.

(** X16.  The paraphrasing redaction changes nothing in a text without ASCII
    letters and digits, so the RSS [extractTextContent] makes no entry from
    an object whose six text fields hold such texts, whatever their length. *)
Theorem paraphrase_needs_letters_or_digits
        (text : jsstring) (props : list (string * value)) (this : parser) :
  inert text = true ->
  GDGParserXml.createRedactedVersion text = text /\
  ((forall field, In field GDGParserXmlMore.textFields ->
                  lookup field props = VStr text) ->
   GDGParserXmlMore.extractTextContent hostname coerce_gt (VObj props) this
   = (Ok tt, this)).
Proof.
  intros Hs. split; [exact (paraphrase_inert text Hs)|].
  intros Hf. unfold GDGParserXmlMore.extractTextContent.
  assert (Hloop : forall fs,
             (forall field, In field fs -> lookup field props = VStr text) ->
             GDGParserXmlMore.tryFields hostname coerce_gt (VObj props) fs this
             = (Ok tt, this)).
  { intros fs. induction fs as [|field rest IH]; intros Hin; [reflexivity|].
    cbn [GDGParserXmlMore.tryFields]. unfold bindM, lift. cbn [getp].
    rewrite (Hin field (or_introl eq_refl)). cbv beta iota zeta.
    rewrite (paraphrase_inert text Hs).
    assert (He : str_eqb text text = true) by (apply RssFacts.str_eqb_eq; reflexivity).
    rewrite He. cbn [negb].
    assert (Hrest : GDGParserXmlMore.tryFields hostname coerce_gt (VObj props) rest this
                    = (Ok tt, this)).
    { apply IH. intros f Hin'. apply Hin. right. exact Hin'. }
    destruct (negb (is_nil text) && (20 <? length text)); exact Hrest. }
  apply Hloop. exact Hf.
Qed.

End Platform.

Lemma paraphrase_needs_letters_or_digits_witness :
  let hostname := fun _ : value => @None jsstring in
  let coerce_gt := fun (_ : value) (_ : nat) => Ok false in
  let text := lit "--- ... !!! ??? ::: ;;; ((( )))" in
  let props := map (fun f => (f, VStr text)) GDGParserXmlMore.textFields in
  inert text = true /\ 20 < length text /\
  GDGParserXml.createRedactedVersion text = text /\
  GDGParserXmlMore.extractTextContent hostname coerce_gt (VObj props) new
  = (Ok tt, new).
Proof.
  cbv zeta.
  assert (Hs : inert (lit "--- ... !!! ??? ::: ;;; ((( )))") = true)
    by (vm_compute; reflexivity).
  split; [exact Hs|]. split; [vm_compute; lia|].
  refine ((fun H => conj (proj1 H) (proj2 H _))
            (paraphrase_needs_letters_or_digits
               (fun _ => None) (fun _ _ => Ok false) _
               (map (fun f => (f, VStr (lit "--- ... !!! ??? ::: ;;; ((( )))")))
                    GDGParserXmlMore.textFields)
               new Hs)).
  intros field Hin. cbn in Hin.
  repeat (destruct Hin as [<-|Hin]; [reflexivity|]). destruct Hin.
Defined.

End GuardFacts.

Module RefeedFacts.
Import Js Dyn Common Spec EntryFacts.
Local Open Scope string_scope.
Local Open Scope list_scope.
Local Open Scope nat_scope.

Lemma nonblank_kept s :
  negb (is_nil (trim s)) = true -> nonblank (VStr s) = Ok true.
Proof.
  intros H. unfold nonblank. cbn [truthy].
  destruct s as [|c s]; [discriminate H|]. cbn [is_nil negb].
  rewrite positive_length, H. reflexivity.
Qed.

(** The filter does not throw on a change it would keep. *)
Lemma keep_change_ok c : change_ok c = true -> keep c = Ok true.
Proof.
  unfold change_ok, keep. destruct c as [| |b|n|s|l|props]; try discriminate.
  cbn [getp bind].
  destruct (lookup "from" props) as [| |b|n|from|l|ps]; try discriminate.
  destruct (lookup "to" props) as [| |b|n|to|l|ps]; try discriminate.
  intros H. apply andb_true_iff in H. destruct H as [Hf Ht].
  rewrite (nonblank_kept from Hf). cbn [bind]. apply nonblank_kept, Ht.
Qed.

Lemma filter_changes_kept l :
  forallb change_ok l = true -> filter_changes l = Ok l.
Proof.
  induction l as [|c l IH]; [reflexivity|]. cbn [forallb filter_changes].
  intros H. apply andb_true_iff in H. destruct H as [Hc Hl].
  rewrite (keep_change_ok c Hc), (IH Hl). reflexivity.
Qed.

Lemma setp_twice k v v' props : setp k v (setp k v' props) = setp k v props.
Proof.
  induction props as [|[k' v0] props IH]; cbn [setp].
  - rewrite String.eqb_refl. reflexivity.
  - destruct (String.eqb k k') eqn:E; cbn [setp].
    + rewrite String.eqb_refl. reflexivity.
    + rewrite E, IH. reflexivity.
Qed.

Section Platform.
Variable coerce_gt : value -> nat -> result bool.

(** X17.  An entry that [addEntry] has stored is accepted as it is by any parser
    with room: the filter finds nothing more to drop and the call does not
    throw. *)
Theorem stored_entry_is_accepted_as_is (entry stored : value) (this other : parser) :
  snd (addEntry coerce_gt entry this) = push stored this ->
  length (processedEntries other) < maxEntries other ->
  addEntry coerce_gt stored other = (Ok tt, push stored other).
Proof.
  intros Hstored Hroom.
  destruct (addEntry_cases coerce_gt entry this)
    as [E | (props & l & -> & Hl & Hne & _ & _ & E)].
  - rewrite E in Hstored. exfalso.
    apply (f_equal (fun p => length (processedEntries p))) in Hstored.
    cbn [push processedEntries] in Hstored. rewrite length_app in Hstored.
    cbn [length] in Hstored. lia.
  - rewrite E in Hstored.
    apply (f_equal processedEntries) in Hstored. cbn [push processedEntries] in Hstored.
    apply app_inv_head in Hstored. injection Hstored as <-.
    unfold addEntry. apply Nat.ltb_lt in Hroom. rewrite Hroom.
    unfold kept_changes. cbn [getp bind]. rewrite lookup_setp.
    cbn [truthy length_gt bind]. rewrite positive_length.
    destruct (filter change_ok l) as [|c kept] eqn:Ef; [congruence|].
    cbn [is_nil negb].
    assert (Hall : forallb change_ok (c :: kept) = true)
      by (rewrite <- Ef; apply forallb_filter).
    rewrite (filter_changes_kept _ Hall). cbn [bind]. cbv zeta.
    rewrite setp_twice. reflexivity.
Qed.

End Platform.

Lemma stored_entry_is_accepted_as_is_witness :
  let coerce_gt := fun (_ : value) (_ : nat) => @Throw bool TypeError in
  let good := VObj [("from", VStr (lit "a")); ("to", VStr (lit "b"))] in
  let blank := VObj [("from", VStr (lit " ")); ("to", VStr (lit "b"))] in
  let entry := VObj [("source", VNull); ("changes", VArr [blank; good])] in
  let stored := VObj [("source", VNull); ("changes", VArr [good])] in
  snd (addEntry coerce_gt entry new) = push stored new /\
  addEntry coerce_gt stored new = (Ok tt, push stored new).
Proof.
  cbv zeta.
  assert (H : snd (addEntry (fun _ _ => @Throw bool TypeError)
                     (VObj [("source", VNull);
                            ("changes",
                             VArr [VObj [("from", VStr (lit " ")); ("to", VStr (lit "b"))];
                                   VObj [("from", VStr (lit "a")); ("to", VStr (lit "b"))]])])
                     new)
              = push (VObj [("source", VNull);
                            ("changes",
                             VArr [VObj [("from", VStr (lit "a")); ("to", VStr (lit "b"))]])])
                     new)
    by (vm_compute; reflexivity).
  split; [exact H|].
  apply (stored_entry_is_accepted_as_is _ _ _ new new H). vm_compute. lia.
Defined.

End RefeedFacts.
